(** * The storage driver: pool and volume lifecycle orchestration

    A shallow embedding of [src/storage/storage_driver.c].  The driver is a
    registry of pool objects; each entry point looks a pool up, checks its
    state, dispatches to the backend of the pool's type, maintains the state
    file of the pool and queues an event.

    Conventions of the embedding:
    - [unsigned long long] and [unsigned int] values are [Z] with the
      wrap-around of the C arithmetic written out ([wrap64], [wrap32]);
    - a [virStoragePoolObjPtr] held by a function is a copy of the object
      that is written through to the registry at every mutation ([store]),
      the registry entry being found by the pool's name;
    - a function of the driver is a computation in the monad [M]: it
      threads the driver state and either returns a value or fails with
      the error it reported.  The state survives a failure, as it does
      across a [goto cleanup];
    - memory allocation is taken to succeed ([VIR_ALLOC], [VIR_STRDUP],
      [virGetStoragePool], [virGetStorageVol], event construction), and the
      object locks are not represented: one locked section is one
      uninterrupted run of [M].  The only place where the source drops the
      pool lock in the middle of a function, the volume build, is split
      into the section before and the section after the unlocked call. *)

From Stdlib Require Import ZArith List Ascii String Bool Lia DecimalString.
Import ListNotations.

Local Open Scope Z_scope.

(** ** Machine integers *)

Definition wrap64 (z : Z) : Z := z mod 2 ^ 64.
Definition wrap32 (z : Z) : Z := z mod 2 ^ 32.

(** The [MIN] macro of the source. *)
Definition MIN (a b : Z) : Z := if a <? b then a else b.

(** ** Definitions of pools and volumes *)

Inductive virStoragePoolType : Set :=
| VIR_STORAGE_POOL_DIR
| VIR_STORAGE_POOL_FS
| VIR_STORAGE_POOL_NETFS
| VIR_STORAGE_POOL_LOGICAL
| VIR_STORAGE_POOL_DISK
| VIR_STORAGE_POOL_ISCSI
| VIR_STORAGE_POOL_SCSI
| VIR_STORAGE_POOL_MPATH
| VIR_STORAGE_POOL_RBD
| VIR_STORAGE_POOL_SHEEPDOG
| VIR_STORAGE_POOL_GLUSTER
| VIR_STORAGE_POOL_ZFS
| VIR_STORAGE_POOL_VSTORAGE.

Definition is_VIR_STORAGE_POOL_DISK (t : virStoragePoolType) : bool :=
  match t with VIR_STORAGE_POOL_DISK => true | _ => false end.

Record virStoragePoolDef : Type := mkPoolDef {
  def_name : string;
  def_uuid : string;
  def_type : virStoragePoolType;
  def_source : string;
  def_target_path : string;
  def_capacity : Z;
  def_allocation : Z;
  def_available : Z
}.

(** A volume definition; the [target_] fields are [voldef->target.*]. *)
Record virStorageVolDef : Type := mkVolDef {
  vol_name : string;
  vol_key : option string;
  vol_building : bool;
  vol_in_use : Z;
  target_path : string;
  target_capacity : Z;
  target_allocation : Z;
  target_physical : Z;
  target_has_allocation : bool
}.

Record virStoragePoolObj : Type := mkPoolObj {
  def : virStoragePoolDef;
  newDef : option virStoragePoolDef;
  configFile : option string;
  autostartLink : option string;
  active : bool;
  autostart : bool;
  asyncjobs : Z;
  volumes : list virStorageVolDef
}.

(** Field updates. *)

Definition set_def_allocation (d : virStoragePoolDef) (v : Z) : virStoragePoolDef :=
  mkPoolDef (def_name d) (def_uuid d) (def_type d) (def_source d)
            (def_target_path d) (def_capacity d) v (def_available d).

Definition set_def_available (d : virStoragePoolDef) (v : Z) : virStoragePoolDef :=
  mkPoolDef (def_name d) (def_uuid d) (def_type d) (def_source d)
            (def_target_path d) (def_capacity d) (def_allocation d) v.

Definition set_vol_key (v : virStorageVolDef) (k : option string) : virStorageVolDef :=
  mkVolDef (vol_name v) k (vol_building v) (vol_in_use v) (target_path v)
           (target_capacity v) (target_allocation v) (target_physical v)
           (target_has_allocation v).

Definition set_vol_building (v : virStorageVolDef) (b : bool) : virStorageVolDef :=
  mkVolDef (vol_name v) (vol_key v) b (vol_in_use v) (target_path v)
           (target_capacity v) (target_allocation v) (target_physical v)
           (target_has_allocation v).

Definition set_vol_in_use (v : virStorageVolDef) (n : Z) : virStorageVolDef :=
  mkVolDef (vol_name v) (vol_key v) (vol_building v) n (target_path v)
           (target_capacity v) (target_allocation v) (target_physical v)
           (target_has_allocation v).

Definition set_target_capacity (v : virStorageVolDef) (c : Z) : virStorageVolDef :=
  mkVolDef (vol_name v) (vol_key v) (vol_building v) (vol_in_use v) (target_path v)
           c (target_allocation v) (target_physical v) (target_has_allocation v).

Definition set_target_allocation (v : virStorageVolDef) (a : Z) : virStorageVolDef :=
  mkVolDef (vol_name v) (vol_key v) (vol_building v) (vol_in_use v) (target_path v)
           (target_capacity v) a (target_physical v) (target_has_allocation v).

Definition set_def (o : virStoragePoolObj) (d : virStoragePoolDef) : virStoragePoolObj :=
  mkPoolObj d (newDef o) (configFile o) (autostartLink o) (active o)
            (autostart o) (asyncjobs o) (volumes o).

Definition set_newDef (o : virStoragePoolObj) (d : option virStoragePoolDef) : virStoragePoolObj :=
  mkPoolObj (def o) d (configFile o) (autostartLink o) (active o)
            (autostart o) (asyncjobs o) (volumes o).

Definition set_active (o : virStoragePoolObj) (b : bool) : virStoragePoolObj :=
  mkPoolObj (def o) (newDef o) (configFile o) (autostartLink o) b
            (autostart o) (asyncjobs o) (volumes o).

Definition set_asyncjobs (o : virStoragePoolObj) (n : Z) : virStoragePoolObj :=
  mkPoolObj (def o) (newDef o) (configFile o) (autostartLink o) (active o)
            (autostart o) n (volumes o).

Definition set_configFile (o : virStoragePoolObj) (cf al : option string) : virStoragePoolObj :=
  mkPoolObj (def o) (newDef o) cf al (active o) (autostart o) (asyncjobs o) (volumes o).

Definition set_volumes (o : virStoragePoolObj) (l : list virStorageVolDef) : virStoragePoolObj :=
  mkPoolObj (def o) (newDef o) (configFile o) (autostartLink o) (active o)
            (autostart o) (asyncjobs o) l.

(** The name under which an object is found in the registry. *)
Definition obj_name (o : virStoragePoolObj) : string := def_name (def o).

(** ** Handles, errors, events *)

Definition virConnectPtr : Set := nat.

Record virStoragePool : Set := mkPoolHandle {
  pool_conn : virConnectPtr;
  pool_name : string;
  pool_uuid : string
}.

Record virStorageVol : Set := mkVolHandle {
  volh_conn : virConnectPtr;
  volh_pool : string;
  volh_name : string;
  volh_key : option string
}.

Inductive virErrorNumber : Set :=
| VIR_ERR_INTERNAL_ERROR
| VIR_ERR_NO_SUPPORT
| VIR_ERR_INVALID_ARG
| VIR_ERR_OPERATION_FAILED
| VIR_ERR_OPERATION_INVALID
| VIR_ERR_NO_STORAGE_POOL
| VIR_ERR_NO_STORAGE_VOL
| VIR_ERR_STORAGE_VOL_EXIST.

(** How a call of the driver fails: with an error reported by the driver
    itself, with the error of a callee outside this file (parser, access
    control, backend, file system), by calling an entry point that is
    NULL, by finding that a pool object it held across an unlocked window
    is no longer registered, or by never returning because it locks a
    pool object it has already locked. *)
Inductive failure : Set :=
| Reported (code : virErrorNumber) (message : string)
| Callee (who : string)
| NullEntryPoint (entry : string)
| ObjectGone (pool : string)
| Deadlock (pool : string).

Inductive virStoragePoolEventLifecycleType : Set :=
| VIR_STORAGE_POOL_EVENT_DEFINED
| VIR_STORAGE_POOL_EVENT_UNDEFINED
| VIR_STORAGE_POOL_EVENT_STARTED
| VIR_STORAGE_POOL_EVENT_STOPPED
| VIR_STORAGE_POOL_EVENT_CREATED
| VIR_STORAGE_POOL_EVENT_DELETED.

Inductive virObjectEvent : Set :=
| virStoragePoolEventLifecycle (name uuid : string)
                               (type : virStoragePoolEventLifecycleType) (detail : Z)
| virStoragePoolEventRefresh (name uuid : string).

(** ** Backends

    A backend is the table of optional entry points of one pool type.  An
    entry point receives pointers to the pool object and, for the volume
    operations, to a volume definition.  What it may write through them is
    fixed by the dispatch functions below ([backend_pool_call],
    [backend_vol_call]): the pool definition except its identity (name,
    UUID, type), the volume list (pool entry points) or the volume it was
    handed except its name and the two runtime flags (volume entry points).
    The runtime fields of the pool object belong to the driver.

    [refreshPool] is called without a NULL test at each of its call sites,
    so it is not optional.  [buildVol] and [buildVolFrom] run while the
    pool lock is dropped and see a copy of the volume definition: they
    return a status only. *)

Definition poolEntryPoint : Type :=
  virStoragePoolObj -> Z -> Z * virStoragePoolDef * list virStorageVolDef.

Definition volEntryPoint : Type :=
  virStoragePoolObj -> virStorageVolDef -> Z -> Z -> Z * virStoragePoolDef * virStorageVolDef.

Record virStorageBackend : Type := mkBackend {
  buildPool : option poolEntryPoint;
  startPool : option poolEntryPoint;
  stopPool : option poolEntryPoint;
  refreshPool : poolEntryPoint;
  deletePool : option poolEntryPoint;
  createVol : option volEntryPoint;
  buildVol : option (virStoragePoolObj -> virStorageVolDef -> Z -> Z);
  buildVolFrom : option (virStoragePoolObj -> virStorageVolDef -> virStorageVolDef -> Z -> Z);
  refreshVol : option volEntryPoint;
  deleteVol : option volEntryPoint;
  resizeVol : option volEntryPoint;
  wipeVol : option volEntryPoint
}.

Inductive backendCall : Set :=
| CallBuildPool (pool : string)
| CallStartPool (pool : string)
| CallStopPool (pool : string)
| CallRefreshPool (pool : string)
| CallDeletePool (pool : string)
| CallCreateVol (pool vol : string)
| CallBuildVol (pool vol : string)
| CallBuildVolFrom (pool vol src : string)
| CallRefreshVol (pool vol : string)
| CallDeleteVol (pool vol : string)
| CallResizeVol (pool vol : string)
| CallWipeVol (pool vol : string).

(** ** Collaborators outside this file

    The definition codec, the access-control driver, the backend table and
    the file helpers are used through their interfaces only. *)

Inductive aclCheck : Set :=
| AclPoolCreateXML | AclPoolDefineXML | AclPoolUndefine | AclPoolCreate
| AclPoolBuild | AclPoolDestroy | AclPoolDelete | AclPoolRefresh
| AclVolCreateXML | AclVolCreateXMLFrom | AclVolDelete | AclVolResize
| AclVolWipePattern.

Record Env : Type := mkEnv {
  virStoragePoolDefParseString : string -> option virStoragePoolDef;
  virStorageVolDefParseString : virStoragePoolDef -> string -> Z -> option virStorageVolDef;
  virStorageBackendForType : virStoragePoolType -> option virStorageBackend;
  EnsureACL : aclCheck -> virConnectPtr -> virStoragePoolDef -> option virStorageVolDef -> bool;
  virFileBuildPath : string -> string -> string -> option string;
  virStoragePoolSaveState : string -> virStoragePoolDef -> bool;
  virStoragePoolSaveConfig : string -> virStoragePoolDef -> bool;
  virStoragePoolSourceMatch : virStoragePoolDef -> virStoragePoolDef -> bool;
  virStorageBackendPloopRestoreDesc : string -> Z;
  virStorageBackendRefreshVolTargetUpdate : virStorageVolDef -> Z * virStorageVolDef
}.

(** ** The driver state *)

Record virStorageDriverState : Type := mkDriver {
  pools : list virStoragePoolObj;
  configDir : string;
  autostartDir : string;
  stateDir : string;
  storageEventState : list virObjectEvent;   (* queued events, oldest first *)
  files : list string;                       (* paths present in the file system *)
  trace : list backendCall                   (* backend entry points called, oldest first *)
}.

Definition set_pools (s : virStorageDriverState) (l : list virStoragePoolObj) :=
  mkDriver l (configDir s) (autostartDir s) (stateDir s)
           (storageEventState s) (files s) (trace s).

Definition set_events (s : virStorageDriverState) (l : list virObjectEvent) :=
  mkDriver (pools s) (configDir s) (autostartDir s) (stateDir s) l (files s) (trace s).

Definition set_files (s : virStorageDriverState) (l : list string) :=
  mkDriver (pools s) (configDir s) (autostartDir s) (stateDir s)
           (storageEventState s) l (trace s).

Definition set_trace (s : virStorageDriverState) (l : list backendCall) :=
  mkDriver (pools s) (configDir s) (autostartDir s) (stateDir s)
           (storageEventState s) (files s) l.

(** ** The monad of driver calls *)

Definition M (A : Type) : Type :=
  virStorageDriverState -> (failure + A) * virStorageDriverState.

Definition ret {A : Type} (a : A) : M A := fun s => (inr a, s).

Definition fail {A : Type} (e : failure) : M A := fun s => (inl e, s).

Definition bind {A B : Type} (m : M A) (k : A -> M B) : M B :=
  fun s => match m s with
           | (inl e, s') => (inl e, s')
           | (inr a, s') => k a s'
           end.

Definition gets {A : Type} (f : virStorageDriverState -> A) : M A :=
  fun s => (inr (f s), s).

Definition modify (f : virStorageDriverState -> virStorageDriverState) : M unit :=
  fun s => (inr tt, f s).

Declare Scope driver_scope.
Delimit Scope driver_scope with driver.
Notation "x <- m ;; k" := (bind m (fun x => k))
  (at level 61, m at next level, right associativity) : driver_scope.
Notation "m ;; k" := (bind m (fun _ => k))
  (at level 61, right associativity) : driver_scope.
Local Open Scope driver_scope.

(** [virReportError(code, message); goto cleanup]. *)
Definition virReportError {A : Type} (code : virErrorNumber) (message : string) : M A :=
  fail (Reported code message).

(** A format string with one [%s]. *)
Definition fmt (before arg after : string) : string :=
  String.append before (String.append arg after).

(** What [%d] prints of an [unsigned int]: the value read as an [int]. *)
Definition fmt_d (n : Z) : string :=
  NilZero.string_of_int (Z.to_int (if n <? 2 ^ 31 then n else n - 2 ^ 32)).

(** ** The pool registry and the volume list of a pool

    The list functions of [virstorageobj.c] are not in this file; the
    driver uses them through the calls modelled here. *)

Definition name_is (name : string) (o : virStoragePoolObj) : bool :=
  String.eqb (obj_name o) name.

Definition uuid_is (uuid : string) (o : virStoragePoolObj) : bool :=
  String.eqb (def_uuid (def o)) uuid.

(** Modelled from the spec: the registry lookups [findByName] and
    [findByUUID] of section 4.2 scan the current set; their code
    ([virStoragePoolObjFindByName], [virStoragePoolObjFindByUUID]) is in
    another file. *)
Definition virStoragePoolObjFindByName (l : list virStoragePoolObj) (name : string)
  : option virStoragePoolObj := find (name_is name) l.

Definition virStoragePoolObjFindByUUID (l : list virStoragePoolObj) (uuid : string)
  : option virStoragePoolObj := find (uuid_is uuid) l.

(** Modelled from the spec: registry [insert] "rejects if a definition with
    the same name or UUID already exists" (section 4.2).  The code of
    [virStoragePoolObjIsDuplicate] is in another file; its third argument
    is kept as the source passes it.  [true] stands for the negative
    return value. *)
Definition virStoragePoolObjIsDuplicate (l : list virStoragePoolObj)
           (d : virStoragePoolDef) (check_active : Z) : bool :=
  existsb (fun o => name_is (def_name d) o || uuid_is (def_uuid d) o) l.

(** Modelled from the spec: [insert] also rejects a definition whose
    "proposed source description collides with another pool's source"
    (section 4.2); what makes two sources collide is decided by the
    collaborator [virStoragePoolSourceMatch].  The code of
    [virStoragePoolObjSourceFindDuplicate] is in another file. *)
Definition virStoragePoolObjSourceFindDuplicate (env : Env)
           (l : list virStoragePoolObj) (d : virStoragePoolDef) : bool :=
  existsb (fun o => virStoragePoolSourceMatch env (def o) d) l.

(** Modelled from the spec: a Pool Object made by [insert] is a new member
    of the registry holding the definition, inactive, transient, with no
    pending definition, no job and no volume (sections 3 and 4.2).  The
    code of [virStoragePoolObjAssignDef] is in another file. *)
Definition virStoragePoolObjNew (d : virStoragePoolDef) : virStoragePoolObj :=
  mkPoolObj d None None None false false 0 [].

Definition virStoragePoolObjAssignDef (d : virStoragePoolDef) : M virStoragePoolObj :=
  modify (fun s => set_pools s (pools s ++ [virStoragePoolObjNew d])) ;;
  ret (virStoragePoolObjNew d).

(** Modelled from the spec: registry [remove] (section 4.2) takes the Pool
    Object, found by its name, out of the set.  The code of
    [virStoragePoolObjRemove] is in another file. *)
Definition virStoragePoolObjRemove (obj : virStoragePoolObj) : M unit :=
  modify (fun s => set_pools s (filter (fun o => negb (name_is (obj_name obj) o)) (pools s))).

(** Writing the held copy of a pool object through to the registry. *)
Definition store_at (name : string) (obj : virStoragePoolObj) : M unit :=
  modify (fun s => set_pools s
            (map (fun o => if name_is name o then obj else o) (pools s))).

Definition store (obj : virStoragePoolObj) : M unit := store_at (obj_name obj) obj.

(** The accessors of the pool object. *)
Definition virStoragePoolObjGetDef := def.
Definition virStoragePoolObjGetNewDef := newDef.
Definition virStoragePoolObjGetConfigFile := configFile.
Definition virStoragePoolObjGetAutostartLink := autostartLink.
Definition virStoragePoolObjIsActive := active.
Definition virStoragePoolObjGetAsyncjobs := asyncjobs.

Definition virStoragePoolObjSetActive (obj : virStoragePoolObj) (b : bool)
  : M virStoragePoolObj :=
  store (set_active obj b) ;; ret (set_active obj b).

(** Modelled from the spec: the job counter is a non-negative integer that
    the build protocol increments before the lock is dropped and
    decrements after it is taken again (sections 3 and 4.5).  The code of
    [virStoragePoolObjIncrAsyncjobs] and [virStoragePoolObjDecrAsyncjobs]
    is in another file. *)
Definition virStoragePoolObjIncrAsyncjobs (obj : virStoragePoolObj)
  : M virStoragePoolObj :=
  store (set_asyncjobs obj (asyncjobs obj + 1)) ;;
  ret (set_asyncjobs obj (asyncjobs obj + 1)).

Definition virStoragePoolObjDecrAsyncjobs (obj : virStoragePoolObj)
  : M virStoragePoolObj :=
  store (set_asyncjobs obj (asyncjobs obj - 1)) ;;
  ret (set_asyncjobs obj (asyncjobs obj - 1)).

(** Modelled from the spec: a pending definition "becomes current only
    after the pool transitions to inactive" and is then cleared (section
    3).  The code of [virStoragePoolObjDefUseNewDef] is in another file. *)
Definition virStoragePoolObjDefUseNewDef (obj : virStoragePoolObj)
  : M virStoragePoolObj :=
  match newDef obj with
  | Some d =>
      store_at (obj_name obj) (set_newDef (set_def obj d) None) ;;
      ret (set_newDef (set_def obj d) None)
  | None => ret obj
  end.

(** The volume list: lookup by name, append, removal, replacement of the
    entry a [virStorageVolDefPtr] points to, and emptying. *)
Definition vol_is (name : string) (v : virStorageVolDef) : bool :=
  String.eqb (vol_name v) name.

Definition virStorageVolDefFindByName (obj : virStoragePoolObj) (name : string)
  : option virStorageVolDef := find (vol_is name) (volumes obj).

Definition put_vol (obj : virStoragePoolObj) (v : virStorageVolDef) : virStoragePoolObj :=
  set_volumes obj (map (fun x => if vol_is (vol_name v) x then v else x) (volumes obj)).

Definition virStoragePoolObjAddVol (obj : virStoragePoolObj) (v : virStorageVolDef)
  : M virStoragePoolObj :=
  store (set_volumes obj (volumes obj ++ [v])) ;;
  ret (set_volumes obj (volumes obj ++ [v])).

Definition virStoragePoolObjRemoveVol (obj : virStoragePoolObj) (v : virStorageVolDef)
  : M virStoragePoolObj :=
  store (set_volumes obj (filter (fun x => negb (vol_is (vol_name v) x)) (volumes obj))) ;;
  ret (set_volumes obj (filter (fun x => negb (vol_is (vol_name v) x)) (volumes obj))).

Definition virStoragePoolObjClearVols (obj : virStoragePoolObj) : M virStoragePoolObj :=
  store (set_volumes obj []) ;; ret (set_volumes obj []).

(** A write through a [virStorageVolDefPtr] that points into the list. *)
Definition store_vol (obj : virStoragePoolObj) (v : virStorageVolDef)
  : M virStoragePoolObj :=
  store (put_vol obj v) ;; ret (put_vol obj v).

(** The same for a pointer held across the unlocked window: the entry of
    that name is updated in place. *)
Definition with_vol (obj : virStoragePoolObj) (name : string)
           (f : virStorageVolDef -> virStorageVolDef) : virStoragePoolObj :=
  set_volumes obj (map (fun x => if vol_is name x then f x else x) (volumes obj)).

Definition update_vol (obj : virStoragePoolObj) (name : string)
           (f : virStorageVolDef -> virStorageVolDef) : M virStoragePoolObj :=
  store (with_vol obj name f) ;; ret (with_vol obj name f).

(** ** Files and events *)

Definition file_exists (path : string) (s : virStorageDriverState) : bool :=
  existsb (String.eqb path) (files s).

(** [unlink(path)] that removes the path, or finds it absent.  The file
    system of this development does not refuse a removal: where the driver
    drops the result of [unlink] (state files, the autostart link of
    [storagePoolUndefine]) the path is taken to be gone afterwards.
    [storagePoolSetAutostart], which reports a refused removal, asks
    [unlink_refused] first. *)
Definition unlink (path : string) : M unit :=
  modify (fun s => set_files s (filter (fun p => negb (String.eqb path p)) (files s))).

Definition write_file (path : string) : M unit :=
  modify (fun s => set_files s (if file_exists path s then files s
                                else path :: files s)).

(** [virStoragePoolSaveState(stateFile, def) < 0] decides; when the call
    succeeds the file is there. *)
Definition saveState (env : Env) (stateFile : string) (d : virStoragePoolDef) : M bool :=
  if virStoragePoolSaveState env stateFile d
  then write_file stateFile ;; ret true
  else ret false.

(** An event made by a function is queued by its [cleanup] block on every
    path that follows, so it is queued where it is made. *)
Definition virObjectEventStateQueue (ev : virObjectEvent) : M unit :=
  modify (fun s => set_events s (storageEventState s ++ [ev])).

(** ** Calling the backend *)

Definition log (c : backendCall) : M unit :=
  modify (fun s => set_trace s (trace s ++ [c])).

Definition backend_def (old new : virStoragePoolDef) : virStoragePoolDef :=
  mkPoolDef (def_name old) (def_uuid old) (def_type old) (def_source new)
            (def_target_path new) (def_capacity new) (def_allocation new)
            (def_available new).

Definition backend_vol (old new : virStorageVolDef) : virStorageVolDef :=
  mkVolDef (vol_name old) (vol_key new) (vol_building old) (vol_in_use old)
           (target_path new) (target_capacity new) (target_allocation new)
           (target_physical new) (target_has_allocation new).

(** A pool entry point: the status and the object as the backend left it. *)
Definition backend_pool_call (c : backendCall) (entry : poolEntryPoint)
           (obj : virStoragePoolObj) (flags : Z) : M (Z * virStoragePoolObj) :=
  let '(status, d, vols) := entry obj flags in
  let obj' := set_volumes (set_def obj (backend_def (def obj) d)) vols in
  log c ;; store obj' ;; ret (status, obj').

(** A volume entry point: the status, the pool object and the volume
    definition as the backend left them.  The caller writes the volume
    back where it lives. *)
Definition backend_vol_call (c : backendCall) (entry : volEntryPoint)
           (obj : virStoragePoolObj) (v : virStorageVolDef) (a b : Z)
  : M (Z * virStoragePoolObj * virStorageVolDef) :=
  let '(status, d, v') := entry obj v a b in
  let obj' := set_def obj (backend_def (def obj) d) in
  log c ;; store obj' ;; ret (status, obj', backend_vol v v').

(** The same for a volume that is in the list of [obj]. *)
Definition backend_ownvol_call (c : backendCall) (entry : volEntryPoint)
           (obj : virStoragePoolObj) (v : virStorageVolDef) (a b : Z)
  : M (Z * virStoragePoolObj * virStorageVolDef) :=
  r <- backend_vol_call c entry obj v a b ;;
  let '(status, obj', v') := r in
  obj'' <- store_vol obj' v' ;;
  ret (status, obj'', v').

(** ** Flags *)

(** [virCheckFlags(supported, retval)]: a bit outside [supported] is an
    invalid argument. *)
Definition virCheckFlags (supported flags : Z) : M unit :=
  if Z.land flags (Z.lnot supported) =? 0 then ret tt
  else virReportError VIR_ERR_INVALID_ARG "unsupported flags".

Definition flag_set (flags bit : Z) : bool := negb (Z.land flags bit =? 0).

(** Modelled from the spec: pool creation may be asked to build first,
    with the mutually exclusive build flags [overwrite] and [no-overwrite]
    (section 4.3).  The header that numbers the flags is not among the
    sources; the values are those of the public API. *)
Definition VIR_STORAGE_POOL_BUILD_NO_OVERWRITE : Z := 4.
Definition VIR_STORAGE_POOL_BUILD_OVERWRITE : Z := 8.
Definition VIR_STORAGE_POOL_CREATE_WITH_BUILD : Z := 1.
Definition VIR_STORAGE_POOL_CREATE_WITH_BUILD_OVERWRITE : Z := 2.
Definition VIR_STORAGE_POOL_CREATE_WITH_BUILD_NO_OVERWRITE : Z := 4.

(** Modelled from the spec: a resize may ask for allocation, take its
    argument as a delta, and ask for shrinking (section 4.4).  The header
    that numbers the flags is not among the sources; the values are those
    of the public API. *)
Definition VIR_STORAGE_VOL_RESIZE_ALLOCATE : Z := 1.
Definition VIR_STORAGE_VOL_RESIZE_DELTA : Z := 2.
Definition VIR_STORAGE_VOL_RESIZE_SHRINK : Z := 4.

Definition VIR_STORAGE_VOL_CREATE_PREALLOC_METADATA : Z := 1.
Definition VIR_STORAGE_VOL_CREATE_REFLINK : Z := 2.

(** [VIR_EXCLUSIVE_FLAGS_RET(a, b, retval)]. *)
Definition VIR_EXCLUSIVE_FLAGS_RET (flags a b : Z) : M unit :=
  if flag_set flags a && flag_set flags b
  then virReportError VIR_ERR_INVALID_ARG "mutually exclusive flags"
  else ret tt.

(** The access-control check of an entry point. *)
Definition ensureACL (env : Env) (c : aclCheck) (conn : virConnectPtr)
           (d : virStoragePoolDef) (v : option virStorageVolDef) : M unit :=
  if EnsureACL env c conn d v then ret tt else fail (Callee "access control").

Definition backendForType (env : Env) (t : virStoragePoolType) : M virStorageBackend :=
  match virStorageBackendForType env t with
  | Some b => ret b
  | None => fail (Callee "virStorageBackendForType")
  end.

(** ** Pool operations *)

(** [virStoragePoolUpdateInactive]: called after a pool becomes inactive;
    a pool without a config file is removed, a persistent one switches to
    its pending definition. *)
Definition virStoragePoolUpdateInactive (obj : virStoragePoolObj) : M unit :=
  match virStoragePoolObjGetConfigFile obj with
  | None => virStoragePoolObjRemove obj
  | Some _ =>
      match virStoragePoolObjGetNewDef obj with
      | Some _ => _ <- virStoragePoolObjDefUseNewDef obj ;; ret tt
      | None => ret tt
      end
  end.

Definition storagePoolObjFindByUUID (uuid : string) (name : option string)
  : M virStoragePoolObj :=
  l <- gets pools ;;
  match virStoragePoolObjFindByUUID l uuid with
  | Some obj => ret obj
  | None =>
      match name with
      | Some n =>
          virReportError VIR_ERR_NO_STORAGE_POOL
            (fmt "no storage pool with matching uuid '" uuid (fmt "' (" n ")"))
      | None =>
          virReportError VIR_ERR_NO_STORAGE_POOL
            (fmt "no storage pool with matching uuid '" uuid "'")
      end
  end.

Definition virStoragePoolObjFromStoragePool (pool : virStoragePool)
  : M virStoragePoolObj :=
  storagePoolObjFindByUUID (pool_uuid pool) (Some (pool_name pool)).

Definition storagePoolObjFindByName (name : string) : M virStoragePoolObj :=
  l <- gets pools ;;
  match virStoragePoolObjFindByName l name with
  | Some obj => ret obj
  | None =>
      virReportError VIR_ERR_NO_STORAGE_POOL
        (fmt "no storage pool with matching name '" name "'")
  end.

(** The build flags that [storagePoolCreateXML] and [storagePoolCreate]
    derive from their creation flags. *)
Definition create_build_flags (flags : Z) : Z :=
  if flag_set flags VIR_STORAGE_POOL_CREATE_WITH_BUILD_OVERWRITE
  then Z.lor 0 VIR_STORAGE_POOL_BUILD_OVERWRITE
  else if flag_set flags VIR_STORAGE_POOL_CREATE_WITH_BUILD_NO_OVERWRITE
       then Z.lor 0 VIR_STORAGE_POOL_BUILD_NO_OVERWRITE
       else 0.

Definition create_flags_supported : Z :=
  Z.lor VIR_STORAGE_POOL_CREATE_WITH_BUILD
        (Z.lor VIR_STORAGE_POOL_CREATE_WITH_BUILD_OVERWRITE
               VIR_STORAGE_POOL_CREATE_WITH_BUILD_NO_OVERWRITE).

(** [stopPool] when the backend has it; its status is ignored. *)
Definition stop_if_supported (backend : virStorageBackend) (obj : virStoragePoolObj)
  : M virStoragePoolObj :=
  match stopPool backend with
  | Some entry =>
      r <- backend_pool_call (CallStopPool (obj_name obj)) entry obj 0 ;;
      ret (snd r)
  | None => ret obj
  end.

(** [!stateFile || virStoragePoolSaveState(stateFile, def) < 0 ||
    backend->refreshPool(conn, obj) < 0], evaluated left to right: the
    failure that stopped the evaluation, if any, and the object. *)
Definition save_state_and_refresh (env : Env) (backend : virStorageBackend)
           (stateFile : option string) (obj : virStoragePoolObj)
  : M (option failure * virStoragePoolObj) :=
  match stateFile with
  | None => ret (Some (Callee "virFileBuildPath"), obj)
  | Some f =>
      saved <- saveState env f (def obj) ;;
      if saved then
        r <- backend_pool_call (CallRefreshPool (obj_name obj))
                               (refreshPool backend) obj 0 ;;
        if fst r <? 0 then ret (Some (Callee "refreshPool"), snd r)
        else ret (None, snd r)
      else ret (Some (Callee "virStoragePoolSaveState"), obj)
  end.

Definition unlink_if (stateFile : option string) : M unit :=
  match stateFile with
  | Some f => unlink f
  | None => ret tt
  end.

Definition storagePoolCreateXML (env : Env) (conn : virConnectPtr)
           (xml : string) (flags : Z) : M virStoragePool :=
  virCheckFlags create_flags_supported flags ;;
  VIR_EXCLUSIVE_FLAGS_RET flags VIR_STORAGE_POOL_BUILD_OVERWRITE
                          VIR_STORAGE_POOL_BUILD_NO_OVERWRITE ;;
  match virStoragePoolDefParseString env xml with
  | None => fail (Callee "virStoragePoolDefParseString")
  | Some newDef =>
      ensureACL env AclPoolCreateXML conn newDef None ;;
      l <- gets pools ;;
      if virStoragePoolObjIsDuplicate l newDef 1
      then fail (Callee "virStoragePoolObjIsDuplicate") else
      if virStoragePoolObjSourceFindDuplicate env l newDef
      then fail (Callee "virStoragePoolObjSourceFindDuplicate") else
      backend <- backendForType env (def_type newDef) ;;
      obj <- virStoragePoolObjAssignDef newDef ;;
      obj <- match buildPool backend with
             | Some entry =>
                 let build_flags := create_build_flags flags in
                 if negb (build_flags =? 0)
                    || flag_set flags VIR_STORAGE_POOL_CREATE_WITH_BUILD
                 then
                   r <- backend_pool_call (CallBuildPool (obj_name obj))
                                          entry obj build_flags ;;
                   if fst r <? 0
                   then virStoragePoolObjRemove (snd r) ;; fail (Callee "buildPool")
                   else ret (snd r)
                 else ret obj
             | None => ret obj
             end ;;
      obj <- match startPool backend with
             | Some entry =>
                 r <- backend_pool_call (CallStartPool (obj_name obj)) entry obj 0 ;;
                 if fst r <? 0
                 then virStoragePoolObjRemove (snd r) ;; fail (Callee "startPool")
                 else ret (snd r)
             | None => ret obj
             end ;;
      sd <- gets stateDir ;;
      let stateFile := virFileBuildPath env sd (obj_name obj) ".xml" in
      obj <- virStoragePoolObjClearVols obj ;;
      r <- save_state_and_refresh env backend stateFile obj ;;
      match fst r with
      | Some e =>
          unlink_if stateFile ;;
          obj <- stop_if_supported backend (snd r) ;;
          virStoragePoolObjRemove obj ;;
          fail e
      | None =>
          let obj := snd r in
          virObjectEventStateQueue
            (virStoragePoolEventLifecycle (obj_name obj) (def_uuid (def obj))
                                          VIR_STORAGE_POOL_EVENT_STARTED 0) ;;
          _ <- virStoragePoolObjSetActive obj true ;;
          ret (mkPoolHandle conn (obj_name obj) (def_uuid (def obj)))
      end
  end.

Definition storagePoolCreate (env : Env) (pool : virStoragePool) (flags : Z) : M unit :=
  virCheckFlags create_flags_supported flags ;;
  VIR_EXCLUSIVE_FLAGS_RET flags VIR_STORAGE_POOL_BUILD_OVERWRITE
                          VIR_STORAGE_POOL_BUILD_NO_OVERWRITE ;;
  obj <- virStoragePoolObjFromStoragePool pool ;;
  ensureACL env AclPoolCreate (pool_conn pool) (def obj) None ;;
  backend <- backendForType env (def_type (def obj)) ;;
  if virStoragePoolObjIsActive obj then
    virReportError VIR_ERR_OPERATION_INVALID
      (fmt "storage pool '" (obj_name obj) "' is already active")
  else
  obj <- match buildPool backend with
         | Some entry =>
             let build_flags := create_build_flags flags in
             if negb (build_flags =? 0)
                || flag_set flags VIR_STORAGE_POOL_CREATE_WITH_BUILD
             then
               r <- backend_pool_call (CallBuildPool (obj_name obj))
                                      entry obj build_flags ;;
               if fst r <? 0 then fail (Callee "buildPool") else ret (snd r)
             else ret obj
         | None => ret obj
         end ;;
  obj <- match startPool backend with
         | Some entry =>
             r <- backend_pool_call (CallStartPool (obj_name obj)) entry obj 0 ;;
             if fst r <? 0 then fail (Callee "startPool") else ret (snd r)
         | None => ret obj
         end ;;
  sd <- gets stateDir ;;
  let stateFile := virFileBuildPath env sd (obj_name obj) ".xml" in
  obj <- virStoragePoolObjClearVols obj ;;
  r <- save_state_and_refresh env backend stateFile obj ;;
  match fst r with
  | Some e =>
      unlink_if stateFile ;;
      _ <- stop_if_supported backend (snd r) ;;
      fail e
  | None =>
      let obj := snd r in
      virObjectEventStateQueue
        (virStoragePoolEventLifecycle (obj_name obj) (def_uuid (def obj))
                                      VIR_STORAGE_POOL_EVENT_STARTED 0) ;;
      _ <- virStoragePoolObjSetActive obj true ;;
      ret tt
  end.

Definition storagePoolBuild (env : Env) (pool : virStoragePool) (flags : Z) : M unit :=
  obj <- virStoragePoolObjFromStoragePool pool ;;
  ensureACL env AclPoolBuild (pool_conn pool) (def obj) None ;;
  backend <- backendForType env (def_type (def obj)) ;;
  if virStoragePoolObjIsActive obj then
    virReportError VIR_ERR_OPERATION_INVALID
      (fmt "storage pool '" (obj_name obj) "' is already active")
  else
  obj <- match buildPool backend with
         | Some entry =>
             r <- backend_pool_call (CallBuildPool (obj_name obj)) entry obj flags ;;
             if fst r <? 0 then fail (Callee "buildPool") else ret (snd r)
         | None => ret obj
         end ;;
  virObjectEventStateQueue
    (virStoragePoolEventLifecycle (obj_name obj) (def_uuid (def obj))
                                  VIR_STORAGE_POOL_EVENT_CREATED 0).

Definition storagePoolDestroy (env : Env) (pool : virStoragePool) : M unit :=
  obj <- storagePoolObjFindByUUID (pool_uuid pool) (Some (pool_name pool)) ;;
  ensureACL env AclPoolDestroy (pool_conn pool) (def obj) None ;;
  backend <- backendForType env (def_type (def obj)) ;;
  if negb (virStoragePoolObjIsActive obj) then
    virReportError VIR_ERR_OPERATION_INVALID
      (fmt "storage pool '" (obj_name obj) "' is not active")
  else
  if 0 <? virStoragePoolObjGetAsyncjobs obj then
    virReportError VIR_ERR_INTERNAL_ERROR
      (fmt "pool '" (obj_name obj) "' has asynchronous jobs running.")
  else
  sd <- gets stateDir ;;
  match virFileBuildPath env sd (obj_name obj) ".xml" with
  | None => fail (Callee "virFileBuildPath")
  | Some stateFile =>
      unlink stateFile ;;
      obj <- match stopPool backend with
             | Some entry =>
                 r <- backend_pool_call (CallStopPool (obj_name obj)) entry obj 0 ;;
                 if fst r <? 0 then fail (Callee "stopPool") else ret (snd r)
             | None => ret obj
             end ;;
      obj <- virStoragePoolObjClearVols obj ;;
      virObjectEventStateQueue
        (virStoragePoolEventLifecycle (obj_name obj) (def_uuid (def obj))
                                      VIR_STORAGE_POOL_EVENT_STOPPED 0) ;;
      obj <- virStoragePoolObjSetActive obj false ;;
      virStoragePoolUpdateInactive obj
  end.

Definition storagePoolDelete (env : Env) (pool : virStoragePool) (flags : Z) : M unit :=
  obj <- virStoragePoolObjFromStoragePool pool ;;
  ensureACL env AclPoolDelete (pool_conn pool) (def obj) None ;;
  backend <- backendForType env (def_type (def obj)) ;;
  if virStoragePoolObjIsActive obj then
    virReportError VIR_ERR_OPERATION_INVALID
      (fmt "storage pool '" (obj_name obj) "' is still active")
  else
  if 0 <? virStoragePoolObjGetAsyncjobs obj then
    virReportError VIR_ERR_INTERNAL_ERROR
      (fmt "pool '" (obj_name obj) "' has asynchronous jobs running.")
  else
  sd <- gets stateDir ;;
  match virFileBuildPath env sd (obj_name obj) ".xml" with
  | None => fail (Callee "virFileBuildPath")
  | Some stateFile =>
      unlink stateFile ;;
      match deletePool backend with
      | None =>
          virReportError VIR_ERR_NO_SUPPORT "pool does not support pool deletion"
      | Some entry =>
          r <- backend_pool_call (CallDeletePool (obj_name obj)) entry obj flags ;;
          if fst r <? 0 then fail (Callee "deletePool") else
          virObjectEventStateQueue
            (virStoragePoolEventLifecycle (obj_name obj) (def_uuid (def obj))
                                          VIR_STORAGE_POOL_EVENT_DELETED 0)
      end
  end.

Definition storagePoolRefresh (env : Env) (pool : virStoragePool) (flags : Z) : M unit :=
  virCheckFlags 0 flags ;;
  obj <- storagePoolObjFindByUUID (pool_uuid pool) (Some (pool_name pool)) ;;
  ensureACL env AclPoolRefresh (pool_conn pool) (def obj) None ;;
  backend <- backendForType env (def_type (def obj)) ;;
  if negb (virStoragePoolObjIsActive obj) then
    virReportError VIR_ERR_OPERATION_INVALID
      (fmt "storage pool '" (obj_name obj) "' is not active")
  else
  if 0 <? virStoragePoolObjGetAsyncjobs obj then
    virReportError VIR_ERR_INTERNAL_ERROR
      (fmt "pool '" (obj_name obj) "' has asynchronous jobs running.")
  else
  obj <- virStoragePoolObjClearVols obj ;;
  r <- backend_pool_call (CallRefreshPool (obj_name obj)) (refreshPool backend) obj 0 ;;
  if fst r <? 0 then
    obj <- stop_if_supported backend (snd r) ;;
    virObjectEventStateQueue
      (virStoragePoolEventLifecycle (obj_name obj) (def_uuid (def obj))
                                    VIR_STORAGE_POOL_EVENT_STOPPED 0) ;;
    obj <- virStoragePoolObjSetActive obj false ;;
    virStoragePoolUpdateInactive obj ;;
    fail (Callee "refreshPool")
  else
    virObjectEventStateQueue
      (virStoragePoolEventRefresh (obj_name obj) (def_uuid (def obj))).

(** [virXMLCheckIllegalChars("name", str, "\n")]: the string holds a
    newline. *)
Fixpoint has_newline (str : string) : bool :=
  match str with
  | EmptyString => false
  | String c rest => Ascii.eqb c "010"%char || has_newline rest
  end.

(** Modelled from the spec: Define "persist[s the] definition to the config
    directory"; the presence of a config-file path is what makes a pool
    persistent (sections 3 and 4.3).  The code of
    [virStoragePoolObjSaveDef] is in another file.  [None] stands for the
    negative return value. *)
Definition virStoragePoolObjSaveDef (env : Env) (obj : virStoragePoolObj)
  : M (option virStoragePoolObj) :=
  cd <- gets configDir ;;
  ad <- gets autostartDir ;;
  match configFile obj with
  | Some f =>
      if virStoragePoolSaveConfig env f (def obj)
      then write_file f ;; ret (Some obj)
      else ret None
  | None =>
      match virFileBuildPath env cd (obj_name obj) ".xml",
            virFileBuildPath env ad (obj_name obj) ".xml" with
      | Some f, Some link =>
          let obj' := set_configFile obj (Some f) (Some link) in
          store obj' ;;
          if virStoragePoolSaveConfig env f (def obj')
          then write_file f ;; ret (Some obj')
          else ret None
      | _, _ => ret None
      end
  end.

(** Modelled from the spec: Undefine "removes [the] persisted definition"
    (section 4.3); a pool without one cannot be undefined.  The code of
    [virStoragePoolObjDeleteDef] is in another file.  [false] stands for
    the negative return value. *)
Definition virStoragePoolObjDeleteDef (obj : virStoragePoolObj) : M bool :=
  match configFile obj with
  | None => ret false
  | Some f => unlink f ;; ret true
  end.

Definition storagePoolDefineXML (env : Env) (conn : virConnectPtr)
           (xml : string) (flags : Z) : M virStoragePool :=
  virCheckFlags 0 flags ;;
  match virStoragePoolDefParseString env xml with
  | None => fail (Callee "virStoragePoolDefParseString")
  | Some newDef =>
      if has_newline (def_name newDef) then fail (Callee "virXMLCheckIllegalChars") else
      ensureACL env AclPoolDefineXML conn newDef None ;;
      l <- gets pools ;;
      if virStoragePoolObjIsDuplicate l newDef 0
      then fail (Callee "virStoragePoolObjIsDuplicate") else
      if virStoragePoolObjSourceFindDuplicate env l newDef
      then fail (Callee "virStoragePoolObjSourceFindDuplicate") else
      _ <- backendForType env (def_type newDef) ;;
      obj <- virStoragePoolObjAssignDef newDef ;;
      saved <- virStoragePoolObjSaveDef env obj ;;
      match saved with
      | None => virStoragePoolObjRemove obj ;; fail (Callee "virStoragePoolObjSaveDef")
      | Some obj =>
          virObjectEventStateQueue
            (virStoragePoolEventLifecycle (obj_name obj) (def_uuid (def obj))
                                          VIR_STORAGE_POOL_EVENT_DEFINED 0) ;;
          ret (mkPoolHandle conn (obj_name obj) (def_uuid (def obj)))
      end
  end.

Definition storagePoolUndefine (env : Env) (pool : virStoragePool) : M unit :=
  obj <- storagePoolObjFindByUUID (pool_uuid pool) (Some (pool_name pool)) ;;
  ensureACL env AclPoolUndefine (pool_conn pool) (def obj) None ;;
  if virStoragePoolObjIsActive obj then
    virReportError VIR_ERR_OPERATION_INVALID
      (fmt "storage pool '" (obj_name obj) "' is still active")
  else
  if 0 <? virStoragePoolObjGetAsyncjobs obj then
    virReportError VIR_ERR_INTERNAL_ERROR
      (fmt "pool '" (obj_name obj) "' has asynchronous jobs running.")
  else
  let autostartLink := virStoragePoolObjGetAutostartLink obj in
  deleted <- virStoragePoolObjDeleteDef obj ;;
  if negb deleted then fail (Callee "virStoragePoolObjDeleteDef") else
  unlink_if autostartLink ;;
  virObjectEventStateQueue
    (virStoragePoolEventLifecycle (obj_name obj) (def_uuid (def obj))
                                  VIR_STORAGE_POOL_EVENT_UNDEFINED 0) ;;
  virStoragePoolObjRemove obj.

(** ** Volume operations *)

(** [def->allocation += n; def->available -= n] and the reverse. *)
Definition pool_allocate (obj : virStoragePoolObj) (n : Z) : virStoragePoolObj :=
  let d := def obj in
  let d := set_def_allocation d (wrap64 (def_allocation d + n)) in
  let d := set_def_available d (wrap64 (def_available d - n)) in
  set_def obj d.

Definition pool_release (obj : virStoragePoolObj) (n : Z) : virStoragePoolObj :=
  let d := def obj in
  let d := set_def_allocation d (wrap64 (def_allocation d - n)) in
  let d := set_def_available d (wrap64 (def_available d + n)) in
  set_def obj d.

Definition storageVolDeleteInternal (backend : virStorageBackend)
           (obj : virStoragePoolObj) (voldef : virStorageVolDef)
           (flags : Z) (updateMeta : bool) : M virStoragePoolObj :=
  match deleteVol backend with
  | None =>
      virReportError VIR_ERR_NO_SUPPORT "storage pool does not support vol deletion"
  | Some entry =>
      r <- backend_ownvol_call (CallDeleteVol (obj_name obj) (vol_name voldef))
                               entry obj voldef flags 0 ;;
      let '(status, obj, voldef) := r in
      if status <? 0 then fail (Callee "deleteVol") else
      obj <- (if updateMeta then
                if negb (is_VIR_STORAGE_POOL_DISK (def_type (def obj))) then
                  store (pool_release obj (target_allocation voldef)) ;;
                  ret (pool_release obj (target_allocation voldef))
                else ret obj
              else ret obj) ;;
      virStoragePoolObjRemoveVol obj voldef
  end.

Definition virStorageVolDefFromVol (env : Env) (vol : virStorageVol)
  : M (virStorageVolDef * virStoragePoolObj * virStorageBackend) :=
  obj <- storagePoolObjFindByName (volh_pool vol) ;;
  if negb (virStoragePoolObjIsActive obj) then
    virReportError VIR_ERR_OPERATION_INVALID
      (fmt "storage pool '" (obj_name obj) "' is not active")
  else
  match virStorageVolDefFindByName obj (volh_name vol) with
  | None =>
      virReportError VIR_ERR_NO_STORAGE_VOL
        (fmt "no storage vol with matching name '" (volh_name vol) "'")
  | Some voldef =>
      backend <- backendForType env (def_type (def obj)) ;;
      ret (voldef, obj, backend)
  end.

Definition storageVolDelete (env : Env) (vol : virStorageVol) (flags : Z) : M unit :=
  r <- virStorageVolDefFromVol env vol ;;
  let '(voldef, obj, backend) := r in
  ensureACL env AclVolDelete (volh_conn vol) (def obj) (Some voldef) ;;
  if negb (vol_in_use voldef =? 0) then
    virReportError VIR_ERR_OPERATION_INVALID
      (fmt "volume '" (vol_name voldef) "' is still in use.")
  else
  if vol_building voldef then
    virReportError VIR_ERR_OPERATION_INVALID
      (fmt "volume '" (vol_name voldef) "' is still being allocated.")
  else
  _ <- storageVolDeleteInternal backend obj voldef flags true ;;
  ret tt.

(** Parse options of [virStorageVolDefParseString]; the header that
    numbers them is not among the sources. *)
Definition VIR_VOL_XML_PARSE_NO_CAPACITY : Z := 1.
Definition VIR_VOL_XML_PARSE_OPT_CAPACITY : Z := 2.

(** *** Volume creation and the build window

    [storageVolCreateXML] holds the pool lock up to the call of the
    backend's [buildVol], drops it for the call, and takes it again.
    [storageVolCreateXML_locked] is the first locked section: it either
    completes the call (no [buildVol]) or leaves a job to be built.
    [storageVolCreateXML_relocked] is the section that follows the
    build. *)

Record volBuildJob : Type := mkBuildJob {
  job_pool : string;                  (* obj *)
  job_backend : virStorageBackend;    (* backend *)
  job_vol : string;                   (* voldef, in the list of obj *)
  job_buildvoldef : virStorageVolDef; (* the shallow copy handed to buildVol *)
  job_flags : Z;
  job_newvol : virStorageVol
}.

Inductive volCreateStep : Type :=
| VolCreated (vol : virStorageVol)
| VolBuilding (job : volBuildJob).

(** From the [refreshVol] test to the end of [storageVolCreateXML]. *)
Definition storageVolCreateXML_finish (backend : virStorageBackend)
           (obj : virStoragePoolObj) (voldef : virStorageVolDef)
           (newvol : virStorageVol) : M virStorageVol :=
  r <- match refreshVol backend with
       | Some entry =>
           backend_ownvol_call (CallRefreshVol (obj_name obj) (vol_name voldef))
                               entry obj voldef 0 0
       | None => ret (0, obj, voldef)
       end ;;
  let '(status, obj, voldef) := r in
  if status <? 0 then
    (* the error of a cleanup that fails is the last one reported *)
    _ <- storageVolDeleteInternal backend obj voldef 0 false ;;
    fail (Callee "refreshVol")
  else
  (if negb (is_VIR_STORAGE_POOL_DISK (def_type (def obj)))
   then store (pool_allocate obj (target_allocation voldef))
   else ret tt) ;;
  ret newvol.

Definition storageVolCreateXML_locked (env : Env) (pool : virStoragePool)
           (xmldesc : string) (flags : Z) : M volCreateStep :=
  virCheckFlags VIR_STORAGE_VOL_CREATE_PREALLOC_METADATA flags ;;
  obj <- virStoragePoolObjFromStoragePool pool ;;
  if negb (virStoragePoolObjIsActive obj) then
    virReportError VIR_ERR_OPERATION_INVALID
      (fmt "storage pool '" (obj_name obj) "' is not active")
  else
  backend <- backendForType env (def_type (def obj)) ;;
  match virStorageVolDefParseString env (def obj) xmldesc
                                    VIR_VOL_XML_PARSE_OPT_CAPACITY with
  | None => fail (Callee "virStorageVolDefParseString")
  | Some voldef =>
      if (target_capacity voldef =? 0)
         && (match buildVol backend with None => true | Some _ => false end)
      then
        virReportError VIR_ERR_NO_SUPPORT
                       "volume capacity required for this storage pool"
      else
      ensureACL env AclVolCreateXML (pool_conn pool) (def obj) (Some voldef) ;;
      match virStorageVolDefFindByName obj (vol_name voldef) with
      | Some _ =>
          virReportError VIR_ERR_STORAGE_VOL_EXIST (fmt "'" (vol_name voldef) "'")
      | None =>
          match createVol backend with
          | None =>
              virReportError VIR_ERR_NO_SUPPORT
                             "storage pool does not support volume creation"
          | Some entry =>
              let voldef := set_vol_key voldef None in
              r <- backend_vol_call (CallCreateVol (obj_name obj) (vol_name voldef))
                                    entry obj voldef 0 0 ;;
              let '(status, obj, voldef) := r in
              if status <? 0 then fail (Callee "createVol") else
              let newvol := mkVolHandle (pool_conn pool) (obj_name obj)
                                        (vol_name voldef) (vol_key voldef) in
              obj <- virStoragePoolObjAddVol obj voldef ;;
              match buildVol backend with
              | Some _ =>
                  let buildvoldef := voldef in
                  obj <- virStoragePoolObjIncrAsyncjobs obj ;;
                  _ <- store_vol obj (set_vol_building voldef true) ;;
                  ret (VolBuilding (mkBuildJob (obj_name obj) backend (vol_name voldef)
                                               buildvoldef flags newvol))
              | None =>
                  vol <- storageVolCreateXML_finish backend obj voldef newvol ;;
                  ret (VolCreated vol)
              end
          end
      end
  end.

(** Taking the lock of a pool object again after the unlocked call. *)
Definition relock (pool : string) : M virStoragePoolObj :=
  l <- gets pools ;;
  match virStoragePoolObjFindByName l pool with
  | Some obj => ret obj
  | None => fail (ObjectGone pool)
  end.

Definition held_vol (obj : virStoragePoolObj) (name : string) : M virStorageVolDef :=
  match virStorageVolDefFindByName obj name with
  | Some v => ret v
  | None => fail (ObjectGone (obj_name obj))
  end.

Definition storageVolCreateXML_relocked (job : volBuildJob) (buildret : Z)
  : M virStorageVol :=
  obj <- relock (job_pool job) ;;
  obj <- update_vol obj (job_vol job) (fun v => set_vol_building v false) ;;
  obj <- virStoragePoolObjDecrAsyncjobs obj ;;
  voldef <- held_vol obj (job_vol job) ;;
  if buildret <? 0 then
    _ <- virStoragePoolObjRemoveVol obj voldef ;;
    fail (Callee "buildVol")
  else
    storageVolCreateXML_finish (job_backend job) obj voldef (job_newvol job).

(** The unlocked call [backend->buildVol(conn, obj, buildvoldef, flags)]. *)
Definition storageVolCreateXML_build (job : volBuildJob) : M Z :=
  obj <- relock (job_pool job) ;;
  match buildVol (job_backend job) with
  | Some entry =>
      log (CallBuildVol (job_pool job) (job_vol job)) ;;
      ret (entry obj (job_buildvoldef job) (job_flags job))
  | None => fail (NullEntryPoint "buildVol")
  end.

(** The whole call, when nothing else runs during the build. *)
Definition storageVolCreateXML (env : Env) (pool : virStoragePool)
           (xmldesc : string) (flags : Z) : M virStorageVol :=
  step <- storageVolCreateXML_locked env pool xmldesc flags ;;
  match step with
  | VolCreated vol => ret vol
  | VolBuilding job =>
      buildret <- storageVolCreateXML_build job ;;
      storageVolCreateXML_relocked job buildret
  end.

(** *** Cloning a volume *)

Record volCloneJob : Type := mkCloneJob {
  clone_pool : string;                 (* obj *)
  clone_srcpool : option string;       (* objsrc, when it is another pool *)
  clone_backend : virStorageBackend;
  clone_vol : string;                  (* voldef, in the list of obj *)
  clone_srcvol : string;               (* voldefsrc *)
  clone_shadowvol : virStorageVolDef;
  clone_flags : Z;
  clone_newvol : virStorageVol
}.

(** The pool object that holds [voldefsrc]. *)
Definition src_owner (obj : virStoragePoolObj) (objsrc : option virStoragePoolObj)
  : virStoragePoolObj :=
  match objsrc with Some o => o | None => obj end.

(** A write through [voldefsrc]: into [objsrc] when there is one, into
    [obj] otherwise. *)
Definition store_srcvol (obj : virStoragePoolObj) (objsrc : option virStoragePoolObj)
           (v : virStorageVolDef) : M (virStoragePoolObj * option virStoragePoolObj) :=
  match objsrc with
  | Some o => o' <- store_vol o v ;; ret (obj, Some o')
  | None => obj' <- store_vol obj v ;; ret (obj', None)
  end.

Definition storageVolCreateXMLFrom_locked (env : Env) (pool : virStoragePool)
           (xmldesc : string) (volsrc : virStorageVol) (flags : Z) : M volCloneJob :=
  virCheckFlags (Z.lor VIR_STORAGE_VOL_CREATE_PREALLOC_METADATA
                       VIR_STORAGE_VOL_CREATE_REFLINK) flags ;;
  l <- gets pools ;;
  let other := negb (String.eqb (pool_name pool) (volh_pool volsrc)) in
  match virStoragePoolObjFindByUUID l (pool_uuid pool) with
  | None =>
      virReportError VIR_ERR_NO_STORAGE_POOL
        (fmt "no storage pool with matching uuid '" (pool_uuid pool)
             (fmt "' (" (pool_name pool) ")"))
  | Some obj =>
      let objsrc := if other then virStoragePoolObjFindByName l (volh_pool volsrc)
                    else None in
      (* objsrc is locked by the lookup, then obj is locked again *)
      if match objsrc with Some o => name_is (obj_name obj) o | None => false end
      then fail (Deadlock (obj_name obj)) else
      if other && (match objsrc with None => true | Some _ => false end) then
        virReportError VIR_ERR_NO_STORAGE_POOL
          (fmt "no storage pool with matching name '" (volh_pool volsrc) "'")
      else
      if negb (virStoragePoolObjIsActive obj) then
        virReportError VIR_ERR_OPERATION_INVALID
          (fmt "storage pool '" (obj_name obj) "' is not active")
      else
      if match objsrc with
         | Some o => negb (virStoragePoolObjIsActive o)
         | None => false
         end
      then
        virReportError VIR_ERR_OPERATION_INVALID
          (fmt "storage pool '" (obj_name (src_owner obj objsrc)) "' is not active")
      else
      backend <- backendForType env (def_type (def obj)) ;;
      match virStorageVolDefFindByName (src_owner obj objsrc) (volh_name volsrc) with
      | None =>
          virReportError VIR_ERR_NO_STORAGE_VOL
            (fmt "no storage vol with matching name '" (volh_name volsrc) "'")
      | Some voldefsrc =>
      match virStorageVolDefParseString env (def obj) xmldesc
                                        VIR_VOL_XML_PARSE_NO_CAPACITY with
      | None => fail (Callee "virStorageVolDefParseString")
      | Some voldef =>
          ensureACL env AclVolCreateXMLFrom (pool_conn pool) (def obj) (Some voldef) ;;
          match virStorageVolDefFindByName obj (vol_name voldef) with
          | Some _ =>
              virReportError VIR_ERR_INTERNAL_ERROR
                (fmt "storage volume name '" (vol_name voldef) "' already in use.")
          | None =>
              let voldef :=
                if target_capacity voldef <? target_capacity voldefsrc
                then set_target_capacity voldef (target_capacity voldefsrc)
                else voldef in
              let voldef :=
                if negb (target_has_allocation voldef)
                then set_target_allocation voldef (target_capacity voldef)
                else voldef in
              match buildVolFrom backend with
              | None =>
                  virReportError VIR_ERR_NO_SUPPORT
                    "storage pool does not support volume creation from an existing volume"
              | Some _ =>
                  if vol_building voldefsrc then
                    virReportError VIR_ERR_OPERATION_INVALID
                      (fmt "volume '" (vol_name voldefsrc) "' is still being allocated.")
                  else
                  r <- match refreshVol backend with
                       | Some entry =>
                           r <- backend_vol_call
                                  (CallRefreshVol (obj_name obj) (vol_name voldefsrc))
                                  entry obj voldefsrc 0 0 ;;
                           let '(status, obj, voldefsrc) := r in
                           o <- store_srcvol obj objsrc voldefsrc ;;
                           ret (status, fst o, snd o, voldefsrc)
                       | None => ret (0, obj, objsrc, voldefsrc)
                       end ;;
                  let '(status, obj, objsrc, voldefsrc) := r in
                  if status <? 0 then fail (Callee "refreshVol") else
                  let voldef := set_vol_key voldef None in
                  match createVol backend with
                  | None => fail (NullEntryPoint "createVol")
                  | Some entry =>
                      r <- backend_vol_call
                             (CallCreateVol (obj_name obj) (vol_name voldef))
                             entry obj voldef 0 0 ;;
                      let '(status, obj, voldef) := r in
                      if status <? 0 then fail (Callee "createVol") else
                      let shadowvol := voldef in
                      let newvol := mkVolHandle (pool_conn pool) (obj_name obj)
                                                (vol_name voldef) (vol_key voldef) in
                      obj <- virStoragePoolObjAddVol obj voldef ;;
                      obj <- virStoragePoolObjIncrAsyncjobs obj ;;
                      obj <- store_vol obj (set_vol_building voldef true) ;;
                      o <- store_srcvol obj objsrc
                             (set_vol_in_use voldefsrc (wrap32 (vol_in_use voldefsrc + 1))) ;;
                      _ <- match snd o with
                           | Some objsrc => virStoragePoolObjIncrAsyncjobs objsrc
                           | None => ret (fst o)
                           end ;;
                      ret (mkCloneJob (obj_name obj) (option_map obj_name objsrc)
                                      backend (vol_name voldef) (vol_name voldefsrc)
                                      shadowvol flags newvol)
                  end
              end
          end
      end
      end
  end.

(** The unlocked call [backend->buildVolFrom(conn, obj, shadowvol,
    voldefsrc, flags)]. *)
Definition storageVolCreateXMLFrom_build (job : volCloneJob) : M Z :=
  obj <- relock (clone_pool job) ;;
  objsrc <- match clone_srcpool job with
            | Some n => o <- relock n ;; ret (Some o)
            | None => ret None
            end ;;
  voldefsrc <- held_vol (src_owner obj objsrc) (clone_srcvol job) ;;
  match buildVolFrom (clone_backend job) with
  | Some entry =>
      log (CallBuildVolFrom (clone_pool job) (clone_vol job) (clone_srcvol job)) ;;
      ret (entry obj (clone_shadowvol job) voldefsrc (clone_flags job))
  | None => fail (NullEntryPoint "buildVolFrom")
  end.

Definition storageVolCreateXMLFrom_relocked (job : volCloneJob) (buildret : Z)
  : M virStorageVol :=
  obj <- relock (clone_pool job) ;;
  objsrc <- match clone_srcpool job with
            | Some n => o <- relock n ;; ret (Some o)
            | None => ret None
            end ;;
  let release := fun v => set_vol_in_use v (wrap32 (vol_in_use v - 1)) in
  o <- match objsrc with
       | Some objsrc =>
           objsrc <- update_vol objsrc (clone_srcvol job) release ;;
           ret (obj, Some objsrc)
       | None =>
           obj <- update_vol obj (clone_srcvol job) release ;;
           ret (obj, None)
       end ;;
  let '(obj, objsrc) := o in
  obj <- update_vol obj (clone_vol job) (fun v => set_vol_building v false) ;;
  obj <- virStoragePoolObjDecrAsyncjobs obj ;;
  _ <- match objsrc with
       | Some objsrc => virStoragePoolObjDecrAsyncjobs objsrc
       | None => ret obj
       end ;;
  voldef <- held_vol obj (clone_vol job) ;;
  let backend := clone_backend job in
  r <- (if buildret <? 0 then ret (buildret, obj, voldef) else
        match refreshVol backend with
        | Some entry =>
            backend_ownvol_call (CallRefreshVol (obj_name obj) (vol_name voldef))
                                entry obj voldef 0 0
        | None => ret (0, obj, voldef)
        end) ;;
  let '(status, obj, voldef) := r in
  if status <? 0 then
    (* the error of a cleanup that fails is the last one reported *)
    _ <- storageVolDeleteInternal backend obj voldef 0 false ;;
    fail (Callee (if buildret <? 0 then "buildVolFrom" else "refreshVol"))
  else
  (if negb (is_VIR_STORAGE_POOL_DISK (def_type (def obj)))
   then store (pool_allocate obj (target_allocation voldef))
   else ret tt) ;;
  ret (clone_newvol job).

(** The whole call, when nothing else runs during the copy. *)
Definition storageVolCreateXMLFrom (env : Env) (pool : virStoragePool)
           (xmldesc : string) (volsrc : virStorageVol) (flags : Z) : M virStorageVol :=
  job <- storageVolCreateXMLFrom_locked env pool xmldesc volsrc flags ;;
  buildret <- storageVolCreateXMLFrom_build job ;;
  storageVolCreateXMLFrom_relocked job buildret.

(** *** Resize *)

Definition resize_flags_supported : Z :=
  Z.lor VIR_STORAGE_VOL_RESIZE_ALLOCATE
        (Z.lor VIR_STORAGE_VOL_RESIZE_DELTA VIR_STORAGE_VOL_RESIZE_SHRINK).

(** The absolute capacity that [storageVolResize] derives from its
    [capacity] argument and flags. *)
Definition storageVolResize_abs_capacity (voldef : virStorageVolDef)
           (capacity flags : Z) : Z :=
  if flag_set flags VIR_STORAGE_VOL_RESIZE_DELTA then
    if flag_set flags VIR_STORAGE_VOL_RESIZE_SHRINK
    then wrap64 (target_capacity voldef - MIN capacity (target_capacity voldef))
    else wrap64 (target_capacity voldef + capacity)
  else capacity.

Definition storageVolResize (env : Env) (vol : virStorageVol)
           (capacity flags : Z) : M unit :=
  virCheckFlags resize_flags_supported flags ;;
  r <- virStorageVolDefFromVol env vol ;;
  let '(voldef, obj, backend) := r in
  ensureACL env AclVolResize (volh_conn vol) (def obj) (Some voldef) ;;
  if negb (vol_in_use voldef =? 0) then
    virReportError VIR_ERR_OPERATION_INVALID
      (fmt "volume '" (vol_name voldef) "' is still in use.")
  else
  if vol_building voldef then
    virReportError VIR_ERR_OPERATION_INVALID
      (fmt "volume '" (vol_name voldef) "' is still being allocated.")
  else
  let abs_capacity := storageVolResize_abs_capacity voldef capacity flags in
  let flags := if flag_set flags VIR_STORAGE_VOL_RESIZE_DELTA
               then Z.land flags (Z.lnot VIR_STORAGE_VOL_RESIZE_DELTA)
               else flags in
  if abs_capacity <? target_allocation voldef then
    virReportError VIR_ERR_INVALID_ARG
                   "can't shrink capacity below existing allocation"
  else
  if (abs_capacity <? target_capacity voldef)
     && negb (flag_set flags VIR_STORAGE_VOL_RESIZE_SHRINK) then
    virReportError VIR_ERR_INVALID_ARG
      "Can't shrink capacity below current capacity unless shrink flag explicitly specified"
  else
  let delta := if flag_set flags VIR_STORAGE_VOL_RESIZE_ALLOCATE
               then wrap64 (abs_capacity - target_allocation voldef)
               else 0 in
  if def_available (def obj) <? delta then
    virReportError VIR_ERR_OPERATION_FAILED "Not enough space left in storage pool"
  else
  match resizeVol backend with
  | None =>
      virReportError VIR_ERR_NO_SUPPORT
        "storage pool does not support changing of volume capacity"
  | Some entry =>
      r <- backend_ownvol_call (CallResizeVol (obj_name obj) (vol_name voldef))
                               entry obj voldef abs_capacity flags ;;
      let '(status, obj, voldef) := r in
      if status <? 0 then fail (Callee "resizeVol") else
      let voldef := set_target_capacity voldef abs_capacity in
      obj <- store_vol obj voldef ;;
      if flag_set flags VIR_STORAGE_VOL_RESIZE_ALLOCATE then
        let voldef := set_target_allocation voldef abs_capacity in
        obj <- store_vol obj voldef ;;
        store (pool_allocate obj delta)
      else ret tt
  end.

(** *** Wipe *)

(** The first and the one-past-the-last wiping algorithm; the header that
    numbers them is not among the sources, the values are those of the
    public API. *)
Definition VIR_STORAGE_VOL_WIPE_ALG_ZERO : Z := 0.
Definition VIR_STORAGE_VOL_WIPE_ALG_LAST : Z := 10.

Definition storageVolWipePattern (env : Env) (vol : virStorageVol)
           (algorithm flags : Z) : M unit :=
  virCheckFlags 0 flags ;;
  if VIR_STORAGE_VOL_WIPE_ALG_LAST <=? algorithm then
    virReportError VIR_ERR_INVALID_ARG
      (fmt "wiping algorithm " (fmt_d algorithm) " not supported")
  else
  r <- virStorageVolDefFromVol env vol ;;
  let '(voldef, obj, backend) := r in
  ensureACL env AclVolWipePattern (volh_conn vol) (def obj) (Some voldef) ;;
  if negb (vol_in_use voldef =? 0) then
    virReportError VIR_ERR_OPERATION_INVALID
      (fmt "volume '" (vol_name voldef) "' is still in use.")
  else
  if vol_building voldef then
    virReportError VIR_ERR_OPERATION_INVALID
      (fmt "volume '" (vol_name voldef) "' is still being allocated.")
  else
  match wipeVol backend with
  | None =>
      virReportError VIR_ERR_NO_SUPPORT "storage pool doesn't support volume wiping"
  | Some entry =>
      r <- backend_ownvol_call (CallWipeVol (obj_name obj) (vol_name voldef))
                               entry obj voldef algorithm flags ;;
      let '(status, obj, voldef) := r in
      if status <? 0 then fail (Callee "wipeVol") else
      let '(updated, v) := virStorageBackendRefreshVolTargetUpdate env voldef in
      _ <- store_vol obj (backend_vol voldef v) ;;
      if updated =? -1 then fail (Callee "virStorageBackendRefreshVolTargetUpdate")
      else ret tt
  end.

Definition storageVolWipe (env : Env) (vol : virStorageVol) (flags : Z) : M unit :=
  storageVolWipePattern env vol VIR_STORAGE_VOL_WIPE_ALG_ZERO flags.

(** *** The refresh that follows an upload *)

Record virStorageVolStreamInfo : Set := mkStreamInfo {
  cb_pool_name : string;
  cb_vol_path : option string
}.

(** [virStorageVolPoolRefreshThread] returns nothing: every early exit is
    a plain return. *)
Definition virStorageVolPoolRefreshThread (env : Env)
           (cbdata : virStorageVolStreamInfo) : M unit :=
  if match cb_vol_path cbdata with
     | Some p => virStorageBackendPloopRestoreDesc env p <? 0
     | None => false
     end
  then ret tt else
  l <- gets pools ;;
  match virStoragePoolObjFindByName l (cb_pool_name cbdata) with
  | None => ret tt
  | Some obj =>
      if 0 <? virStoragePoolObjGetAsyncjobs obj then ret tt else
      match virStorageBackendForType env (def_type (def obj)) with
      | None => ret tt
      | Some backend =>
          obj <- virStoragePoolObjClearVols obj ;;
          r <- backend_pool_call (CallRefreshPool (obj_name obj))
                                 (refreshPool backend) obj 0 ;;
          let obj := snd r in
          virObjectEventStateQueue
            (virStoragePoolEventRefresh (obj_name obj) (def_uuid (def obj)))
      end
  end.

(** ** Runs of the driver

    The calls of the driver that change its state, and the runs they
    make: a call other than a volume build is one uninterrupted locked
    section; a volume build or clone is a locked section that leaves a
    pending job, and, after any number of other steps, the section that
    follows the unlocked backend call, whatever status that call
    returned. *)

Inductive driverCall : Type :=
| PoolCreateXML (conn : virConnectPtr) (xml : string) (flags : Z)
| PoolDefineXML (conn : virConnectPtr) (xml : string) (flags : Z)
| PoolUndefine (pool : virStoragePool)
| PoolCreate (pool : virStoragePool) (flags : Z)
| PoolBuild (pool : virStoragePool) (flags : Z)
| PoolDestroy (pool : virStoragePool)
| PoolDelete (pool : virStoragePool) (flags : Z)
| PoolRefresh (pool : virStoragePool) (flags : Z)
| VolDelete (vol : virStorageVol) (flags : Z)
| VolResize (vol : virStorageVol) (capacity flags : Z)
| VolWipePattern (vol : virStorageVol) (algorithm flags : Z)
| VolWipe (vol : virStorageVol) (flags : Z)
| UploadStreamClosed (cbdata : virStorageVolStreamInfo).

(** The state a call leaves. *)
Definition exec (env : Env) (c : driverCall) (s : virStorageDriverState)
  : virStorageDriverState :=
  match c with
  | PoolCreateXML conn xml flags => snd (storagePoolCreateXML env conn xml flags s)
  | PoolDefineXML conn xml flags => snd (storagePoolDefineXML env conn xml flags s)
  | PoolUndefine pool => snd (storagePoolUndefine env pool s)
  | PoolCreate pool flags => snd (storagePoolCreate env pool flags s)
  | PoolBuild pool flags => snd (storagePoolBuild env pool flags s)
  | PoolDestroy pool => snd (storagePoolDestroy env pool s)
  | PoolDelete pool flags => snd (storagePoolDelete env pool flags s)
  | PoolRefresh pool flags => snd (storagePoolRefresh env pool flags s)
  | VolDelete vol flags => snd (storageVolDelete env vol flags s)
  | VolResize vol capacity flags => snd (storageVolResize env vol capacity flags s)
  | VolWipePattern vol algorithm flags =>
      snd (storageVolWipePattern env vol algorithm flags s)
  | VolWipe vol flags => snd (storageVolWipe env vol flags s)
  | UploadStreamClosed cbdata => snd (virStorageVolPoolRefreshThread env cbdata s)
  end.

Inductive pendingJob : Type :=
| PendingBuild (job : volBuildJob)
| PendingClone (job : volCloneJob).

(** The pools whose job counter a pending job holds. *)
Definition job_pools (j : pendingJob) : list string :=
  match j with
  | PendingBuild job => [job_pool job]
  | PendingClone job =>
      clone_pool job :: match clone_srcpool job with
                        | Some n => [n]
                        | None => []
                        end
  end.

(** How many times the pending jobs hold the counter of the pool [n]. *)
Definition holds (n : string) (jobs : list pendingJob) : Z :=
  Z.of_nat (count_occ string_dec (List.concat (map job_pools jobs)) n).

Definition system : Type := virStorageDriverState * list pendingJob.

Inductive step (env : Env) : system -> system -> Prop :=
| step_call (c : driverCall) s jobs :
    step env (s, jobs) (exec env c s, jobs)
| step_create pool xmldesc flags s jobs vol s' :
    storageVolCreateXML_locked env pool xmldesc flags s = (inr (VolCreated vol), s') ->
    step env (s, jobs) (s', jobs)
| step_create_failed pool xmldesc flags s jobs e s' :
    storageVolCreateXML_locked env pool xmldesc flags s = (inl e, s') ->
    step env (s, jobs) (s', jobs)
| step_build_begin pool xmldesc flags s jobs job s' :
    storageVolCreateXML_locked env pool xmldesc flags s = (inr (VolBuilding job), s') ->
    step env (s, jobs) (s', PendingBuild job :: jobs)
| step_build_end job buildret s before after :
    step env (s, before ++ PendingBuild job :: after)
             (snd (storageVolCreateXML_relocked job buildret s), before ++ after)
| step_clone_failed pool xmldesc volsrc flags s jobs e s' :
    storageVolCreateXMLFrom_locked env pool xmldesc volsrc flags s = (inl e, s') ->
    step env (s, jobs) (s', jobs)
| step_clone_begin pool xmldesc volsrc flags s jobs job s' :
    storageVolCreateXMLFrom_locked env pool xmldesc volsrc flags s = (inr job, s') ->
    step env (s, jobs) (s', PendingClone job :: jobs)
| step_clone_end job buildret s before after :
    step env (s, before ++ PendingClone job :: after)
             (snd (storageVolCreateXMLFrom_relocked job buildret s), before ++ after).

(** A driver at rest: no pool has a job, and a pending definition keeps
    the name of the pool. *)
Definition pending_def_named (o : virStoragePoolObj) : Prop :=
  forall d, newDef o = Some d -> def_name d = obj_name o.

Definition at_rest (s : virStorageDriverState) : Prop :=
  Forall (fun o => asyncjobs o = 0 /\ pending_def_named o) (pools s).

Inductive reachable (env : Env) (s0 : virStorageDriverState) : system -> Prop :=
| reachable_start : reachable env s0 (s0, [])
| reachable_step x y : reachable env s0 x -> step env x y -> reachable env s0 y.

(** [s] ends with [suffix]. *)
Fixpoint ends_with (suffix s : string) : bool :=
  String.eqb s suffix
  || match s with
     | EmptyString => false
     | String _ rest => ends_with suffix rest
     end.

(** Modelled from the spec: the error taxonomy of section 7 has a class
    "invalid-state (operation forbidden by current state: already active,
    still active, still has async jobs, volume in-use/building)".  The
    class is one of causes.  The driver reports "already active", "still
    active", "not active", "in use" and "being allocated" with
    [VIR_ERR_OPERATION_INVALID], and "still has async jobs" with
    [VIR_ERR_INTERNAL_ERROR] and the text "pool '%s' has asynchronous jobs
    running."; the errors of both kinds are in the class. *)
Definition is_invalid_state (e : failure) : bool :=
  match e with
  | Reported VIR_ERR_OPERATION_INVALID _ => true
  | Reported VIR_ERR_INTERNAL_ERROR message =>
      ends_with "has asynchronous jobs running." message
  | _ => false
  end.

(** ** Views of the state and invariants used in the statements *)

(** The allocation and available counters of the pool [n]. *)
Definition pool_counters (n : string) (s : virStorageDriverState) : option (Z * Z) :=
  option_map (fun o => (def_allocation (def o), def_available (def o)))
             (virStoragePoolObjFindByName (pools s) n).

(** The counter of the pool [n], when it is registered. *)
Definition counter (n : string) (s : virStorageDriverState) : option Z :=
  option_map asyncjobs (virStoragePoolObjFindByName (pools s) n).

(** The flags that [storageVolResize] keeps after the absolute capacity is
    known. *)
Definition resize_flags_kept (flags : Z) : Z :=
  if flag_set flags VIR_STORAGE_VOL_RESIZE_DELTA
  then Z.land flags (Z.lnot VIR_STORAGE_VOL_RESIZE_DELTA)
  else flags.

(** The pool object after its volumes are cleared and listed again by
    [refreshPool]. *)
Definition refreshed (obj : virStoragePoolObj) (backend : virStorageBackend)
  : virStoragePoolObj :=
  let cleared := set_volumes obj [] in
  let '(_, d, vols) := refreshPool backend cleared 0 in
  set_volumes (set_def cleared (backend_def (def cleared) d)) vols.

(** [wp m Q s]: the run of [m] from [s] ends in a result and a state that
    satisfy [Q]. *)
Definition wp {A : Type} (m : M A)
           (Q : failure + A -> virStorageDriverState -> Prop)
           (s : virStorageDriverState) : Prop :=
  Q (fst (m s)) (snd (m s)).

(** The job counter of a pool object is the number of pending jobs that
    hold it, and a pending definition keeps the name of the pool. *)
Definition counted (jobs : list pendingJob) (o : virStoragePoolObj) : Prop :=
  asyncjobs o = holds (obj_name o) jobs /\ pending_def_named o.

(** A pool of the name [n] is in the registry. *)
Definition registered (n : string) (l : list virStoragePoolObj) : Prop :=
  existsb (name_is n) l = true.

(** Every pool is counted, and every pool that a pending job holds is
    registered. *)
Definition accounted (jobs : list pendingJob) (l : list virStoragePoolObj) : Prop :=
  Forall (counted jobs) l
  /\ forall n, In n (List.concat (map job_pools jobs)) -> registered n l.

(** The counter of each pool moves by the number of times the job that
    comes or goes holds it. *)
Definition shifted (jobs : list pendingJob) (delta : string -> Z)
           (o o' : virStoragePoolObj) : Prop :=
  obj_name o' = obj_name o
  /\ asyncjobs o' = asyncjobs o + delta (obj_name o)
  /\ pending_def_named o'.

(** The invariant of the runs: the registry is accounted, and a clone
    holds two pools only when they differ. *)
Definition consistent (x : system) : Prop :=
  accounted (snd x) (pools (fst x))
  /\ Forall (fun j => NoDup (job_pools j)) (snd x).

(** ** Sample configurations

    Concrete backends, collaborators and driver states on which the
    operations are run. *)

Module Sample.

Local Open Scope string_scope.

Definition keep_pool : poolEntryPoint := fun obj _ => (0, def obj, volumes obj).
Definition fail_pool : poolEntryPoint := fun obj _ => (-1, def obj, volumes obj).
Definition keep_vol : volEntryPoint := fun obj v _ _ => (0, def obj, v).

(** [createVol] assigns the key and the path of the new volume. *)
Definition create_vol : volEntryPoint :=
  fun obj v _ _ =>
    let p := fmt (def_target_path (def obj)) "/" (vol_name v) in
    (0, def obj,
     mkVolDef (vol_name v) (Some p) false 0 p (target_capacity v)
              (target_allocation v) (target_physical v) (target_has_allocation v)).

(** A directory-like backend: every entry point, all succeeding. *)
Definition dir_backend : virStorageBackend :=
  mkBackend (Some keep_pool) (Some keep_pool) (Some keep_pool) keep_pool
            (Some keep_pool) (Some create_vol)
            (Some (fun _ _ _ => 0)) (Some (fun _ _ _ _ => 0))
            (Some keep_vol) (Some keep_vol) (Some keep_vol) (Some keep_vol).

(** The same with a build that fails. *)
Definition failing_build_backend : virStorageBackend :=
  mkBackend (Some keep_pool) (Some keep_pool) (Some keep_pool) keep_pool
            (Some keep_pool) (Some create_vol)
            (Some (fun _ _ _ => -1)) (Some (fun _ _ _ _ => -1))
            (Some keep_vol) (Some keep_vol) (Some keep_vol) (Some keep_vol).

(** A backend without [buildVol]. *)
Definition nobuild_backend : virStorageBackend :=
  mkBackend None (Some keep_pool) (Some keep_pool) keep_pool
            None (Some create_vol) None None
            (Some keep_vol) (Some keep_vol) (Some keep_vol) (Some keep_vol).

(** A backend whose pool refresh fails. *)
Definition norefresh_backend : virStorageBackend :=
  mkBackend (Some keep_pool) (Some keep_pool) (Some keep_pool) fail_pool
            (Some keep_pool) (Some create_vol) None None
            (Some keep_vol) (Some keep_vol) (Some keep_vol) (Some keep_vol).

(** The backend table: the disk type resizes volumes, the logical type
    cannot refresh, the file-system type has no build entry point. *)
Definition backends (t : virStoragePoolType) : option virStorageBackend :=
  match t with
  | VIR_STORAGE_POOL_DIR => Some dir_backend
  | VIR_STORAGE_POOL_DISK => Some dir_backend
  | VIR_STORAGE_POOL_FS => Some nobuild_backend
  | VIR_STORAGE_POOL_LOGICAL => Some norefresh_backend
  | VIR_STORAGE_POOL_NETFS => Some failing_build_backend
  | _ => None
  end.

Definition MiB : Z := 1048576.

(** The codec: the document is the name of the pool or volume; pools are
    of the directory type unless named otherwise. *)
Definition parse_pool (xml : string) : option virStoragePoolDef :=
  if String.eqb xml "" then None
  else Some (mkPoolDef xml (String.append "uuid-" xml)
               (if String.eqb xml "lv" then VIR_STORAGE_POOL_LOGICAL
                else VIR_STORAGE_POOL_DIR)
               (String.append "/dev/" xml) (String.append "/data/" xml)
               (100 * MiB) 0 (100 * MiB)).

Definition parse_vol (d : virStoragePoolDef) (xml : string) (opts : Z)
  : option virStorageVolDef :=
  if String.eqb xml "" then None
  else Some (mkVolDef xml (Some "user-key") false 0 ""
               (if String.eqb xml "nocap" then 0 else 10 * MiB)
               (if String.eqb xml "nocap" then 0 else 10 * MiB) 0 true).

Definition env : Env :=
  mkEnv parse_pool parse_vol backends
        (fun _ _ _ _ => true)
        (fun dir name ext => Some (String.append dir (String.append "/" (String.append name ext))))
        (fun _ _ => true) (fun _ _ => true)
        (fun a b => String.eqb (def_source a) (def_source b))
        (fun _ => 0)
        (fun v => (0, v)).

Definition pool_def (name : string) (t : virStoragePoolType) : virStoragePoolDef :=
  mkPoolDef name (String.append "uuid-" name) t (String.append "/dev/" name)
            (String.append "/data/" name) (100 * MiB) (10 * MiB) (90 * MiB).

Definition v1 : virStorageVolDef :=
  mkVolDef "v1" (Some "/data/p1/v1") false 0 "/data/p1/v1"
           (10 * MiB) (10 * MiB) (10 * MiB) true.

(** An active persistent pool with one volume. *)
Definition pool_obj (name : string) (t : virStoragePoolType) (jobs : Z)
  : virStoragePoolObj :=
  mkPoolObj (pool_def name t) None (Some (fmt "/etc/" name ".xml"))
            (Some (fmt "/etc/autostart/" name ".xml")) true false jobs [v1].

Definition handle (name : string) : virStoragePool :=
  mkPoolHandle 0%nat name (String.append "uuid-" name).

Definition vol_handle (pool name : string) : virStorageVol :=
  mkVolHandle 0%nat pool name None.

(** A volume that is allocated only in part. *)
Definition thin : virStorageVolDef :=
  mkVolDef "thin" (Some "/data/p1/thin") false 0 "/data/p1/thin"
           (10 * MiB) (2 * MiB) (2 * MiB) true.

Definition pool_with (vols : list virStorageVolDef) : virStoragePoolObj :=
  set_volumes (pool_obj "p1" VIR_STORAGE_POOL_DIR 0) vols.

(** A driver with one active pool whose state file is in place. *)
Definition driver_with (obj : virStoragePoolObj) : virStorageDriverState :=
  mkDriver [obj] "/etc" "/etc/autostart" "/run"
           [] [fmt "/run/" (obj_name obj) ".xml"] [].

Definition empty_driver : virStorageDriverState :=
  mkDriver [] "/etc" "/etc/autostart" "/run" [] [] [].

Definition busy : virStorageDriverState :=
  driver_with (pool_obj "p1" VIR_STORAGE_POOL_DIR 1).
Definition idle : virStorageDriverState :=
  driver_with (pool_obj "p1" VIR_STORAGE_POOL_DIR 0).
Definition disk : virStorageDriverState :=
  driver_with (pool_obj "p1" VIR_STORAGE_POOL_DISK 0).
Definition logical : virStorageDriverState :=
  driver_with (pool_obj "p1" VIR_STORAGE_POOL_LOGICAL 0).

End Sample.

(** ** Lookups, queries and the startup path

    The entry points below read the registry, toggle the autostart link or
    run when the daemon starts.  Their access-control checks and the few
    collaborators they add are gathered in [Queries]. *)

Inductive aclQuery : Set :=
| AclPoolLookupByUUID | AclPoolLookupByName | AclPoolLookupByVolume
| AclPoolIsActive | AclPoolIsPersistent | AclPoolGetInfo
| AclPoolGetAutostart | AclPoolSetAutostart
| AclVolLookupByName | AclVolLookupByKey | AclVolLookupByPath
| AclVolGetPath.

Record Queries : Type := mkQueries {
  QueryACL : aclQuery -> virConnectPtr -> virStoragePoolDef -> option virStorageVolDef -> bool;
  (* backend->checkPool: the status and the value left in [*active] *)
  checkPool : virStorageBackend -> option (virStoragePoolObj -> Z * bool);
  (* virFileMakePath(path) >= 0 *)
  virFileMakePath : string -> bool;
  (* unlink(path) < 0 with an errno other than ENOENT and ENOTDIR *)
  unlink_refused : string -> bool;
  virFileSanitizePath : string -> string;
  virStorageBackendStablePath : virStoragePoolObj -> string -> option string
}.

Definition queryACL (q : Queries) (c : aclQuery) (conn : virConnectPtr)
           (d : virStoragePoolDef) (v : option virStorageVolDef) : M unit :=
  if QueryACL q c conn d v then ret tt else fail (Callee "access control").

(** [virGetStoragePool(conn, def->name, def->uuid, NULL, NULL)]. *)
Definition virGetStoragePool (conn : virConnectPtr) (d : virStoragePoolDef)
  : virStoragePool :=
  mkPoolHandle conn (def_name d) (def_uuid d).

(** [virGetStorageVol(conn, def->name, voldef->name, voldef->key, NULL, NULL)]. *)
Definition virGetStorageVol (conn : virConnectPtr) (d : virStoragePoolDef)
           (v : virStorageVolDef) : virStorageVol :=
  mkVolHandle conn (def_name d) (vol_name v) (vol_key v).

Definition storagePoolLookupByUUID (q : Queries) (conn : virConnectPtr)
           (uuid : string) : M virStoragePool :=
  obj <- storagePoolObjFindByUUID uuid None ;;
  queryACL q AclPoolLookupByUUID conn (def obj) None ;;
  ret (virGetStoragePool conn (def obj)).

Definition storagePoolLookupByName (q : Queries) (conn : virConnectPtr)
           (name : string) : M virStoragePool :=
  obj <- storagePoolObjFindByName name ;;
  queryACL q AclPoolLookupByName conn (def obj) None ;;
  ret (virGetStoragePool conn (def obj)).

Definition storagePoolLookupByVolume (q : Queries) (vol : virStorageVol)
  : M virStoragePool :=
  obj <- storagePoolObjFindByName (volh_pool vol) ;;
  queryACL q AclPoolLookupByVolume (volh_conn vol) (def obj) None ;;
  ret (virGetStoragePool (volh_conn vol) (def obj)).

(** The [int] that C makes of a [bool]. *)
Definition Z_of_bool (b : bool) : Z := if b then 1 else 0.

Definition storagePoolIsActive (q : Queries) (pool : virStoragePool) : M Z :=
  obj <- virStoragePoolObjFromStoragePool pool ;;
  queryACL q AclPoolIsActive (pool_conn pool) (def obj) None ;;
  ret (Z_of_bool (virStoragePoolObjIsActive obj)).

Definition storagePoolIsPersistent (q : Queries) (pool : virStoragePool) : M Z :=
  obj <- virStoragePoolObjFromStoragePool pool ;;
  queryACL q AclPoolIsPersistent (pool_conn pool) (def obj) None ;;
  ret (match virStoragePoolObjGetConfigFile obj with Some _ => 1 | None => 0 end).

Inductive virStoragePoolState : Set :=
| VIR_STORAGE_POOL_INACTIVE
| VIR_STORAGE_POOL_RUNNING.

Record virStoragePoolInfo : Set := mkPoolInfo {
  info_state : virStoragePoolState;
  info_capacity : Z;
  info_allocation : Z;
  info_available : Z
}.

Definition storagePoolGetInfo (env : Env) (q : Queries) (pool : virStoragePool)
  : M virStoragePoolInfo :=
  obj <- virStoragePoolObjFromStoragePool pool ;;
  queryACL q AclPoolGetInfo (pool_conn pool) (def obj) None ;;
  _ <- backendForType env (def_type (def obj)) ;;
  ret (mkPoolInfo (if virStoragePoolObjIsActive obj
                   then VIR_STORAGE_POOL_RUNNING else VIR_STORAGE_POOL_INACTIVE)
                  (def_capacity (def obj)) (def_allocation (def obj))
                  (def_available (def obj))).

(** *** The autostart flag *)

Definition virStoragePoolObjIsAutostart := autostart.

Definition set_autostart (o : virStoragePoolObj) (b : bool) : virStoragePoolObj :=
  mkPoolObj (def o) (newDef o) (configFile o) (autostartLink o) (active o) b
            (asyncjobs o) (volumes o).

(** Modelled from the spec: the autostart flag of a Pool Object (section
    3) is a field that [virStoragePoolObjSetAutostart], whose code is in
    another file, assigns. *)
Definition virStoragePoolObjSetAutostart (obj : virStoragePoolObj) (b : bool)
  : M virStoragePoolObj :=
  store (set_autostart obj b) ;; ret (set_autostart obj b).

Definition storagePoolGetAutostart (q : Queries) (pool : virStoragePool) : M Z :=
  obj <- virStoragePoolObjFromStoragePool pool ;;
  queryACL q AclPoolGetAutostart (pool_conn pool) (def obj) None ;;
  ret (Z_of_bool (virStoragePoolObjIsAutostart obj)).

(** [symlink(target, linkpath)]: it fails when [linkpath] is NULL or names
    a file that exists. *)
Definition symlink (target : string) (linkpath : option string) : M unit :=
  match linkpath with
  | None => fail (Callee "symlink")
  | Some p =>
      there <- gets (file_exists p) ;;
      if there then fail (Callee "symlink") else write_file p
  end.

(** [virFileMakePath(path)]: when it succeeds the directory is there. *)
Definition makePath (q : Queries) (path : string) : M unit :=
  if virFileMakePath q path then write_file path
  else fail (Callee "virFileMakePath").

Definition storagePoolSetAutostart (q : Queries) (pool : virStoragePool)
           (autostart : Z) : M unit :=
  obj <- storagePoolObjFindByUUID (pool_uuid pool) (Some (pool_name pool)) ;;
  queryACL q AclPoolSetAutostart (pool_conn pool) (def obj) None ;;
  match virStoragePoolObjGetConfigFile obj with
  | None => virReportError VIR_ERR_INTERNAL_ERROR "pool has no config file"
  | Some configFile =>
      let autostartLink := virStoragePoolObjGetAutostartLink obj in
      let new_autostart := negb (autostart =? 0) in
      let cur_autostart := virStoragePoolObjIsAutostart obj in
      if negb (Bool.eqb cur_autostart new_autostart) then
        (if new_autostart then
           ad <- gets autostartDir ;;
           makePath q ad ;;
           symlink configFile autostartLink
         else
           match autostartLink with
           | Some link =>
               (* ENOENT and ENOTDIR are not errors: the link is absent *)
               if unlink_refused q link then fail (Callee "unlink")
               else unlink link
           | None => ret tt
           end) ;;
        _ <- virStoragePoolObjSetAutostart obj new_autostart ;;
        ret tt
      else ret tt
  end.

(** *** Volume lookups *)

Definition storageVolLookupByName (q : Queries) (pool : virStoragePool)
           (name : string) : M virStorageVol :=
  obj <- virStoragePoolObjFromStoragePool pool ;;
  if negb (virStoragePoolObjIsActive obj) then
    virReportError VIR_ERR_OPERATION_INVALID
      (fmt "storage pool '" (obj_name obj) "' is not active")
  else
  match virStorageVolDefFindByName obj name with
  | None =>
      virReportError VIR_ERR_NO_STORAGE_VOL
        (fmt "no storage vol with matching name '" name "'")
  | Some voldef =>
      queryACL q AclVolLookupByName (pool_conn pool) (def obj) (Some voldef) ;;
      ret (virGetStorageVol (pool_conn pool) (def obj) voldef)
  end.

Definition key_is (key : string) (v : virStorageVolDef) : bool :=
  match vol_key v with
  | Some k => String.eqb k key
  | None => false
  end.

(** Modelled from the spec: the key of a volume is its canonical
    identifier (section 3); [virStorageVolDefFindByKey], whose code is in
    another file, finds the volume of a pool that has the key. *)
Definition virStorageVolDefFindByKey (obj : virStoragePoolObj) (key : string)
  : option virStorageVolDef := find (key_is key) (volumes obj).

(** The loop of [storageVolLookupByKey] from a position of the registry
    on: [inr None] when it ends without a volume. *)
Fixpoint storageVolLookupByKey_scan (q : Queries) (conn : virConnectPtr)
         (key : string) (l : list virStoragePoolObj)
  : failure + option virStorageVol :=
  match l with
  | [] => inr None
  | obj :: rest =>
      if virStoragePoolObjIsActive obj then
        match virStorageVolDefFindByKey obj key with
        | Some voldef =>
            if QueryACL q AclVolLookupByKey conn (def obj) (Some voldef)
            then inr (Some (virGetStorageVol conn (def obj) voldef))
            else inl (Callee "access control")
        | None => storageVolLookupByKey_scan q conn key rest
        end
      else storageVolLookupByKey_scan q conn key rest
  end.

Definition storageVolLookupByKey (q : Queries) (conn : virConnectPtr)
           (key : string) : M virStorageVol :=
  l <- gets pools ;;
  match storageVolLookupByKey_scan q conn key l with
  | inl e => fail e
  | inr (Some vol) => ret vol
  | inr None =>
      virReportError VIR_ERR_NO_STORAGE_VOL
        (String.append "no storage vol with matching key " key)
  end.

(** The pool types whose volumes are looked up by a stable path. *)
Definition uses_stable_path (t : virStoragePoolType) : bool :=
  match t with
  | VIR_STORAGE_POOL_DIR | VIR_STORAGE_POOL_FS | VIR_STORAGE_POOL_NETFS
  | VIR_STORAGE_POOL_LOGICAL | VIR_STORAGE_POOL_DISK | VIR_STORAGE_POOL_ISCSI
  | VIR_STORAGE_POOL_SCSI | VIR_STORAGE_POOL_MPATH | VIR_STORAGE_POOL_VSTORAGE => true
  | VIR_STORAGE_POOL_GLUSTER | VIR_STORAGE_POOL_RBD | VIR_STORAGE_POOL_SHEEPDOG
  | VIR_STORAGE_POOL_ZFS => false
  end.

Definition path_is (path : string) (v : virStorageVolDef) : bool :=
  String.eqb (target_path v) path.

(** Modelled from the spec: a volume is matched by its stable path
    (glossary); [virStorageVolDefFindByPath], whose code is in another
    file, finds the volume of a pool that has the path. *)
Definition virStorageVolDefFindByPath (obj : virStoragePoolObj) (path : string)
  : option virStorageVolDef := find (path_is path) (volumes obj).

Fixpoint storageVolLookupByPath_scan (q : Queries) (conn : virConnectPtr)
         (path cleanpath : string) (l : list virStoragePoolObj)
  : failure + option virStorageVol :=
  match l with
  | [] => inr None
  | obj :: rest =>
      if negb (virStoragePoolObjIsActive obj)
      then storageVolLookupByPath_scan q conn path cleanpath rest
      else
        match (if uses_stable_path (def_type (def obj))
               then virStorageBackendStablePath q obj cleanpath
               else Some path) with
        | None => storageVolLookupByPath_scan q conn path cleanpath rest
        | Some stable_path =>
            match virStorageVolDefFindByPath obj stable_path with
            | Some voldef =>
                if QueryACL q AclVolLookupByPath conn (def obj) (Some voldef)
                then inr (Some (virGetStorageVol conn (def obj) voldef))
                else inl (Callee "access control")
            | None => storageVolLookupByPath_scan q conn path cleanpath rest
            end
        end
  end.

Definition storageVolLookupByPath (q : Queries) (conn : virConnectPtr)
           (path : string) : M virStorageVol :=
  let cleanpath := virFileSanitizePath q path in
  l <- gets pools ;;
  match storageVolLookupByPath_scan q conn path cleanpath l with
  | inl e => fail e
  | inr (Some vol) => ret vol
  | inr None =>
      if String.eqb path cleanpath then
        virReportError VIR_ERR_NO_STORAGE_VOL
          (fmt "no storage vol with matching path '" path "'")
      else
        virReportError VIR_ERR_NO_STORAGE_VOL
          (fmt "no storage vol with matching path '" path
               (fmt "' (" cleanpath ")"))
  end.

(** The loop of [storagePoolLookupByTargetPath]. *)
Fixpoint storagePoolLookupByTargetPath_scan (conn : virConnectPtr) (path : string)
         (l : list virStoragePoolObj) : option virStoragePool :=
  match l with
  | [] => None
  | obj :: rest =>
      if negb (virStoragePoolObjIsActive obj)
      then storagePoolLookupByTargetPath_scan conn path rest
      else if String.eqb path (def_target_path (def obj))
           then Some (virGetStoragePool conn (def obj))
           else storagePoolLookupByTargetPath_scan conn path rest
  end.

Definition storagePoolLookupByTargetPath (conn : virConnectPtr) (path : string)
  : M virStoragePool :=
  l <- gets pools ;;
  match storagePoolLookupByTargetPath_scan conn path l with
  | Some pool => ret pool
  | None =>
      virReportError VIR_ERR_NO_STORAGE_VOL
        (fmt "no storage pool with matching target path '" path "'")
  end.

(** [virStorageVolDefFromVol(vol, &obj, NULL)]: no backend is asked for. *)
Definition virStorageVolDefFromVol_nobackend (vol : virStorageVol)
  : M (virStorageVolDef * virStoragePoolObj) :=
  obj <- storagePoolObjFindByName (volh_pool vol) ;;
  if negb (virStoragePoolObjIsActive obj) then
    virReportError VIR_ERR_OPERATION_INVALID
      (fmt "storage pool '" (obj_name obj) "' is not active")
  else
  match virStorageVolDefFindByName obj (volh_name vol) with
  | None =>
      virReportError VIR_ERR_NO_STORAGE_VOL
        (fmt "no storage vol with matching name '" (volh_name vol) "'")
  | Some voldef => ret (voldef, obj)
  end.

Definition storageVolGetPath (q : Queries) (vol : virStorageVol) : M string :=
  r <- virStorageVolDefFromVol_nobackend vol ;;
  let '(voldef, obj) := r in
  queryACL q AclVolGetPath (volh_conn vol) (def obj) (Some voldef) ;;
  ret (target_path voldef).

(** *** Autostart at startup *)

(** One turn of the loop of [storageDriverAutostart]; a pool that cannot
    be started is reported and the loop goes on. *)
Definition storageDriverAutostart_pool (env : Env) (obj : virStoragePoolObj)
  : M unit :=
  match virStorageBackendForType env (def_type (def obj)) with
  | None => ret tt
  | Some backend =>
      if virStoragePoolObjIsAutostart obj && negb (virStoragePoolObjIsActive obj) then
        r <- match startPool backend with
             | Some entry => backend_pool_call (CallStartPool (obj_name obj)) entry obj 0
             | None => ret (0, obj)
             end ;;
        if fst r <? 0 then ret tt else
        obj <- virStoragePoolObjClearVols (snd r) ;;
        sd <- gets stateDir ;;
        let stateFile := virFileBuildPath env sd (obj_name obj) ".xml" in
        r <- save_state_and_refresh env backend stateFile obj ;;
        match fst r with
        | Some _ =>
            unlink_if stateFile ;;
            _ <- stop_if_supported backend (snd r) ;;
            ret tt
        | None =>
            _ <- virStoragePoolObjSetActive (snd r) true ;;
            ret tt
        end
      else ret tt
  end.

(** The loop from index [i] on; the number of pools does not change while
    it runs, so [count - i] turns are left. *)
Fixpoint storageDriverAutostart_from (env : Env) (i left : nat) : M unit :=
  match left with
  | O => ret tt
  | S left' =>
      l <- gets pools ;;
      match nth_error l i with
      | None => ret tt
      | Some obj =>
          storageDriverAutostart_pool env obj ;;
          storageDriverAutostart_from env (S i) left'
      end
  end.

Definition storageDriverAutostart (env : Env) : M unit :=
  l <- gets pools ;;
  storageDriverAutostart_from env 0 (List.length l).

(** *** The state of a pool at startup *)

(** [storagePoolUpdateState]: the pool is probed with [checkPool], which
    only reads the pool and is not recorded in the trace; a pool found
    active is refreshed; a pool that is not active in the end loses its
    state file and, when it is transient, its place in the registry. *)
Definition storagePoolUpdateState (env : Env) (q : Queries) (obj : virStoragePoolObj)
  : M unit :=
  sd <- gets stateDir ;;
  match virFileBuildPath env sd (obj_name obj) ".xml" with
  | None => ret tt
  | Some stateFile =>
      match virStorageBackendForType env (def_type (def obj)) with
      | None => unlink stateFile
      | Some backend =>
          let active :=
            match checkPool q backend with
            | Some entry => if fst (entry obj) <? 0 then false else snd (entry obj)
            | None => false
            end in
          r <- (if active then
                  obj <- virStoragePoolObjClearVols obj ;;
                  r <- backend_pool_call (CallRefreshPool (obj_name obj))
                                         (refreshPool backend) obj 0 ;;
                  if fst r <? 0 then
                    obj <- stop_if_supported backend (snd r) ;;
                    ret (false, obj)
                  else ret (true, snd r)
                else ret (false, obj)) ;;
          let '(active, obj) := r in
          obj <- virStoragePoolObjSetActive obj active ;;
          (if negb (virStoragePoolObjIsActive obj)
           then virStoragePoolUpdateInactive obj else ret tt) ;;
          if negb active then unlink stateFile else ret tt
      end
  end.

(** ** Views for the further properties *)

(** The volume a call works on, for the calls that take a volume. *)
Definition on_volume (c : driverCall) : option virStorageVol :=
  match c with
  | VolDelete vol _ => Some vol
  | VolResize vol _ _ => Some vol
  | VolWipePattern vol _ _ => Some vol
  | VolWipe vol _ => Some vol
  | _ => None
  end.

(** A call that fails and leaves the state as it was. *)
Definition blocked {A : Type} (m : M A) (s : virStorageDriverState) : Prop :=
  exists e, m s = (inl e, s).

(** The failure of a call, if any, and the state it leaves. *)
Definition outcome {A : Type} (m : M A) (s : virStorageDriverState)
  : option failure * virStorageDriverState :=
  (match fst (m s) with inl e => Some e | inr _ => None end, snd (m s)).

Definition run (env : Env) (c : driverCall) (s : virStorageDriverState)
  : option failure * virStorageDriverState :=
  match c with
  | PoolCreateXML conn xml flags => outcome (storagePoolCreateXML env conn xml flags) s
  | PoolDefineXML conn xml flags => outcome (storagePoolDefineXML env conn xml flags) s
  | PoolUndefine pool => outcome (storagePoolUndefine env pool) s
  | PoolCreate pool flags => outcome (storagePoolCreate env pool flags) s
  | PoolBuild pool flags => outcome (storagePoolBuild env pool flags) s
  | PoolDestroy pool => outcome (storagePoolDestroy env pool) s
  | PoolDelete pool flags => outcome (storagePoolDelete env pool flags) s
  | PoolRefresh pool flags => outcome (storagePoolRefresh env pool flags) s
  | VolDelete vol flags => outcome (storageVolDelete env vol flags) s
  | VolResize vol capacity flags => outcome (storageVolResize env vol capacity flags) s
  | VolWipePattern vol algorithm flags =>
      outcome (storageVolWipePattern env vol algorithm flags) s
  | VolWipe vol flags => outcome (storageVolWipe env vol flags) s
  | UploadStreamClosed cbdata => outcome (virStorageVolPoolRefreshThread env cbdata) s
  end.

(** The failures raised by a test of the driver itself or by the
    access-control check. *)
Definition refusal (e : failure) : bool :=
  match e with
  | Reported _ _ => true
  | Callee who => String.eqb who "access control"
  | _ => false
  end.

Definition is_PoolDelete (c : driverCall) : bool :=
  match c with PoolDelete _ _ => true | _ => false end.

(** What [storageDriverAutostart] may do to a pool object: the name, the
    UUID, the autostart flag and the config file stay, and an object that
    is not marked autostart or is active already stays as it is. *)
Definition autostart_kept (o o' : virStoragePoolObj) : Prop :=
  obj_name o' = obj_name o
  /\ def_uuid (def o') = def_uuid (def o)
  /\ autostart o' = autostart o
  /\ configFile o' = configFile o
  /\ (autostart o && negb (active o) = false -> o' = o)
  /\ (active o' = false -> active o = false).

(** ** Further sample configurations *)

Module Cases.

Local Open Scope string_scope.

(** Every query is permitted; [checkPool] finds every pool active; paths
    are clean and stable as they are. *)
Definition queries : Queries :=
  mkQueries (fun _ _ _ _ => true)
            (fun _ => Some (fun _ => (0, true)))
            (fun _ => true)
            (fun _ => false)
            (fun p => p)
            (fun _ p => Some p).

(** The same, on a file system that refuses to remove a link. *)
Definition readonly : Queries :=
  mkQueries (fun _ _ _ _ => true)
            (fun _ => Some (fun _ => (0, true)))
            (fun _ => true)
            (fun _ => true)
            (fun p => p)
            (fun _ p => Some p).

(** A backend whose [stopPool] fails. *)
Definition stuck_backend : virStorageBackend :=
  mkBackend (Some Sample.keep_pool) (Some Sample.keep_pool) (Some Sample.fail_pool)
            Sample.keep_pool (Some Sample.keep_pool) (Some Sample.create_vol)
            None None
            (Some Sample.keep_vol) (Some Sample.keep_vol) (Some Sample.keep_vol)
            (Some Sample.keep_vol).

(** A backend without [deletePool]. *)
Definition nodelete_backend : virStorageBackend :=
  mkBackend (Some Sample.keep_pool) (Some Sample.keep_pool) (Some Sample.keep_pool)
            Sample.keep_pool None (Some Sample.create_vol)
            None None
            (Some Sample.keep_vol) (Some Sample.keep_vol) (Some Sample.keep_vol)
            (Some Sample.keep_vol).

(** A backend whose [refreshVol] fails and that cannot delete a volume. *)
Definition orphan_backend : virStorageBackend :=
  mkBackend (Some Sample.keep_pool) (Some Sample.keep_pool) (Some Sample.keep_pool)
            Sample.keep_pool (Some Sample.keep_pool) (Some Sample.create_vol)
            None (Some (fun _ _ _ _ => 0))
            (Some (fun obj v _ _ => (-1, def obj, v))) None
            (Some Sample.keep_vol) (Some Sample.keep_vol).

(** A backend whose copy of a volume fails and that cannot delete a
    volume. *)
Definition nocopy_backend : virStorageBackend :=
  mkBackend (Some Sample.keep_pool) (Some Sample.keep_pool) (Some Sample.keep_pool)
            Sample.keep_pool (Some Sample.keep_pool) (Some Sample.create_vol)
            None (Some (fun _ _ _ _ => -1))
            (Some Sample.keep_vol) None
            (Some Sample.keep_vol) (Some Sample.keep_vol).

Definition backends (t : virStoragePoolType) : option virStorageBackend :=
  match t with
  | VIR_STORAGE_POOL_RBD => Some stuck_backend
  | VIR_STORAGE_POOL_ZFS => Some nocopy_backend
  | VIR_STORAGE_POOL_GLUSTER => Some nodelete_backend
  | VIR_STORAGE_POOL_SHEEPDOG => Some orphan_backend
  | _ => Sample.backends t
  end.

Definition env : Env :=
  mkEnv Sample.parse_pool Sample.parse_vol backends
        (fun _ _ _ _ => true)
        (fun dir name ext => Some (String.append dir (String.append "/" (String.append name ext))))
        (fun _ _ => true) (fun _ _ => true)
        (fun a b => String.eqb (def_source a) (def_source b))
        (fun _ => 0)
        (fun v => (0, v)).

(** A driver with one pool of the type [t] that is defined and not
    running; its config file is in place. *)
Definition stopped (t : virStoragePoolType) : virStorageDriverState :=
  mkDriver [set_active (Sample.pool_obj "p1" t 0) false]
           "/etc" "/etc/autostart" "/run" [] ["/etc/p1.xml"] [].

(** A driver with one running pool of the type [t]. *)
Definition running (t : virStoragePoolType) : virStorageDriverState :=
  Sample.driver_with (Sample.pool_obj "p1" t 0).

(** A driver with one running pool that has no config file. *)
Definition transient : virStorageDriverState :=
  Sample.driver_with
    (set_configFile (Sample.pool_obj "p1" VIR_STORAGE_POOL_DIR 0) None None).

(** A driver whose stopped pool is marked for autostart, beside a
    running pool. *)
Definition at_boot : virStorageDriverState :=
  mkDriver [set_autostart (set_active (Sample.pool_obj "p1" VIR_STORAGE_POOL_DIR 0) false)
                          true;
            Sample.pool_obj "p2" VIR_STORAGE_POOL_DIR 0]
           "/etc" "/etc/autostart" "/run" []
           ["/etc/p1.xml"; "/etc/autostart/p1.xml"; "/run/p2.xml"] [].

(** A driver whose pool is not marked for autostart although a file is in
    the place of its autostart link; the autostart directory itself is not
    recorded. *)
Definition stale_link : virStorageDriverState :=
  mkDriver [Sample.pool_obj "p1" VIR_STORAGE_POOL_DIR 0]
           "/etc" "/etc/autostart" "/run" []
           ["/etc/p1.xml"; "/etc/autostart/p1.xml"; "/run/p1.xml"] [].

(** A driver with two running pools at rest. *)
Definition both : virStorageDriverState :=
  mkDriver [Sample.pool_obj "p1" VIR_STORAGE_POOL_DIR 0;
            Sample.pool_obj "p2" VIR_STORAGE_POOL_DIR 0]
           "/etc" "/etc/autostart" "/run" [] ["/run/p1.xml"; "/run/p2.xml"] [].

(** The build of the volume v2 in the first sample pool, as
    [storageVolCreateXML] leaves it when it drops the lock. *)
Definition pending : volBuildJob :=
  mkBuildJob "p1" Sample.dir_backend "v2"
             (mkVolDef "v2" (Some "/data/p1/v2") false 0 "/data/p1/v2"
                       (10 * Sample.MiB) (10 * Sample.MiB) 0 true)
             0 (mkVolHandle 0%nat "p1" "v2" (Some "/data/p1/v2")).

(** The copy of the volume v1 into a new volume v2 of the same pool, as
    [storageVolCreateXMLFrom] leaves it when it drops the locks. *)
Definition cloning : volCloneJob :=
  mkCloneJob "p1" None Sample.dir_backend "v2" "v1"
             (mkVolDef "v2" (Some "/data/p1/v2") false 0 "/data/p1/v2"
                       (10 * Sample.MiB) (10 * Sample.MiB) 0 true)
             0 (mkVolHandle 0%nat "p1" "v2" (Some "/data/p1/v2")).

End Cases.

(** * Proofs *)

(** ** Resize *)

Ltac monad_unfold :=
  unfold virReportError in *; unfold bind, ret, fail, gets, modify in *;
  cbv beta iota.

Ltac failed := solve [eexists; reflexivity].

Lemma flag_set_clear_delta (flags bit : Z) :
  Z.land (Z.lnot VIR_STORAGE_VOL_RESIZE_DELTA) bit = bit ->
  flag_set (Z.land flags (Z.lnot VIR_STORAGE_VOL_RESIZE_DELTA)) bit = flag_set flags bit.
Proof.
  intros H. unfold flag_set. rewrite <- Z.land_assoc, H. reflexivity.
Qed.

Lemma resize_flags_kept_shrink flags :
  flag_set (resize_flags_kept flags) VIR_STORAGE_VOL_RESIZE_SHRINK
  = flag_set flags VIR_STORAGE_VOL_RESIZE_SHRINK.
Proof.
  unfold resize_flags_kept. destruct (flag_set flags VIR_STORAGE_VOL_RESIZE_DELTA); [|reflexivity].
  apply flag_set_clear_delta. reflexivity.
Qed.

Lemma resize_flags_kept_allocate flags :
  flag_set (resize_flags_kept flags) VIR_STORAGE_VOL_RESIZE_ALLOCATE
  = flag_set flags VIR_STORAGE_VOL_RESIZE_ALLOCATE.
Proof.
  unfold resize_flags_kept. destruct (flag_set flags VIR_STORAGE_VOL_RESIZE_DELTA); [|reflexivity].
  apply flag_set_clear_delta. reflexivity.
Qed.

Lemma find_replace_same (name : string) (b : virStoragePoolObj) l a :
  find (name_is name) l = Some a ->
  obj_name b = name ->
  find (name_is name) (map (fun o => if name_is name o then b else o) l) = Some b.
Proof.
  intros Hf Hb. induction l as [|x l IH]; simpl in *; [discriminate|].
  destruct (name_is name x) eqn:E.
  - assert (Hn : name_is name b = true) by (unfold name_is; rewrite Hb; apply String.eqb_refl).
    rewrite Hn. reflexivity.
  - rewrite E. apply IH. exact Hf.
Qed.

Lemma find_put_vol (obj : virStoragePoolObj) (v a : virStorageVolDef) :
  virStorageVolDefFindByName obj (vol_name v) = Some a ->
  virStorageVolDefFindByName (put_vol obj v) (vol_name v) = Some v.
Proof.
  unfold virStorageVolDefFindByName, put_vol. simpl.
  induction (volumes obj) as [|x l IH]; simpl; [discriminate|].
  destruct (vol_is (vol_name v) x) eqn:E.
  - intros _. assert (Hn : vol_is (vol_name v) v = true) by (unfold vol_is; apply String.eqb_refl).
    rewrite Hn. reflexivity.
  - rewrite E. exact IH.
Qed.

Lemma map_map_replace (name : string) (a b : virStoragePoolObj) l :
  obj_name a = name ->
  map (fun o => if name_is name o then b else o)
      (map (fun o => if name_is name o then a else o) l)
  = map (fun o => if name_is name o then b else o) l.
Proof.
  intros Ha. rewrite map_map. apply map_ext. intros o.
  destruct (name_is name o) eqn:E; [|rewrite E; reflexivity].
  unfold name_is. rewrite Ha, String.eqb_refl. reflexivity.
Qed.

Lemma put_vol_put_vol (o : virStoragePoolObj) (a b : virStorageVolDef) :
  vol_name a = vol_name b ->
  put_vol (put_vol o a) b = put_vol o b.
Proof.
  intros Hab. unfold put_vol, set_volumes. simpl.
  f_equal. rewrite map_map. apply map_ext. intros x. rewrite Hab.
  destruct (vol_is (vol_name b) x) eqn:E; [|rewrite E; reflexivity].
  unfold vol_is. rewrite Hab, String.eqb_refl. reflexivity.
Qed.

Lemma find_name_is (name : string) l a :
  find (name_is name) l = Some a -> obj_name a = name.
Proof.
  intros H. apply find_some in H. destruct H as [_ H]. unfold name_is in H.
  apply String.eqb_eq in H. exact H.
Qed.

Lemma find_vol_is (name : string) l a :
  find (vol_is name) l = Some a -> vol_name a = name.
Proof.
  intros H. apply find_some in H. destruct H as [_ H]. unfold vol_is in H.
  apply String.eqb_eq in H. exact H.
Qed.

Section Resize.

Variables (env : Env) (vol : virStorageVol) (capacity flags : Z).
Variables (w : virStorageDriverState) (obj : virStoragePoolObj).
Variable (voldef : virStorageVolDef).

Hypothesis Hpool : virStoragePoolObjFindByName (pools w) (volh_pool vol) = Some obj.

Hypothesis Hvol : virStorageVolDefFindByName obj (volh_name vol) = Some voldef.

Let abs_capacity := storageVolResize_abs_capacity voldef capacity flags.

Lemma storageVolResize_rejects :
  abs_capacity < target_allocation voldef
  \/ (abs_capacity < target_capacity voldef
      /\ flag_set flags VIR_STORAGE_VOL_RESIZE_SHRINK = false) ->
  exists e, storageVolResize env vol capacity flags w = (inl e, w).
Proof.
  intros Hcase.
  unfold storageVolResize, virCheckFlags, virStorageVolDefFromVol,
    storagePoolObjFindByName, backendForType, ensureACL.
  monad_unfold.
  destruct (Z.land flags (Z.lnot resize_flags_supported) =? 0); [|failed].
  rewrite Hpool. cbv beta iota.
  destruct (negb (virStoragePoolObjIsActive obj)); [failed|].
  rewrite Hvol.
  destruct (virStorageBackendForType env (def_type (def obj))); [|failed].
  destruct (EnsureACL env AclVolResize (volh_conn vol) (def obj) (Some voldef)); [|failed].
  destruct (negb (vol_in_use voldef =? 0)); [failed|].
  destruct (vol_building voldef); [failed|].
  fold abs_capacity. fold (resize_flags_kept flags).
  destruct (Z.ltb_spec abs_capacity (target_allocation voldef)); [failed|].
  rewrite resize_flags_kept_shrink.
  destruct Hcase as [Hlt|[Hlt Hshrink]]; [lia|].
  rewrite Hshrink.
  destruct (Z.ltb_spec abs_capacity (target_capacity voldef)); [failed|lia].
Qed.

Variables (backend : virStorageBackend) (entry : volEntryPoint).
Variables (status : Z) (d : virStoragePoolDef) (v : virStorageVolDef).

Let delta := wrap64 (abs_capacity - target_allocation voldef).

Lemma storageVolResize_allocates :
  Z.land flags (Z.lnot resize_flags_supported) = 0 ->
  active obj = true ->
  virStorageBackendForType env (def_type (def obj)) = Some backend ->
  EnsureACL env AclVolResize (volh_conn vol) (def obj) (Some voldef) = true ->
  vol_in_use voldef = 0 ->
  vol_building voldef = false ->
  target_allocation voldef <= abs_capacity ->
  (target_capacity voldef <= abs_capacity
   \/ flag_set flags VIR_STORAGE_VOL_RESIZE_SHRINK = true) ->
  flag_set flags VIR_STORAGE_VOL_RESIZE_ALLOCATE = true ->
  delta <= def_available (def obj) ->
  resizeVol backend = Some entry ->
  entry obj voldef abs_capacity (resize_flags_kept flags) = (status, d, v) ->
  0 <= status ->
  exists w' obj' voldef',
    storageVolResize env vol capacity flags w = (inr tt, w')
    /\ virStoragePoolObjFindByName (pools w') (volh_pool vol) = Some obj'
    /\ virStorageVolDefFindByName obj' (volh_name vol) = Some voldef'
    /\ target_capacity voldef' = abs_capacity
    /\ target_allocation voldef' = abs_capacity
    /\ def_allocation (def obj') = wrap64 (def_allocation d + delta)
    /\ def_available (def obj') = wrap64 (def_available d - delta).
Proof.
  intros Hflags Hactive Hbackend Hacl Huse Hbuilding Halloc Hshrink Hallocate
         Hfits Hresize Hentry Hstatus.
  pose proof (find_name_is _ _ _ Hpool) as Hname.
  pose proof (find_vol_is _ _ _ Hvol) as Hvname.
  unfold storageVolResize, virCheckFlags, virStorageVolDefFromVol,
    storagePoolObjFindByName, backendForType, ensureACL.
  monad_unfold.
  rewrite Hflags. simpl. rewrite Hpool.
  unfold virStoragePoolObjIsActive. rewrite Hactive. simpl.
  rewrite Hvol, Hbackend, Hacl, Huse, Hbuilding. simpl.
  fold abs_capacity. fold (resize_flags_kept flags).
  destruct (Z.ltb_spec abs_capacity (target_allocation voldef)); [lia|].
  rewrite resize_flags_kept_shrink, resize_flags_kept_allocate, Hallocate.
  assert (Hok : (abs_capacity <? target_capacity voldef)
                && negb (flag_set flags VIR_STORAGE_VOL_RESIZE_SHRINK) = false).
  { destruct Hshrink as [Hge|Hs].
    - destruct (Z.ltb_spec abs_capacity (target_capacity voldef)); [lia|reflexivity].
    - rewrite Hs. apply andb_false_r. }
  rewrite Hok. fold delta.
  destruct (Z.ltb_spec (def_available (def obj)) delta); [lia|].
  rewrite Hresize.
  unfold backend_ownvol_call, backend_vol_call, store_vol, store, store_at, log.
  monad_unfold. rewrite Hentry. simpl.
  destruct (Z.ltb_spec status 0); [lia|].
  simpl.
  eexists _, _, _. split; [reflexivity|].
  cbn [snd pools set_pools].
  rewrite !map_map_replace by reflexivity.
  split.
  { change (name_is (obj_name (set_def obj (backend_def (def obj) d))))
      with (name_is (obj_name obj)).
    rewrite Hname. eapply find_replace_same; [exact Hpool|].
    rewrite <- Hname. reflexivity. }
  rewrite !put_vol_put_vol by reflexivity.
  split.
  { unfold virStorageVolDefFindByName, pool_allocate. cbn [volumes set_def].
    rewrite <- Hvname.
    change (vol_name voldef)
      with (vol_name (set_target_allocation
                        (set_target_capacity (backend_vol voldef v) abs_capacity)
                        abs_capacity)).
    eapply find_put_vol. cbn [vol_name set_target_allocation set_target_capacity backend_vol].
    unfold virStorageVolDefFindByName. cbn [volumes set_def].
    rewrite Hvname. exact Hvol. }
  repeat split; reflexivity.
Qed.

End Resize.

(** ** Destroy of a busy pool, wipe, and the absolute capacity *)

Lemma ends_with_refl (s : string) : ends_with s s = true.
Proof.
  destruct s as [|c s]; [reflexivity|].
  change (ends_with (String c s) (String c s))
    with (String.eqb (String c s) (String c s) || ends_with (String c s) s).
  rewrite String.eqb_refl. reflexivity.
Qed.

Lemma ends_with_append (suffix before s : string) :
  ends_with suffix s = true -> ends_with suffix (String.append before s) = true.
Proof.
  intros H. induction before as [|c before IH]; [exact H|].
  change (ends_with suffix (String.append (String c before) s))
    with (String.eqb (String c (String.append before s)) suffix
          || ends_with suffix (String.append before s)).
  rewrite IH. apply orb_true_r.
Qed.

Lemma jobs_running_invalid_state (name : string) :
  is_invalid_state
    (Reported VIR_ERR_INTERNAL_ERROR
       (fmt "pool '" name "' has asynchronous jobs running.")) = true.
Proof.
  unfold is_invalid_state, fmt.
  apply ends_with_append. apply ends_with_append.
  apply (ends_with_append _ "' "). apply ends_with_refl.
Qed.

(** Claim C5.  Destroying a pool whose job counter is positive fails with
    an error of the invalid-state class, and the driver state is the state
    before the call, so the pool is still registered and, when it was
    active, still active.  On an active pool the error is the one the
    driver reports for running jobs, with the internal-error code. *)
Theorem storagePoolDestroy_busy (env : Env) (pool : virStoragePool)
        (w : virStorageDriverState) (obj : virStoragePoolObj) :
  virStoragePoolObjFindByUUID (pools w) (pool_uuid pool) = Some obj ->
  EnsureACL env AclPoolDestroy (pool_conn pool) (def obj) None = true ->
  virStorageBackendForType env (def_type (def obj)) <> None ->
  0 < asyncjobs obj ->
  exists e,
    storagePoolDestroy env pool w = (inl e, w)
    /\ is_invalid_state e = true
    /\ (active obj = true ->
        e = Reported VIR_ERR_INTERNAL_ERROR
              (fmt "pool '" (obj_name obj) "' has asynchronous jobs running.")).
Proof.
  intros Hfind Hacl Hbackend Hjobs.
  unfold storagePoolDestroy, storagePoolObjFindByUUID, ensureACL, backendForType.
  monad_unfold. rewrite Hfind, Hacl.
  destruct (virStorageBackendForType env (def_type (def obj))) as [backend|];
    [|congruence].
  unfold virStoragePoolObjIsActive, virStoragePoolObjGetAsyncjobs.
  destruct (active obj); simpl.
  - destruct (Z.ltb_spec 0 (asyncjobs obj)); [|lia].
    eexists. split; [reflexivity|]. split; [|reflexivity].
    apply jobs_running_invalid_state.
  - eexists. split; [reflexivity|]. split; [reflexivity | discriminate].
Qed.

(** Claim C9.  [storageVolWipe] is [storageVolWipePattern] with the zero
    algorithm: same result and same final state, from every state. *)
Theorem storageVolWipe_zero (env : Env) (vol : virStorageVol) (flags : Z)
        (w : virStorageDriverState) :
  storageVolWipe env vol flags w
  = storageVolWipePattern env vol VIR_STORAGE_VOL_WIPE_ALG_ZERO flags w.
Proof. reflexivity. Qed.

Lemma flag_set_true flags bit : flag_set flags bit = true <-> Z.land flags bit <> 0.
Proof.
  unfold flag_set. destruct (Z.eqb_spec (Z.land flags bit) 0); simpl; split; intros; try congruence; try lia.
Qed.

(** Claim C10.  With the delta and shrink flags both set, the absolute
    capacity is the capacity of the volume minus the smaller of the
    requested delta and that capacity: it lies between zero and the current
    capacity, and it is zero when the delta is at least the capacity. *)
Theorem abs_capacity_clamped (voldef : virStorageVolDef) (capacity flags : Z) :
  0 <= capacity < 2 ^ 64 ->
  0 <= target_capacity voldef < 2 ^ 64 ->
  flag_set flags VIR_STORAGE_VOL_RESIZE_DELTA = true ->
  flag_set flags VIR_STORAGE_VOL_RESIZE_SHRINK = true ->
  storageVolResize_abs_capacity voldef capacity flags
  = target_capacity voldef - Z.min capacity (target_capacity voldef)
  /\ 0 <= storageVolResize_abs_capacity voldef capacity flags <= target_capacity voldef
  /\ (target_capacity voldef <= capacity ->
      storageVolResize_abs_capacity voldef capacity flags = 0).
Proof.
  intros Hc Ht Hd Hs. unfold storageVolResize_abs_capacity. rewrite Hd, Hs.
  unfold MIN, wrap64.
  destruct (Z.ltb_spec capacity (target_capacity voldef)).
  - rewrite Z.min_l by lia. rewrite Z.mod_small by lia. lia.
  - rewrite Z.min_r by lia. rewrite Z.mod_small by lia. lia.
Qed.

(** ** Volume creation without capacity, and the refresh after an upload *)

(** Claim C7.  On an active pool whose backend has no [buildVol], creating
    a volume from a definition of capacity zero fails with "volume capacity
    required for this storage pool"; the driver state, which holds the
    registry, the volumes and the trace of backend calls, is unchanged. *)
Theorem storageVolCreateXML_capacity_required (env : Env) (pool : virStoragePool)
        (xmldesc : string) (flags : Z) (w : virStorageDriverState)
        (obj : virStoragePoolObj) (backend : virStorageBackend)
        (voldef : virStorageVolDef) :
  Z.land flags (Z.lnot VIR_STORAGE_VOL_CREATE_PREALLOC_METADATA) = 0 ->
  virStoragePoolObjFindByUUID (pools w) (pool_uuid pool) = Some obj ->
  active obj = true ->
  virStorageBackendForType env (def_type (def obj)) = Some backend ->
  buildVol backend = None ->
  virStorageVolDefParseString env (def obj) xmldesc VIR_VOL_XML_PARSE_OPT_CAPACITY
  = Some voldef ->
  target_capacity voldef = 0 ->
  storageVolCreateXML env pool xmldesc flags w
  = (inl (Reported VIR_ERR_NO_SUPPORT
            "volume capacity required for this storage pool"), w).
Proof.
  intros Hflags Hfind Hactive Hbackend Hbuild Hparse Hcap.
  unfold storageVolCreateXML, storageVolCreateXML_locked, virCheckFlags,
    virStoragePoolObjFromStoragePool, storagePoolObjFindByUUID, backendForType.
  monad_unfold. rewrite Hflags. simpl. rewrite Hfind.
  unfold virStoragePoolObjIsActive. rewrite Hactive. simpl.
  rewrite Hbackend, Hparse, Hcap, Hbuild. reflexivity.
Qed.

(** Claim C8.  The refresh that follows an upload: when the job counter of
    the pool is positive it returns with the driver state unchanged; when
    the counter is zero it replaces the volumes of the pool by those that
    [refreshPool] lists, starting from none, and queues one refresh event;
    in every case it returns without an error, also when [refreshPool]
    fails. *)
Theorem refresh_thread_spec (env : Env) (cbdata : virStorageVolStreamInfo)
        (w : virStorageDriverState) (obj : virStoragePoolObj) :
  match cb_vol_path cbdata with
  | Some p => 0 <= virStorageBackendPloopRestoreDesc env p
  | None => True
  end ->
  virStoragePoolObjFindByName (pools w) (cb_pool_name cbdata) = Some obj ->
  (0 < asyncjobs obj ->
   virStorageVolPoolRefreshThread env cbdata w = (inr tt, w))
  /\ (asyncjobs obj = 0 ->
      forall backend,
        virStorageBackendForType env (def_type (def obj)) = Some backend ->
        virStorageVolPoolRefreshThread env cbdata w
        = (inr tt,
           mkDriver (map (fun o => if name_is (obj_name obj) o
                                   then refreshed obj backend else o) (pools w))
                    (configDir w) (autostartDir w) (stateDir w)
                    (storageEventState w
                     ++ [virStoragePoolEventRefresh (obj_name obj) (def_uuid (def obj))])
                    (files w)
                    (trace w ++ [CallRefreshPool (obj_name obj)])))
  /\ fst (virStorageVolPoolRefreshThread env cbdata w) = inr tt.
Proof.
  intros Hploop Hfind.
  assert (Hskip : match cb_vol_path cbdata with
                  | Some p => virStorageBackendPloopRestoreDesc env p <? 0
                  | None => false
                  end = false).
  { destruct (cb_vol_path cbdata); [apply Z.ltb_ge; assumption|reflexivity]. }
  unfold virStorageVolPoolRefreshThread. rewrite Hskip.
  monad_unfold. rewrite Hfind. unfold virStoragePoolObjGetAsyncjobs.
  split; [|split].
  - intros Hjobs. destruct (Z.ltb_spec 0 (asyncjobs obj)); [reflexivity|lia].
  - intros Hjobs backend Hbackend. rewrite Hjobs, Hbackend. simpl.
    unfold virStoragePoolObjClearVols, backend_pool_call, store, store_at, log,
      virObjectEventStateQueue, refreshed.
    monad_unfold. simpl.
    destruct (refreshPool backend (set_volumes obj []) 0) as [[status d] vols].
    simpl. unfold set_pools, set_trace, set_events; simpl.
    unfold obj_name at 2 3; simpl.
    rewrite !map_map_replace by reflexivity. reflexivity.
  - destruct (0 <? asyncjobs obj); [reflexivity|].
    destruct (virStorageBackendForType env (def_type (def obj))); [|reflexivity].
    unfold virStoragePoolObjClearVols, backend_pool_call, store, store_at, log,
      virObjectEventStateQueue.
    monad_unfold. simpl.
    destruct (refreshPool v (set_volumes obj []) 0) as [[status d] vols].
    reflexivity.
Qed.

(** ** Symbolic execution of driver calls *)

Lemma wp_ret {A} (a : A) Q s : Q (inr a) s -> wp (ret a) Q s.
Proof. exact (fun H => H). Qed.

Lemma wp_fail {A} (e : failure) (Q : failure + A -> _ -> Prop) s :
  Q (inl e) s -> wp (fail e) Q s.
Proof. exact (fun H => H). Qed.

Lemma wp_gets {A} (f : virStorageDriverState -> A) Q s :
  Q (inr (f s)) s -> wp (gets f) Q s.
Proof. exact (fun H => H). Qed.

Lemma wp_modify f (Q : failure + unit -> _ -> Prop) s :
  Q (inr tt) (f s) -> wp (modify f) Q s.
Proof. exact (fun H => H). Qed.

Lemma wp_bind {A B} (m : M A) (k : A -> M B) Q s :
  wp m (fun r s' => match r with
                    | inl e => Q (inl e) s'
                    | inr a => wp (k a) Q s'
                    end) s ->
  wp (bind m k) Q s.
Proof.
  unfold wp, bind. destruct (m s) as [[e|a] s']; simpl; auto.
Qed.

Lemma wp_run {A} (m : M A) Q s r s' :
  wp m Q s -> m s = (r, s') -> Q r s'.
Proof. unfold wp. intros H E. rewrite E in H. exact H. Qed.

Lemma wp_state {A} (m : M A) (P : virStorageDriverState -> Prop) s :
  wp m (fun _ s' => P s') s -> P (snd (m s)).
Proof. exact (fun H => H). Qed.

Ltac head t :=
  lazymatch t with
  | ?f _ => head f
  | _ => t
  end.

Ltac norm_state :=
  cbn [pools configDir autostartDir stateDir storageEventState files trace
       set_pools set_events set_files set_trace fst snd
       def newDef configFile autostartLink active autostart asyncjobs volumes
       set_def set_newDef set_active set_asyncjobs set_volumes set_configFile
       virStoragePoolObjNew].

Ltac wp_step :=
  lazymatch goal with
  | |- wp (bind _ _) _ _ => apply wp_bind
  | |- wp (ret _) _ _ => apply wp_ret; cbv beta iota zeta; norm_state
  | |- wp (fail _) _ _ => apply wp_fail; cbv beta iota zeta; norm_state
  | |- wp (gets _) _ _ => apply wp_gets; cbv beta iota zeta; norm_state
  | |- wp (modify _) _ _ => apply wp_modify; cbv beta iota zeta; norm_state
  | |- wp (if ?c then _ else _) _ _ => destruct c eqn:?
  | |- wp (match (if ?c then _ else _) with _ => _ end) _ _ => destruct c eqn:?
  | |- wp (match ?x with _ => _ end) _ _ => destruct x eqn:?
  | |- wp ?m _ _ => let h := head m in unfold h; cbv beta iota zeta; norm_state
  end.

Ltac wp_go := repeat wp_step.

(** ** The job counter *)

Lemma holds_nonneg n jobs : 0 <= holds n jobs.
Proof. unfold holds. lia. Qed.

Lemma holds_zero n jobs :
  holds n jobs = 0 -> ~ In n (List.concat (map job_pools jobs)).
Proof.
  unfold holds. intros H Hin.
  apply (count_occ_In string_dec) in Hin. lia.
Qed.

Lemma not_held n jobs l :
  accounted jobs l -> existsb (name_is n) l = false -> holds n jobs = 0.
Proof.
  intros [_ Hreg] Hfresh. unfold holds.
  destruct (count_occ string_dec (List.concat (map job_pools jobs)) n) eqn:E; [reflexivity|].
  assert (Hin : In n (List.concat (map job_pools jobs))).
  { apply (count_occ_In string_dec). lia. }
  apply Hreg in Hin. unfold registered in Hin. congruence.
Qed.

Lemma name_is_refl o : name_is (obj_name o) o = true.
Proof. apply String.eqb_refl. Qed.

Lemma name_is_eq n o : name_is n o = true -> obj_name o = n.
Proof. apply String.eqb_eq. Qed.

Lemma registered_replace n N x l :
  obj_name x = N ->
  registered n l ->
  registered n (map (fun o => if name_is N o then x else o) l).
Proof.
  unfold registered. intros Hx. induction l as [|a l IH]; simpl; [auto|].
  intros H. apply orb_true_iff in H. destruct H as [H|H].
  - destruct (name_is N a) eqn:E.
    + apply name_is_eq in H. apply name_is_eq in E.
      assert (Hn : name_is n x = true)
        by (unfold name_is; apply String.eqb_eq; congruence).
      rewrite Hn. reflexivity.
    + rewrite H. reflexivity.
  - rewrite (IH H). apply orb_true_r.
Qed.

Lemma accounted_replace jobs N x l :
  obj_name x = N ->
  counted jobs x ->
  accounted jobs l ->
  accounted jobs (map (fun o => if name_is N o then x else o) l).
Proof.
  intros Hx Hc [Hall Hreg]. split.
  - apply Forall_forall. intros o Hin. apply in_map_iff in Hin.
    destruct Hin as [a [Ha Hin]]. rewrite Forall_forall in Hall.
    destruct (name_is N a); subst; auto.
  - intros n Hn. apply registered_replace; auto.
Qed.

Lemma accounted_remove jobs N l :
  holds N jobs = 0 ->
  accounted jobs l ->
  accounted jobs (filter (fun o => negb (name_is N o)) l).
Proof.
  intros Hz [Hall Hreg]. split.
  - apply Forall_forall. intros o Hin. apply filter_In in Hin.
    rewrite Forall_forall in Hall. apply Hall. tauto.
  - intros n Hn. pose proof (Hreg n Hn) as Hr. unfold registered in *.
    apply existsb_exists in Hr. destruct Hr as [o [Hin Ho]].
    apply existsb_exists. exists o. split; [|exact Ho].
    apply filter_In. split; [exact Hin|].
    destruct (name_is N o) eqn:E; [|reflexivity].
    apply name_is_eq in E. apply name_is_eq in Ho.
    exfalso. apply (holds_zero _ _ Hz). congruence.
Qed.

Lemma accounted_append jobs x l :
  counted jobs x ->
  accounted jobs l ->
  accounted jobs (l ++ [x]).
Proof.
  intros Hc [Hall Hreg]. split.
  - apply Forall_app. split; [exact Hall|]. constructor; [exact Hc|constructor].
  - intros n Hn. unfold registered. rewrite existsb_app.
    rewrite (Hreg n Hn). reflexivity.
Qed.

Lemma find_counted jobs l f o :
  accounted jobs l -> find f l = Some o -> counted jobs o.
Proof.
  intros [Hall _] Hf. apply find_some in Hf. rewrite Forall_forall in Hall.
  apply Hall. tauto.
Qed.

(** The held copies of a counted object stay counted as long as the name,
    the counter and the pending definition are kept. *)
Lemma counted_same jobs o o' :
  counted jobs o ->
  obj_name o' = obj_name o ->
  asyncjobs o' = asyncjobs o ->
  newDef o' = newDef o ->
  counted jobs o'.
Proof.
  unfold counted, pending_def_named. intros [Hc Hd] Hn Ha Hnd.
  rewrite Hn, Ha, Hnd. auto.
Qed.

Lemma not_duplicate_fresh l d k :
  virStoragePoolObjIsDuplicate l d k = false ->
  existsb (name_is (def_name d)) l = false.
Proof.
  unfold virStoragePoolObjIsDuplicate. induction l as [|a l IH]; simpl; [reflexivity|].
  intros H. apply orb_false_iff in H. destruct H as [Ha Hl].
  apply orb_false_iff in Ha. destruct Ha as [Ha _].
  rewrite Ha, IH by assumption. reflexivity.
Qed.

Lemma counted_new jobs l d k :
  accounted jobs l ->
  virStoragePoolObjIsDuplicate l d k = false ->
  counted jobs (virStoragePoolObjNew d).
Proof.
  intros Hacc Hdup. split.
  - simpl. symmetry. eapply not_held; [exact Hacc|].
    apply not_duplicate_fresh with (k := k). exact Hdup.
  - intros d' Hd. discriminate.
Qed.

Lemma counted_idle jobs o :
  counted jobs o -> (0 <? asyncjobs o) = false -> holds (obj_name o) jobs = 0.
Proof.
  intros [Hc _] Hz. apply Z.ltb_ge in Hz. pose proof (holds_nonneg (obj_name o) jobs). lia.
Qed.

Lemma counted_use_newDef jobs o d :
  counted jobs o -> newDef o = Some d ->
  counted jobs (set_newDef (set_def o d) None)
  /\ obj_name (set_newDef (set_def o d) None) = obj_name o.
Proof.
  intros [Hc Hd] Hn. pose proof (Hd d Hn) as Hname.
  split; [split|].
  - simpl. unfold obj_name. simpl. rewrite Hname. exact Hc.
  - intros d' Hd'. discriminate.
  - exact Hname.
Qed.

Ltac norm_obj :=
  cbn [obj_name def newDef configFile autostartLink active autostart asyncjobs
       volumes set_def set_newDef set_active set_asyncjobs set_volumes
       set_configFile def_name backend_def pool_allocate pool_release put_vol
       with_vol set_def_allocation set_def_available
       virStoragePoolObjGetAsyncjobs virStoragePoolObjGetNewDef
       virStoragePoolObjGetConfigFile virStoragePoolObjIsActive
       virStoragePoolObjGetDef virStoragePoolObjGetAutostartLink
       virStoragePoolObjNew fst snd] in *.

(** The objects found in an accounted registry are counted. *)
Ltac found :=
  repeat match goal with
  | Hacc : accounted ?jobs ?l, H : virStoragePoolObjFindByUUID ?l _ = Some ?o |- _ =>
      lazymatch goal with
      | _ : counted jobs o |- _ => fail
      | _ => pose proof (find_counted _ _ _ _ Hacc H)
      end
  | Hacc : accounted ?jobs ?l, H : virStoragePoolObjFindByName ?l _ = Some ?o |- _ =>
      lazymatch goal with
      | _ : counted jobs o |- _ => fail
      | _ => pose proof (find_counted _ _ _ _ Hacc H)
      end
  end.

Ltac counted_tac :=
  match goal with
  | H : counted ?jobs ?o |- counted ?jobs _ =>
      apply (counted_same jobs o); [exact H | reflexivity ..]
  | H : counted ?jobs ?o, Hd : _ = Some ?d |- counted ?jobs _ =>
      refine (counted_same jobs _ _ (proj1 (counted_use_newDef jobs o d H Hd)) _ _ _);
      reflexivity
  | Hacc : accounted ?jobs ?l, Hdup : virStoragePoolObjIsDuplicate ?l ?d ?k = false
    |- counted ?jobs _ =>
      apply (counted_same jobs (virStoragePoolObjNew d));
      [exact (counted_new jobs l d k Hacc Hdup) | reflexivity ..]
  end.

Ltac name_tac :=
  first
    [ reflexivity
    | match goal with
      | H : counted ?jobs ?o, Hd : _ = Some ?d |- _ =>
          exact (proj2 (counted_use_newDef jobs o d H Hd))
      end ].

Ltac idle_tac :=
  match goal with
  | H : counted ?jobs ?o, Hz : (0 <? _) = false |- holds _ ?jobs = 0 =>
      exact (counted_idle jobs o H Hz)
  | Hacc : accounted ?jobs ?l, Hdup : virStoragePoolObjIsDuplicate ?l ?d ?k = false
    |- holds _ ?jobs = 0 =>
      exact (not_held _ jobs l Hacc (not_duplicate_fresh l d k Hdup))
  end.

Ltac peel :=
  repeat first
    [ assumption
    | apply accounted_replace; [name_tac | counted_tac | ]
    | apply accounted_remove; [idle_tac | ]
    | apply accounted_append; [counted_tac | ] ].

Ltac accounted_call f :=
  intros Hacc; apply (wp_state _ (fun s' => accounted _ (pools s')));
  match goal with s : virStorageDriverState |- _ => destruct s as [l cd ad sd ev fs tr] end;
  simpl in Hacc; unfold f; wp_go; norm_state; found; peel.

Lemma storagePoolDestroy_accounted env pool jobs s :
  accounted jobs (pools s) ->
  accounted jobs (pools (snd (storagePoolDestroy env pool s))).
Proof. accounted_call storagePoolDestroy. Qed.

Lemma storagePoolCreateXML_accounted env conn xml flags jobs s :
  accounted jobs (pools s) ->
  accounted jobs (pools (snd (storagePoolCreateXML env conn xml flags s))).
Proof. accounted_call storagePoolCreateXML. Qed.

Lemma storagePoolDefineXML_accounted env conn xml flags jobs s :
  accounted jobs (pools s) ->
  accounted jobs (pools (snd (storagePoolDefineXML env conn xml flags s))).
Proof. accounted_call storagePoolDefineXML. Qed.

Lemma storagePoolUndefine_accounted env pool jobs s :
  accounted jobs (pools s) ->
  accounted jobs (pools (snd (storagePoolUndefine env pool s))).
Proof. accounted_call storagePoolUndefine. Qed.

Lemma storagePoolCreate_accounted env pool flags jobs s :
  accounted jobs (pools s) ->
  accounted jobs (pools (snd (storagePoolCreate env pool flags s))).
Proof. accounted_call storagePoolCreate. Qed.

Lemma storagePoolBuild_accounted env pool flags jobs s :
  accounted jobs (pools s) ->
  accounted jobs (pools (snd (storagePoolBuild env pool flags s))).
Proof. accounted_call storagePoolBuild. Qed.

Lemma storagePoolDelete_accounted env pool flags jobs s :
  accounted jobs (pools s) ->
  accounted jobs (pools (snd (storagePoolDelete env pool flags s))).
Proof. accounted_call storagePoolDelete. Qed.

Lemma storagePoolRefresh_accounted env pool flags jobs s :
  accounted jobs (pools s) ->
  accounted jobs (pools (snd (storagePoolRefresh env pool flags s))).
Proof. accounted_call storagePoolRefresh. Qed.

Lemma storageVolDelete_accounted env vol flags jobs s :
  accounted jobs (pools s) ->
  accounted jobs (pools (snd (storageVolDelete env vol flags s))).
Proof. accounted_call storageVolDelete. Qed.

Lemma storageVolResize_accounted env vol capacity flags jobs s :
  accounted jobs (pools s) ->
  accounted jobs (pools (snd (storageVolResize env vol capacity flags s))).
Proof. accounted_call storageVolResize. Qed.

Lemma storageVolWipePattern_accounted env vol algorithm flags jobs s :
  accounted jobs (pools s) ->
  accounted jobs (pools (snd (storageVolWipePattern env vol algorithm flags s))).
Proof. accounted_call storageVolWipePattern. Qed.

Lemma virStorageVolPoolRefreshThread_accounted env cbdata jobs s :
  accounted jobs (pools s) ->
  accounted jobs (pools (snd (virStorageVolPoolRefreshThread env cbdata s))).
Proof. accounted_call virStorageVolPoolRefreshThread. Qed.

Lemma find_registered n l o :
  find (name_is n) l = Some o -> registered n l.
Proof.
  intros H. apply find_some in H. apply existsb_exists. exists o. exact H.
Qed.

Lemma found_registered f l o :
  find f l = Some o -> registered (obj_name o) l.
Proof.
  intros H. apply find_some in H. apply existsb_exists. exists o.
  split; [tauto|apply name_is_refl].
Qed.

Lemma registered_find n l :
  registered n l -> find (name_is n) l <> None.
Proof.
  intros H Hnone. apply existsb_exists in H. destruct H as [o [Hin Ho]].
  pose proof (find_none _ _ Hnone o Hin). congruence.
Qed.

Lemma holds_cons n j jobs :
  holds n (j :: jobs)
  = Z.of_nat (count_occ string_dec (job_pools j) n) + holds n jobs.
Proof.
  unfold holds. simpl. rewrite count_occ_app. lia.
Qed.

Lemma holds_app n before after :
  holds n (before ++ after) = holds n before + holds n after.
Proof.
  unfold holds. rewrite map_app, concat_app, count_occ_app. lia.
Qed.

Lemma holds_middle n j before after :
  holds n (before ++ j :: after)
  = Z.of_nat (count_occ string_dec (job_pools j) n) + holds n (before ++ after).
Proof.
  rewrite !holds_app, holds_cons. lia.
Qed.

Lemma in_pools_middle n j before after :
  In n (List.concat (map job_pools (before ++ after))) ->
  In n (List.concat (map job_pools (before ++ j :: after))).
Proof.
  rewrite !map_app, !concat_app, !in_app_iff. simpl. rewrite in_app_iff. tauto.
Qed.

(** The registry after a step that changes the pending jobs: each object
    is counted against the new jobs and keeps its name. *)
Lemma accounted_pointwise jobs jobs' g l :
  accounted jobs l ->
  (forall o, In o l -> counted jobs o ->
             counted jobs' (g o) /\ obj_name (g o) = obj_name o) ->
  (forall n, In n (List.concat (map job_pools jobs')) -> registered n l) ->
  accounted jobs' (map g l).
Proof.
  intros [Hall Hreg] Hg Hjobs. rewrite Forall_forall in Hall. split.
  - apply Forall_forall. intros o Hin. apply in_map_iff in Hin.
    destruct Hin as [a [Ha Hin]]. subst o. apply Hg; auto.
  - intros n Hn. specialize (Hjobs n Hn). unfold registered in *.
    apply existsb_exists in Hjobs. destruct Hjobs as [o [Hin Ho]].
    apply existsb_exists. exists (g o). split; [apply in_map; exact Hin|].
    unfold name_is in *. destruct (Hg o Hin (Hall o Hin)) as [_ Hname].
    rewrite Hname. exact Ho.
Qed.

Lemma count_occ_single (n m : string) :
  count_occ string_dec [m] n = if String.eqb m n then 1%nat else 0%nat.
Proof.
  simpl. destruct (string_dec m n) as [E|E].
  - subst. rewrite String.eqb_refl. reflexivity.
  - apply String.eqb_neq in E. rewrite E. reflexivity.
Qed.

Lemma accounted_hold jobs job N X l :
  accounted jobs l ->
  registered N l ->
  job_pool job = N ->
  obj_name X = N ->
  asyncjobs X = holds N jobs + 1 ->
  pending_def_named X ->
  accounted (PendingBuild job :: jobs) (map (fun o => if name_is N o then X else o) l).
Proof.
  intros Hacc Hreg Hjob HX Hcount Hpending.
  apply (accounted_pointwise jobs); [exact Hacc| |].
  - intros o _ [Hc Hd]. destruct (name_is N o) eqn:E.
    + pose proof (name_is_eq _ _ E) as Ho. split; [split|congruence].
      * rewrite holds_cons. simpl job_pools. rewrite Hjob, count_occ_single.
        rewrite HX, String.eqb_refl. lia.
      * exact Hpending.
    + split; [split|reflexivity]; [|exact Hd].
      rewrite holds_cons. simpl job_pools. rewrite Hjob, count_occ_single.
      unfold name_is in E. rewrite String.eqb_sym in E. rewrite E. lia.
  - intros n Hn. simpl in Hn. destruct Hn as [Hn|Hn].
    + subst n. rewrite Hjob. exact Hreg.
    + destruct Hacc as [_ Hr]. apply Hr. exact Hn.
Qed.

Lemma accounted_release before after job N X l :
  accounted (before ++ PendingBuild job :: after) l ->
  job_pool job = N ->
  obj_name X = N ->
  asyncjobs X = holds N (before ++ PendingBuild job :: after) - 1 ->
  pending_def_named X ->
  accounted (before ++ after) (map (fun o => if name_is N o then X else o) l).
Proof.
  intros Hacc Hjob HX Hcount Hpending.
  apply (accounted_pointwise (before ++ PendingBuild job :: after)); [exact Hacc| |].
  - intros o _ [Hc Hd]. destruct (name_is N o) eqn:E.
    + pose proof (name_is_eq _ _ E) as Ho. split; [split|congruence].
      * rewrite Hcount, holds_middle. simpl job_pools. rewrite Hjob, count_occ_single.
        rewrite HX, String.eqb_refl. lia.
      * exact Hpending.
    + split; [split|reflexivity]; [|exact Hd].
      rewrite Hc, holds_middle. simpl job_pools. rewrite Hjob, count_occ_single.
      unfold name_is in E. rewrite String.eqb_sym in E. rewrite E. lia.
  - intros n Hn. destruct Hacc as [_ Hr]. apply Hr.
    apply in_pools_middle. exact Hn.
Qed.

Lemma job_registered before job after l :
  accounted (before ++ PendingBuild job :: after) l -> registered (job_pool job) l.
Proof.
  intros [_ Hr]. apply Hr. rewrite map_app, concat_app, in_app_iff. right.
  simpl. left. reflexivity.
Qed.

Lemma storageVolCreateXML_locked_accounted env pool xmldesc flags jobs s r s' :
  accounted jobs (pools s) ->
  storageVolCreateXML_locked env pool xmldesc flags s = (r, s') ->
  accounted match r with
            | inr (VolBuilding job) => PendingBuild job :: jobs
            | _ => jobs
            end (pools s').
Proof.
  intros Hacc Hrun. revert Hrun.
  apply (wp_run _ (fun r s' =>
                     accounted match r with
                               | inr (VolBuilding job) => PendingBuild job :: jobs
                               | _ => jobs
                               end (pools s'))).
  destruct s as [l cd ad sd ev fs tr]. simpl in Hacc.
  unfold storageVolCreateXML_locked. wp_go; norm_state; found; peel.
  rewrite !map_map_replace by reflexivity.
  apply accounted_hold; try reflexivity; try assumption.
  - exact (found_registered _ _ _ Heqo).
  - cbn. destruct H as [H _]. rewrite H. reflexivity.
  - destruct H as [_ H]. exact H.
Qed.

Lemma storageVolCreateXML_relocked_accounted job buildret before after s :
  accounted (before ++ PendingBuild job :: after) (pools s) ->
  accounted (before ++ after) (pools (snd (storageVolCreateXML_relocked job buildret s))).
Proof.
  intros Hacc. apply (wp_state _ (fun s' => accounted _ (pools s'))).
  destruct s as [l cd ad sd ev fs tr]. simpl in Hacc.
  pose proof (registered_find _ _ (job_registered _ _ _ _ Hacc)) as Hreg.
  unfold storageVolCreateXML_relocked. wp_go; norm_state; found;
    try (exfalso; apply Hreg; assumption).
  all: rewrite ?map_map_replace by reflexivity.
  all: pose proof (find_name_is _ _ _ Heqo) as Hname.
  all: apply (accounted_release before after job); try assumption; try reflexivity.
  all: first [ symmetry; exact Hname
             | exact (f_equal (fun z => z - 1) (proj1 H))
             | exact (proj2 H) ].
Qed.

Lemma replace_absorb (N M : string) (a b y : virStoragePoolObj) l :
  obj_name a = N -> obj_name y = M -> name_is N y = false ->
  map (fun o => if name_is N o then b else o)
      (map (fun o => if name_is M o then y else o)
           (map (fun o => if name_is N o then a else o) l))
  = map (fun o => if name_is N o then b else o)
        (map (fun o => if name_is M o then y else o) l).
Proof.
  intros Ha Hy Hne. rewrite !map_map. apply map_ext. intros o.
  assert (HMa : name_is M a = false).
  { unfold name_is in *. rewrite Ha. rewrite Hy in Hne. rewrite String.eqb_sym. exact Hne. }
  destruct (name_is N o) eqn:EN.
  - rewrite HMa.
    assert (HNa : name_is N a = true) by (unfold name_is; rewrite Ha; apply String.eqb_refl).
    rewrite HNa.
    destruct (name_is M o) eqn:EM.
    + rewrite Hne. exfalso. apply name_is_eq in EN, EM.
      unfold name_is in Hne. rewrite Hy in Hne. apply String.eqb_neq in Hne. congruence.
    + rewrite EN. reflexivity.
  - destruct (name_is M o); [reflexivity|]. reflexivity.
Qed.

Lemma count_occ_pair (n a b : string) :
  Z.of_nat (count_occ string_dec [a; b] n)
  = (if String.eqb a n then 1 else 0) + (if String.eqb b n then 1 else 0).
Proof.
  simpl. destruct (string_dec a n) as [E|E], (string_dec b n) as [F|F];
    try (apply String.eqb_eq in E; rewrite E);
    try (apply String.eqb_neq in E; rewrite E);
    try (apply String.eqb_eq in F; rewrite F);
    try (apply String.eqb_neq in F; rewrite F); reflexivity.
Qed.

Lemma count_occ_one (n a : string) :
  Z.of_nat (count_occ string_dec [a] n) = (if String.eqb a n then 1 else 0).
Proof.
  rewrite count_occ_single. destruct (String.eqb a n); reflexivity.
Qed.

Lemma accounted_begin jobs j g l :
  accounted jobs l ->
  (forall o, In o l -> counted jobs o ->
     shifted jobs (fun n => Z.of_nat (count_occ string_dec (job_pools j) n)) o (g o)) ->
  (forall n, In n (job_pools j) -> registered n l) ->
  accounted (j :: jobs) (map g l).
Proof.
  intros Hacc Hg Hj. apply (accounted_pointwise jobs); [exact Hacc| |].
  - intros o Hin Hc. destruct (Hg o Hin Hc) as [Hn [Ha Hp]].
    split; [split|exact Hn]; [|exact Hp].
    rewrite Ha, Hn, holds_cons. destruct Hc as [Hc _]. lia.
  - intros n Hn. simpl in Hn. apply in_app_iff in Hn. destruct Hn as [Hn|Hn].
    + apply Hj. exact Hn.
    + destruct Hacc as [_ Hr]. apply Hr. exact Hn.
Qed.

Lemma accounted_end before j after g l :
  accounted (before ++ j :: after) l ->
  (forall o, In o l -> counted (before ++ j :: after) o ->
     shifted (before ++ j :: after)
             (fun n => - Z.of_nat (count_occ string_dec (job_pools j) n)) o (g o)) ->
  accounted (before ++ after) (map g l).
Proof.
  intros Hacc Hg. apply (accounted_pointwise (before ++ j :: after)); [exact Hacc| |].
  - intros o Hin Hc. destruct (Hg o Hin Hc) as [Hn [Ha Hp]].
    split; [split|exact Hn]; [|exact Hp].
    rewrite Ha, Hn. destruct Hc as [Hc _]. rewrite Hc, holds_middle. lia.
  - intros n Hn. destruct Hacc as [_ Hr]. apply Hr. apply in_pools_middle. exact Hn.
Qed.

Lemma name_is_sym (a b : virStoragePoolObj) :
  name_is (obj_name a) b = false -> name_is (obj_name b) a = false.
Proof. unfold name_is. rewrite String.eqb_sym. exact (fun H => H). Qed.

Ltac distinct :=
  repeat match goal with
  | H : name_is (obj_name ?a) ?b = false |- _ =>
      lazymatch goal with
      | _ : name_is (obj_name b) a = false |- _ => fail
      | _ => pose proof (name_is_sym a b H)
      end
  end.

Ltac collapse :=
  repeat first
    [ rewrite map_map_replace by reflexivity
    | rewrite replace_absorb
        by (first [reflexivity
                  | match goal with H : name_is _ _ = false |- _ => exact H end]) ].

Lemma accounted_hold_one jobs j N X l :
  accounted jobs l ->
  job_pools j = [N] ->
  registered N l ->
  obj_name X = N ->
  asyncjobs X = holds N jobs + 1 ->
  pending_def_named X ->
  accounted (j :: jobs) (map (fun o => if name_is N o then X else o) l).
Proof.
  intros Hacc Hj Hreg HX Hcount Hpending.
  apply accounted_begin; [exact Hacc| |].
  - intros o _ [Hc Hd]. unfold shifted. rewrite Hj, count_occ_one.
    destruct (name_is N o) eqn:E.
    + pose proof (name_is_eq _ _ E) as Ho. rewrite Ho, HX, String.eqb_refl.
      repeat split; first [reflexivity | assumption | lia | congruence].
    + unfold name_is in E. rewrite String.eqb_sym in E. rewrite E.
      repeat split; first [reflexivity | assumption | lia | congruence].
  - intros n Hn. rewrite Hj in Hn. destruct Hn as [Hn|[]]. subst n. exact Hreg.
Qed.

Lemma accounted_hold_two jobs j N M X Y l :
  accounted jobs l ->
  job_pools j = [N; M] ->
  registered N l -> registered M l ->
  name_is N Y = false ->
  obj_name X = N -> obj_name Y = M ->
  asyncjobs X = holds N jobs + 1 ->
  asyncjobs Y = holds M jobs + 1 ->
  pending_def_named X -> pending_def_named Y ->
  accounted (j :: jobs)
            (map (fun o => if name_is M o then Y else o)
                 (map (fun o => if name_is N o then X else o) l)).
Proof.
  intros Hacc Hj HregN HregM Hne HX HY HcX HcY HpX HpY.
  assert (HMN : String.eqb M N = false) by (unfold name_is in Hne; rewrite HY in Hne; exact Hne).
  assert (HNM : String.eqb N M = false) by (rewrite String.eqb_sym; exact HMN).
  rewrite map_map. apply accounted_begin; [exact Hacc| |].
  - intros o _ [Hc Hd]. unfold shifted. rewrite Hj, count_occ_pair.
    destruct (name_is N o) eqn:EN.
    + pose proof (name_is_eq _ _ EN) as Ho.
      assert (HMX : name_is M X = false) by (unfold name_is; rewrite HX; exact HNM).
      rewrite HMX, Ho, HX, String.eqb_refl, HMN. rewrite Ho in Hc.
      repeat split; first [reflexivity | assumption | lia | congruence].
    + destruct (name_is M o) eqn:EM.
      * pose proof (name_is_eq _ _ EM) as Ho.
        rewrite Ho, HY, String.eqb_refl, HNM. rewrite Ho in Hc.
        repeat split; first [reflexivity | assumption | lia | congruence].
      * unfold name_is in EN, EM. rewrite String.eqb_sym in EN, EM.
        rewrite EN, EM. repeat split; first [reflexivity | assumption | lia | congruence].
  - intros n Hn. rewrite Hj in Hn. destruct Hn as [Hn|[Hn|[]]]; subst n; assumption.
Qed.

Ltac hold_side :=
  first
    [ reflexivity
    | assumption
    | match goal with
      | H : find _ _ = Some _ |- registered _ _ => exact (found_registered _ _ _ H)
      | H : virStoragePoolObjFindByUUID _ _ = Some _ |- registered _ _ =>
          exact (found_registered _ _ _ H)
      | H : virStoragePoolObjFindByName _ _ = Some _ |- registered _ _ =>
          exact (found_registered _ _ _ H)
      | H : counted _ _ |- _ = _ + 1 => exact (f_equal (fun z => z + 1) (proj1 H))
      | H : counted _ _ |- pending_def_named _ => exact (proj2 H)
      | H : name_is _ _ = false |- name_is _ _ = false => exact H
      end ].

Lemma storageVolCreateXMLFrom_locked_accounted env pool xmldesc volsrc flags jobs s r s' :
  accounted jobs (pools s) ->
  storageVolCreateXMLFrom_locked env pool xmldesc volsrc flags s = (r, s') ->
  accounted match r with
            | inr job => PendingClone job :: jobs
            | inl _ => jobs
            end (pools s').
Proof.
  intros Hacc Hrun. revert Hrun.
  apply (wp_run _ (fun r s' =>
                     accounted match r with
                               | inr job => PendingClone job :: jobs
                               | inl _ => jobs
                               end (pools s'))).
  destruct s as [l cd ad sd ev fs tr]. simpl in Hacc.
  unfold storageVolCreateXMLFrom_locked. wp_go; norm_state; found; peel.
  all: distinct; collapse.
  all: first [ apply accounted_hold_one; hold_side
             | apply accounted_hold_two; hold_side ].
Qed.

Lemma accounted_release_one before j after N X l :
  accounted (before ++ j :: after) l ->
  job_pools j = [N] ->
  obj_name X = N ->
  asyncjobs X = holds N (before ++ j :: after) - 1 ->
  pending_def_named X ->
  accounted (before ++ after) (map (fun o => if name_is N o then X else o) l).
Proof.
  intros Hacc Hj HX Hcount Hpending.
  apply (accounted_end before j after); [exact Hacc|].
  intros o _ [Hc Hd]. unfold shifted. rewrite Hj, count_occ_one.
  destruct (name_is N o) eqn:E.
  - pose proof (name_is_eq _ _ E) as Ho. rewrite Ho, HX, String.eqb_refl.
    rewrite Ho in Hc.
    repeat split; first [reflexivity | assumption | lia | congruence].
  - unfold name_is in E. rewrite String.eqb_sym in E. rewrite E.
    repeat split; first [reflexivity | assumption | lia | congruence].
Qed.

Lemma accounted_release_two before j after N M X Y l :
  accounted (before ++ j :: after) l ->
  (forall n, Z.of_nat (count_occ string_dec (job_pools j) n)
             = (if String.eqb N n then 1 else 0) + (if String.eqb M n then 1 else 0)) ->
  name_is N Y = false ->
  obj_name X = N -> obj_name Y = M ->
  asyncjobs X = holds N (before ++ j :: after) - 1 ->
  asyncjobs Y = holds M (before ++ j :: after) - 1 ->
  pending_def_named X -> pending_def_named Y ->
  accounted (before ++ after)
            (map (fun o => if name_is M o then Y else o)
                 (map (fun o => if name_is N o then X else o) l)).
Proof.
  intros Hacc Hj Hne HX HY HcX HcY HpX HpY.
  assert (HMN : String.eqb M N = false) by (unfold name_is in Hne; rewrite HY in Hne; exact Hne).
  assert (HNM : String.eqb N M = false) by (rewrite String.eqb_sym; exact HMN).
  rewrite map_map. apply (accounted_end before j after); [exact Hacc|].
  intros o _ [Hc Hd]. unfold shifted. rewrite Hj.
  destruct (name_is N o) eqn:EN.
  - pose proof (name_is_eq _ _ EN) as Ho.
    assert (HMX : name_is M X = false) by (unfold name_is; rewrite HX; exact HNM).
    rewrite HMX, Ho, HX, String.eqb_refl, HMN. rewrite Ho in Hc.
    repeat split; first [reflexivity | assumption | lia | congruence].
  - destruct (name_is M o) eqn:EM.
    + pose proof (name_is_eq _ _ EM) as Ho.
      rewrite Ho, HY, String.eqb_refl, HNM. rewrite Ho in Hc.
      repeat split; first [reflexivity | assumption | lia | congruence].
    + unfold name_is in EN, EM. rewrite String.eqb_sym in EN, EM.
      rewrite EN, EM. repeat split; first [reflexivity | assumption | lia | congruence].
Qed.

Lemma job_pools_registered before j after l n :
  accounted (before ++ j :: after) l -> In n (job_pools j) -> registered n l.
Proof.
  intros [_ Hr] Hin. apply Hr. rewrite map_app, concat_app, in_app_iff. right.
  simpl. apply in_app_iff. left. exact Hin.
Qed.

Lemma storageVolCreateXMLFrom_relocked_accounted job buildret before after s :
  accounted (before ++ PendingClone job :: after) (pools s) ->
  NoDup (job_pools (PendingClone job)) ->
  accounted (before ++ after)
            (pools (snd (storageVolCreateXMLFrom_relocked job buildret s))).
Proof.
  intros Hacc Hnodup. apply (wp_state _ (fun s' => accounted _ (pools s'))).
  destruct s as [l cd ad sd ev fs tr]. simpl in Hacc.
  assert (Hdest : find (name_is (clone_pool job)) l <> None).
  { apply registered_find. eapply job_pools_registered; [exact Hacc|]. left. reflexivity. }
  assert (Hsrc : forall m, clone_srcpool job = Some m ->
                           find (name_is m) l <> None /\ clone_pool job <> m).
  { intros m Hm. split.
    - apply registered_find. eapply job_pools_registered; [exact Hacc|].
      simpl. rewrite Hm. right. left. reflexivity.
    - simpl in Hnodup. rewrite Hm in Hnodup. inversion Hnodup as [|? ? Hnot _]. subst.
      intros E. apply Hnot. left. symmetry. exact E. }
  unfold storageVolCreateXMLFrom_relocked. wp_go; norm_state; found;
    try (exfalso; apply Hdest; assumption);
    try (exfalso; eapply (proj1 (Hsrc _ eq_refl)); eassumption).
  all: repeat match goal with
       | H : virStoragePoolObjFindByName _ _ = Some _ |- _ =>
           let Hn := fresh "Hname" in
           pose proof (find_name_is _ _ _ H) as Hn; apply found_registered in H
       end.
  all: try match goal with
       | Ha : obj_name ?a = clone_pool _, Hb : obj_name ?b = ?m |- _ =>
           assert (name_is (obj_name a) b = false)
             by (unfold name_is; apply String.eqb_neq; rewrite Ha, Hb;
                 intros E; exact (proj2 (Hsrc _ eq_refl) (eq_sym E)))
       end.
  all: distinct; collapse.
  all: first
         [ apply (accounted_release_two before (PendingClone job) after)
         | apply (accounted_release_one before (PendingClone job) after) ];
       try assumption.
  all: try match goal with
       | |- job_pools _ = _ =>
           cbn [job_pools];
           match goal with Hs : clone_srcpool _ = _ |- _ => rewrite Hs end;
           repeat match goal with Hn : obj_name _ = _ |- _ => rewrite <- Hn; clear Hn end;
           reflexivity
       | |- forall n, _ = _ =>
           intros n; cbn [job_pools];
           match goal with Hs : clone_srcpool _ = _ |- _ => rewrite Hs end;
           rewrite count_occ_pair;
           repeat match goal with Hn : obj_name _ = _ |- _ => rewrite <- Hn; clear Hn end;
           first [reflexivity | apply Z.add_comm]
       end.
  all: try reflexivity.
  all: try match goal with
       | H : counted _ _ |- _ = _ - 1 => exact (f_equal (fun z => z - 1) (proj1 H))
       | H : counted _ _ |- pending_def_named _ => exact (proj2 H)
       | H : name_is _ _ = false |- name_is _ _ = false => exact H
       end.
Qed.

Lemma storageVolCreateXMLFrom_locked_distinct env pool xmldesc volsrc flags s job s' :
  storageVolCreateXMLFrom_locked env pool xmldesc volsrc flags s = (inr job, s') ->
  NoDup (job_pools (PendingClone job)).
Proof.
  apply (wp_run _ (fun r _ => match r with
                              | inr job => NoDup (job_pools (PendingClone job))
                              | inl _ => True
                              end)).
  destruct s as [l cd ad sd ev fs tr].
  unfold storageVolCreateXMLFrom_locked. wp_go; norm_state; try exact I.
  all: cbn [job_pools clone_pool clone_srcpool option_map].
  all: repeat first [apply NoDup_cons | apply NoDup_nil].
  all: first [ solve [ intros [] ]
             | intros [E|[]];
               match goal with
               | H : name_is _ _ = false |- _ =>
                   unfold name_is in H; apply String.eqb_neq in H; apply H;
                   first [exact E | symmetry; exact E]
               end ].
Qed.

(** ** Reachable states *)

Lemma exec_accounted env c jobs s :
  accounted jobs (pools s) -> accounted jobs (pools (exec env c s)).
Proof.
  destruct c; simpl.
  - apply storagePoolCreateXML_accounted.
  - apply storagePoolDefineXML_accounted.
  - apply storagePoolUndefine_accounted.
  - apply storagePoolCreate_accounted.
  - apply storagePoolBuild_accounted.
  - apply storagePoolDestroy_accounted.
  - apply storagePoolDelete_accounted.
  - apply storagePoolRefresh_accounted.
  - apply storageVolDelete_accounted.
  - apply storageVolResize_accounted.
  - apply storageVolWipePattern_accounted.
  - apply storageVolWipePattern_accounted.
  - apply virStorageVolPoolRefreshThread_accounted.
Qed.

Lemma Forall_middle {A} (P : A -> Prop) before x after :
  Forall P (before ++ x :: after) -> P x /\ Forall P (before ++ after).
Proof.
  rewrite !Forall_app. intros [Hb Ha]. inversion Ha; subst. auto.
Qed.

Lemma step_consistent env x y :
  step env x y -> consistent x -> consistent y.
Proof.
  intros Hstep [Hacc Hjobs]. destruct Hstep; simpl in *; split; simpl.
  - apply exec_accounted. exact Hacc.
  - exact Hjobs.
  - exact (storageVolCreateXML_locked_accounted _ _ _ _ _ _ _ _ Hacc H).
  - exact Hjobs.
  - exact (storageVolCreateXML_locked_accounted _ _ _ _ _ _ _ _ Hacc H).
  - exact Hjobs.
  - exact (storageVolCreateXML_locked_accounted _ _ _ _ _ _ _ _ Hacc H).
  - constructor; [|exact Hjobs]. simpl. repeat constructor. intros [].
  - apply storageVolCreateXML_relocked_accounted. exact Hacc.
  - apply (Forall_middle _ _ _ _ Hjobs).
  - exact (storageVolCreateXMLFrom_locked_accounted _ _ _ _ _ _ _ _ _ Hacc H).
  - exact Hjobs.
  - exact (storageVolCreateXMLFrom_locked_accounted _ _ _ _ _ _ _ _ _ Hacc H).
  - constructor; [|exact Hjobs].
    exact (storageVolCreateXMLFrom_locked_distinct _ _ _ _ _ _ _ _ H).
  - apply storageVolCreateXMLFrom_relocked_accounted; [exact Hacc|].
    apply (Forall_middle _ _ _ _ Hjobs).
  - apply (Forall_middle _ _ _ _ Hjobs).
Qed.

Lemma at_rest_consistent s0 : at_rest s0 -> consistent (s0, []).
Proof.
  intros Hrest. split; [split|constructor]; simpl.
  - unfold at_rest in Hrest. rewrite Forall_forall in *. intros o Hin.
    destruct (Hrest o Hin) as [Hz Hd]. split; [|exact Hd]. rewrite Hz. reflexivity.
  - intros n [].
Qed.

Lemma reachable_consistent env s0 x :
  at_rest s0 -> reachable env s0 x -> consistent x.
Proof.
  intros Hrest Hreach. induction Hreach.
  - apply at_rest_consistent. exact Hrest.
  - eapply step_consistent; eassumption.
Qed.

(** ** The counter across a build *)

Lemma find_replace (n N : string) (X : virStoragePoolObj) l :
  obj_name X = N ->
  find (name_is n) (map (fun o => if name_is N o then X else o) l)
  = if String.eqb N n
    then option_map (fun _ => X) (find (name_is n) l)
    else find (name_is n) l.
Proof.
  intros HX. induction l as [|a l IH]; simpl.
  - destruct (String.eqb N n); reflexivity.
  - destruct (name_is N a) eqn:EN.
    + pose proof (name_is_eq _ _ EN) as Ha.
      assert (H1 : name_is n X = String.eqb N n) by (unfold name_is; rewrite HX; reflexivity).
      assert (H2 : name_is n a = String.eqb N n) by (unfold name_is; rewrite Ha; reflexivity).
      rewrite H1, H2.
      destruct (String.eqb N n) eqn:E; [reflexivity|]. rewrite IH. reflexivity.
    + destruct (name_is n a) eqn:En.
      * pose proof (name_is_eq _ _ En) as Ha.
        destruct (String.eqb N n) eqn:E; [|reflexivity].
        apply String.eqb_eq in E. subst N. congruence.
      * rewrite IH. reflexivity.
Qed.

Lemma find_replace_here (N : string) (X : virStoragePoolObj) l :
  obj_name X = N ->
  registered N l ->
  find (name_is N) (map (fun o => if name_is N o then X else o) l) = Some X.
Proof.
  intros HX Hreg. rewrite find_replace by exact HX. rewrite String.eqb_refl.
  destruct (find (name_is N) l) eqn:E; [reflexivity|].
  exfalso. exact (registered_find _ _ Hreg E).
Qed.

Lemma find_replace_other (n N : string) (X : virStoragePoolObj) l :
  obj_name X = N ->
  String.eqb N n = false ->
  find (name_is n) (map (fun o => if name_is N o then X else o) l)
  = find (name_is n) l.
Proof.
  intros HX Hne. rewrite find_replace by exact HX. rewrite Hne. reflexivity.
Qed.

Lemma registered_map N X n l :
  obj_name X = N -> registered n l ->
  registered n (map (fun o => if name_is N o then X else o) l).
Proof. intros. apply registered_replace; assumption. Qed.

Lemma storageVolCreateXML_locked_increments env pool xmldesc flags s job s' :
  storageVolCreateXML_locked env pool xmldesc flags s = (inr (VolBuilding job), s') ->
  exists obj,
    virStoragePoolObjFindByUUID (pools s) (pool_uuid pool) = Some obj
    /\ obj_name obj = job_pool job
    /\ counter (job_pool job) s' = Some (asyncjobs obj + 1)
    /\ ~ In (CallBuildVol (job_pool job) (job_vol job))
            (skipn (List.length (trace s)) (trace s')).
Proof.
  unfold counter, virStoragePoolObjFindByName.
  apply (wp_run _ (fun r s' =>
    match r with
    | inr (VolBuilding job) =>
        exists obj,
          virStoragePoolObjFindByUUID (pools s) (pool_uuid pool) = Some obj
          /\ obj_name obj = job_pool job
          /\ option_map asyncjobs (find (name_is (job_pool job)) (pools s'))
             = Some (asyncjobs obj + 1)
          /\ ~ In (CallBuildVol (job_pool job) (job_vol job))
                  (skipn (List.length (trace s)) (trace s'))
    | _ => True
    end)).
  destruct s as [l cd ad sd ev fs tr].
  unfold storageVolCreateXML_locked. wp_go; norm_state; try exact I.
  rewrite ?map_map_replace by reflexivity.
  exists v; split; [reflexivity|]; split; [reflexivity|]; split.
  { cbn [job_pool]; norm_obj.
        rewrite find_replace_here;
        [reflexivity | reflexivity | exact (found_registered _ _ _ Heqo)]. }
  cbn [job_pool job_vol]. rewrite skipn_app, skipn_all, Nat.sub_diag. simpl.
  intros [E|[]]. discriminate.
Qed.

Lemma storageVolCreateXML_relocked_decrements job buildret s obj :
  virStoragePoolObjFindByName (pools s) (job_pool job) = Some obj ->
  counter (job_pool job) (snd (storageVolCreateXML_relocked job buildret s))
  = Some (asyncjobs obj - 1).
Proof.
  intros Hfind. unfold counter, virStoragePoolObjFindByName.
  apply (wp_state _ (fun s' => option_map asyncjobs (find _ (pools s')) = _)).
  destruct s as [l cd ad sd ev fs tr]. simpl in Hfind.
  unfold storageVolCreateXML_relocked. wp_go; norm_state;
    try congruence.
  all: rewrite ?map_map_replace by reflexivity.
  all: match goal with
       | H : virStoragePoolObjFindByName _ _ = Some _ |- _ =>
           pose proof (find_name_is _ _ _ H) as Hname;
           pose proof (found_registered _ _ _ H) as Hreg
       end.
  all: assert (obj = v) by congruence; subst obj.
  all: rewrite <- Hname; norm_obj.
  all: rewrite find_replace_here; [reflexivity | reflexivity | exact Hreg].
Qed.

Ltac lookup :=
  repeat first
    [ rewrite find_replace_here
        by (first [ reflexivity
                  | assumption
                  | apply registered_map; [reflexivity | assumption] ])
    | rewrite find_replace_other
        by (first [ reflexivity
                  | match goal with
                    | H : name_is _ _ = false |- _ => exact H
                    end ]) ].

Ltac registered_facts :=
  repeat match goal with
  | H : virStoragePoolObjFindByUUID ?l _ = Some ?o |- _ =>
      lazymatch goal with
      | _ : registered (obj_name o) l |- _ => fail
      | _ => pose proof (found_registered _ _ _ H)
      end
  | H : virStoragePoolObjFindByName ?l _ = Some ?o |- _ =>
      lazymatch goal with
      | _ : registered (obj_name o) l |- _ => fail
      | _ => pose proof (found_registered _ _ _ H)
      end
  end.

Lemma storageVolCreateXMLFrom_locked_increments
      env pool xmldesc volsrc flags s job s' :
  storageVolCreateXMLFrom_locked env pool xmldesc volsrc flags s = (inr job, s') ->
  exists obj,
    virStoragePoolObjFindByUUID (pools s) (pool_uuid pool) = Some obj
    /\ obj_name obj = clone_pool job
    /\ counter (clone_pool job) s' = Some (asyncjobs obj + 1)
    /\ match clone_srcpool job with
       | Some m =>
           exists objsrc,
             virStoragePoolObjFindByName (pools s) (volh_pool volsrc) = Some objsrc
             /\ obj_name objsrc = m
             /\ counter m s' = Some (asyncjobs objsrc + 1)
       | None => True
       end.
Proof.
  unfold counter, virStoragePoolObjFindByName.
  apply (wp_run _ (fun r s' =>
    match r with
    | inr job =>
        exists obj,
          virStoragePoolObjFindByUUID (pools s) (pool_uuid pool) = Some obj
          /\ obj_name obj = clone_pool job
          /\ option_map asyncjobs (find (name_is (clone_pool job)) (pools s'))
             = Some (asyncjobs obj + 1)
          /\ match clone_srcpool job with
             | Some m =>
                 exists objsrc,
                   find (name_is (volh_pool volsrc)) (pools s) = Some objsrc
                   /\ obj_name objsrc = m
                   /\ option_map asyncjobs (find (name_is m) (pools s'))
                      = Some (asyncjobs objsrc + 1)
             | None => True
             end
    | inl _ => True
    end)).
  destruct s as [l cd ad sd ev fs tr].
  unfold storageVolCreateXMLFrom_locked. wp_go; norm_state; try exact I.
  all: distinct; collapse; registered_facts.
  all: cbn [clone_pool clone_srcpool option_map]; norm_obj.
  all: eexists; split; [reflexivity|]; split; [reflexivity|]; split.
  all: try exact I.
  all: norm_obj; lookup.
  all: try reflexivity.
  all: match goal with
       | H : virStoragePoolObjFindByName _ _ = Some ?o |- exists _, _ =>
           exists o; split; [exact H|]; split; reflexivity
       end.
Qed.

Lemma storageVolCreateXMLFrom_relocked_decrements job buildret s obj :
  NoDup (job_pools (PendingClone job)) ->
  virStoragePoolObjFindByName (pools s) (clone_pool job) = Some obj ->
  match clone_srcpool job with
  | Some m => virStoragePoolObjFindByName (pools s) m <> None
  | None => True
  end ->
  let s' := snd (storageVolCreateXMLFrom_relocked job buildret s) in
  counter (clone_pool job) s' = Some (asyncjobs obj - 1)
  /\ forall m objsrc,
       clone_srcpool job = Some m ->
       virStoragePoolObjFindByName (pools s) m = Some objsrc ->
       counter m s' = Some (asyncjobs objsrc - 1).
Proof.
  intros Hnodup Hdest Hsrc. cbv zeta.
  unfold counter, virStoragePoolObjFindByName in *.
  apply (wp_state _ (fun s' =>
    option_map asyncjobs (find (name_is (clone_pool job)) (pools s'))
    = Some (asyncjobs obj - 1)
    /\ forall m objsrc,
         clone_srcpool job = Some m ->
         find (name_is m) (pools s) = Some objsrc ->
         option_map asyncjobs (find (name_is m) (pools s'))
         = Some (asyncjobs objsrc - 1))).
  destruct s as [l cd ad sd ev fs tr]. cbn [pools] in *.
  assert (Hne : forall m, clone_srcpool job = Some m -> clone_pool job <> m).
  { intros m Hm. simpl in Hnodup. rewrite Hm in Hnodup.
    inversion Hnodup as [|? ? Hnot _]. subst.
    intros E. apply Hnot. left. symmetry. exact E. }
  pose proof (find_name_is _ _ _ Hdest) as Hname.
  pose proof (found_registered _ _ _ Hdest) as Hreg.
  unfold storageVolCreateXMLFrom_relocked, relock, virStoragePoolObjFindByName.
  wp_go; norm_state.
  all: try (pose proof (Hne _ eq_refl) as Hdistinct).
  all: try congruence.
  all: try match goal with
       | H : Some ?v = Some ?o |- _ =>
           assert (v = o) by congruence; subst v
       end.
  all: repeat match goal with
       | H : find (name_is ?m) _ = Some ?v |- _ =>
           lazymatch goal with
           | _ : obj_name v = m |- _ => fail
           | _ => pose proof (find_name_is _ _ _ H); pose proof (found_registered _ _ _ H)
           end
       end.
  all: try match goal with
       | Hd : clone_pool ?j <> ?m, Ha : obj_name ?a = clone_pool ?j,
         Hb : obj_name ?b = ?m |- _ =>
           assert (name_is (obj_name a) b = false)
             by (unfold name_is; apply String.eqb_neq; rewrite Ha, Hb;
                 intros E; exact (Hd (eq_sym E)))
       end.
  all: distinct; collapse.
  all: split; [|intros m objsrc Hm Hfind; try discriminate].
  all: try match goal with
       | Hm : Some _ = Some _ |- _ => injection Hm as Hm; subst
       end.
  all: try match goal with
       | Hf : Some _ = Some _ |- _ => injection Hf as Hf; subst
       end.
  all: try rewrite <- Hname.
  all: norm_obj; lookup.
  all: try reflexivity.
  all: match goal with
       | H1 : find ?f ?l = Some ?a, H2 : find ?f ?l = Some ?b |- _ =>
           assert (E : a = b) by congruence; rewrite E; reflexivity
       end.
Qed.

(** ** Atomicity of pool creation *)





Lemma unlinked_absent (f : string) l :
  existsb (String.eqb f) (filter (fun p => negb (String.eqb f p)) l) = false.
Proof.
  induction l as [|a l IH]; simpl; [reflexivity|].
  destruct (String.eqb f a) eqn:E; simpl; [exact IH|]. rewrite E. exact IH.
Qed.

Lemma unlinked_subset (p f : string) l :
  existsb (String.eqb p) (filter (fun q => negb (String.eqb f q)) l) = true ->
  String.eqb f p = false /\ existsb (String.eqb p) l = true.
Proof.
  induction l as [|a l IH]; simpl; [discriminate|].
  destruct (String.eqb f a) eqn:E; simpl.
  - intros H. destruct (IH H) as [H1 H2]. rewrite H2. split; [exact H1|apply orb_true_r].
  - intros H. apply orb_true_iff in H. destruct H as [H|H].
    + apply String.eqb_eq in H. subst a. split; [exact E|].
      rewrite String.eqb_refl. reflexivity.
    + destruct (IH H) as [H1 H2]. rewrite H2. split; [exact H1|apply orb_true_r].
Qed.

Lemma written_then_unlinked (p f : string) l :
  existsb (String.eqb p)
          (filter (fun q => negb (String.eqb f q))
                  (if existsb (String.eqb f) l then l else f :: l)) = true ->
  existsb (String.eqb p) l = true.
Proof.
  intros H. apply unlinked_subset in H. destruct H as [Hne H].
  destruct (existsb (String.eqb f) l); [exact H|].
  simpl in H. rewrite String.eqb_sym in Hne. rewrite Hne in H. exact H.
Qed.


(** ** The counter on runs, and the rules of resize *)

Lemma held_positive n jobs :
  In n (List.concat (map job_pools jobs)) -> 0 < holds n jobs.
Proof.
  intros Hin. unfold holds. apply (count_occ_In string_dec) in Hin. lia.
Qed.

Lemma registered_counted jobs l n :
  accounted jobs l ->
  In n (List.concat (map job_pools jobs)) ->
  exists obj,
    virStoragePoolObjFindByName l n = Some obj
    /\ 0 < asyncjobs obj.
Proof.
  intros Hacc Hin. pose proof Hacc as [Hall Hreg].
  unfold virStoragePoolObjFindByName.
  destruct (find (name_is n) l) as [obj|] eqn:Hfind.
  - exists obj. split; [reflexivity|].
    destruct (find_some _ _ Hfind) as [Ho Hn].
    rewrite Forall_forall in Hall. destruct (Hall obj Ho) as [Hc _].
    rewrite Hc, (name_is_eq _ _ Hn). apply held_positive. exact Hin.
  - exfalso. exact (registered_find _ _ (Hreg n Hin) Hfind).
Qed.

Lemma in_pools_here n j before after :
  In n (job_pools j) ->
  In n (List.concat (map job_pools (before ++ j :: after))).
Proof.
  intros Hin. rewrite map_app, concat_app, in_app_iff. right.
  simpl. apply in_app_iff. left. exact Hin.
Qed.

(** Claim C3.  In every state that the driver reaches from a state at
    rest, the job counter of each pool is the number of builds and clones
    pending on it: it is never negative, and it is zero when no job is
    pending.  The locked section that starts a build adds one to the
    counter of the pool and makes no build call; the section that follows
    the unlocked build call takes one off, whatever status the backend
    returned.  The same holds of a clone, for the pool of the new volume
    and for the pool of the source volume when it is another pool. *)
Theorem asyncjobs_balanced (env : Env) (s0 s : virStorageDriverState)
        (jobs : list pendingJob) :
  at_rest s0 ->
  reachable env s0 (s, jobs) ->
  (forall o, In o (pools s) ->
     asyncjobs o = holds (obj_name o) jobs
     /\ 0 <= asyncjobs o
     /\ (jobs = [] -> asyncjobs o = 0))
  /\ (forall pool xmldesc flags job s',
        storageVolCreateXML_locked env pool xmldesc flags s
        = (inr (VolBuilding job), s') ->
        exists obj,
          virStoragePoolObjFindByUUID (pools s) (pool_uuid pool) = Some obj
          /\ obj_name obj = job_pool job
          /\ counter (job_pool job) s' = Some (asyncjobs obj + 1)
          /\ ~ In (CallBuildVol (job_pool job) (job_vol job))
                  (skipn (List.length (trace s)) (trace s')))
  /\ (forall job buildret before after,
        jobs = before ++ PendingBuild job :: after ->
        exists obj,
          virStoragePoolObjFindByName (pools s) (job_pool job) = Some obj
          /\ 0 < asyncjobs obj
          /\ counter (job_pool job) (snd (storageVolCreateXML_relocked job buildret s))
             = Some (asyncjobs obj - 1))
  /\ (forall pool xmldesc volsrc flags job s',
        storageVolCreateXMLFrom_locked env pool xmldesc volsrc flags s = (inr job, s') ->
        exists obj,
          virStoragePoolObjFindByUUID (pools s) (pool_uuid pool) = Some obj
          /\ obj_name obj = clone_pool job
          /\ counter (clone_pool job) s' = Some (asyncjobs obj + 1)
          /\ forall m, clone_srcpool job = Some m ->
               exists objsrc,
                 virStoragePoolObjFindByName (pools s) (volh_pool volsrc) = Some objsrc
                 /\ obj_name objsrc = m
                 /\ counter m s' = Some (asyncjobs objsrc + 1))
  /\ (forall job buildret before after,
        jobs = before ++ PendingClone job :: after ->
        let s' := snd (storageVolCreateXMLFrom_relocked job buildret s) in
        exists obj,
          virStoragePoolObjFindByName (pools s) (clone_pool job) = Some obj
          /\ 0 < asyncjobs obj
          /\ counter (clone_pool job) s' = Some (asyncjobs obj - 1)
          /\ forall m, clone_srcpool job = Some m ->
               exists objsrc,
                 virStoragePoolObjFindByName (pools s) m = Some objsrc
                 /\ 0 < asyncjobs objsrc
                 /\ counter m s' = Some (asyncjobs objsrc - 1)).
Proof.
  intros Hrest Hreach.
  destruct (reachable_consistent env s0 _ Hrest Hreach) as [Hacc Hdup].
  simpl in Hacc, Hdup.
  split; [|split; [|split; [|split]]].
  - intros o Ho. destruct Hacc as [Hall _]. rewrite Forall_forall in Hall.
    destruct (Hall o Ho) as [Hc _]. split; [exact Hc|]. split.
    + rewrite Hc. apply holds_nonneg.
    + intros ->. rewrite Hc. reflexivity.
  - intros pool xmldesc flags job s' Hrun.
    exact (storageVolCreateXML_locked_increments _ _ _ _ _ _ _ Hrun).
  - intros job buildret before after ->.
    destruct (registered_counted _ _ (job_pool job) Hacc) as [obj [Hfind Hpos]].
    { apply in_pools_here. left. reflexivity. }
    exists obj. split; [exact Hfind|]. split; [exact Hpos|].
    apply storageVolCreateXML_relocked_decrements. exact Hfind.
  - intros pool xmldesc volsrc flags job s' Hrun.
    destruct (storageVolCreateXMLFrom_locked_increments _ _ _ _ _ _ _ _ Hrun)
      as [obj [H1 [H2 [H3 H4]]]].
    exists obj. split; [exact H1|]. split; [exact H2|]. split; [exact H3|].
    intros m Hm. rewrite Hm in H4. exact H4.
  - intros job buildret before after -> s'.
    assert (Hnodup : NoDup (job_pools (PendingClone job))).
    { rewrite Forall_forall in Hdup. apply Hdup. apply in_elt. }
    destruct (registered_counted _ _ (clone_pool job) Hacc) as [obj [Hfind Hpos]].
    { apply in_pools_here. left. reflexivity. }
    assert (Hsrc : forall m, clone_srcpool job = Some m ->
                   exists objsrc,
                     virStoragePoolObjFindByName (pools s) m = Some objsrc
                     /\ 0 < asyncjobs objsrc).
    { intros m Hm. apply (registered_counted _ _ m Hacc).
      apply in_pools_here. simpl. rewrite Hm. right. left. reflexivity. }
    destruct (storageVolCreateXMLFrom_relocked_decrements job buildret s obj Hnodup Hfind)
      as [Hd Hs].
    { destruct (clone_srcpool job) as [m|] eqn:Hm; [|exact I].
      destruct (Hsrc m eq_refl) as [objsrc [Hf _]]. congruence. }
    exists obj. split; [exact Hfind|]. split; [exact Hpos|]. split; [exact Hd|].
    intros m Hm. destruct (Hsrc m Hm) as [objsrc [Hf Hp]].
    exists objsrc. split; [exact Hf|]. split; [exact Hp|].
    exact (Hs m objsrc Hm Hf).
Qed.

(** Claim C4.  For a volume found in its pool: a resize whose absolute
    capacity is below the allocation of the volume fails and changes
    nothing, whatever the flags; one whose absolute capacity is below the
    capacity of the volume fails and changes nothing without the shrink
    flag; and a resize that is permitted, carries the allocate flag, and
    whose delta fits in the available space of the pool succeeds when the
    backend does: capacity and allocation of the volume become the absolute
    capacity, and the allocation and available counters of the pool move by
    the delta (in 64-bit arithmetic, and exactly when nothing wraps). *)
Theorem storageVolResize_rules (env : Env) (vol : virStorageVol) (capacity flags : Z)
        (w : virStorageDriverState) (obj : virStoragePoolObj)
        (voldef : virStorageVolDef) :
  virStoragePoolObjFindByName (pools w) (volh_pool vol) = Some obj ->
  virStorageVolDefFindByName obj (volh_name vol) = Some voldef ->
  let abs_capacity := storageVolResize_abs_capacity voldef capacity flags in
  let delta := wrap64 (abs_capacity - target_allocation voldef) in
  (abs_capacity < target_allocation voldef ->
   exists e, storageVolResize env vol capacity flags w = (inl e, w))
  /\ (abs_capacity < target_capacity voldef ->
      flag_set flags VIR_STORAGE_VOL_RESIZE_SHRINK = false ->
      exists e, storageVolResize env vol capacity flags w = (inl e, w))
  /\ (forall backend entry status d v,
        Z.land flags (Z.lnot resize_flags_supported) = 0 ->
        active obj = true ->
        virStorageBackendForType env (def_type (def obj)) = Some backend ->
        EnsureACL env AclVolResize (volh_conn vol) (def obj) (Some voldef) = true ->
        vol_in_use voldef = 0 ->
        vol_building voldef = false ->
        target_allocation voldef <= abs_capacity ->
        (target_capacity voldef <= abs_capacity
         \/ flag_set flags VIR_STORAGE_VOL_RESIZE_SHRINK = true) ->
        flag_set flags VIR_STORAGE_VOL_RESIZE_ALLOCATE = true ->
        delta <= def_available (def obj) ->
        resizeVol backend = Some entry ->
        entry obj voldef abs_capacity (resize_flags_kept flags) = (status, d, v) ->
        0 <= status ->
        exists w' obj' voldef',
          storageVolResize env vol capacity flags w = (inr tt, w')
          /\ virStoragePoolObjFindByName (pools w') (volh_pool vol) = Some obj'
          /\ virStorageVolDefFindByName obj' (volh_name vol) = Some voldef'
          /\ target_capacity voldef' = abs_capacity
          /\ target_allocation voldef' = abs_capacity
          /\ def_allocation (def obj') = wrap64 (def_allocation d + delta)
          /\ def_available (def obj') = wrap64 (def_available d - delta)
          /\ (0 <= def_allocation d -> def_allocation d + delta < 2 ^ 64 ->
              def_allocation (def obj') = def_allocation d + delta)
          /\ (delta <= def_available d < 2 ^ 64 ->
              def_available (def obj') = def_available d - delta)).
Proof.
  intros Hpool Hvol abs_capacity delta.
  split; [|split].
  - intros Hlt.
    apply (storageVolResize_rejects env vol capacity flags w obj voldef Hpool Hvol).
    left. exact Hlt.
  - intros Hlt Hshrink.
    apply (storageVolResize_rejects env vol capacity flags w obj voldef Hpool Hvol).
    right. split; assumption.
  - intros backend entry status d v H1 H2 H3 H4 H5 H6 H7 H8 H9 H10 H11 H12 H13.
    destruct (storageVolResize_allocates env vol capacity flags w obj voldef Hpool Hvol
                backend entry status d v H1 H2 H3 H4 H5 H6 H7 H8 H9 H10 H11 H12 H13)
      as [w' [obj' [voldef' [R1 [R2 [R3 [R4 [R5 [R6 R7]]]]]]]]].
    exists w', obj', voldef'.
    assert (Hdelta : 0 <= delta < 2 ^ 64).
    { unfold delta, wrap64. apply Z.mod_pos_bound. reflexivity. }
    repeat (split; [assumption|]). split.
    + intros Hlo Hhi. fold abs_capacity delta in R6. rewrite R6. unfold wrap64.
      apply Z.mod_small. lia.
    + intros Hav. fold abs_capacity delta in R7. rewrite R7. unfold wrap64.
      apply Z.mod_small. lia.
Qed.

(** Claim C1, on a pool of the disk type whose backend can resize a volume.
    Deleting a volume and creating one leave the allocation and available
    counters of the pool as the backend reported them (10 MiB and 90 MiB);
    a resize of the volume to 20 MiB with the allocate flag succeeds and
    moves them by the delta, to 20 MiB and 80 MiB: [storageVolResize] does
    not test the type of the pool. *)
Theorem storageVolResize_adjusts_disk_pool :
  pool_counters "p1" Sample.disk = Some (10 * Sample.MiB, 90 * Sample.MiB)
  /\ pool_counters "p1"
       (snd (storageVolDelete Sample.env (Sample.vol_handle "p1" "v1") 0 Sample.disk))
     = Some (10 * Sample.MiB, 90 * Sample.MiB)
  /\ pool_counters "p1"
       (snd (storageVolCreateXML Sample.env (Sample.handle "p1") "v2" 0 Sample.disk))
     = Some (10 * Sample.MiB, 90 * Sample.MiB)
  /\ storageVolResize Sample.env (Sample.vol_handle "p1" "v1") (20 * Sample.MiB)
       VIR_STORAGE_VOL_RESIZE_ALLOCATE Sample.disk
     = (inr tt,
        snd (storageVolResize Sample.env (Sample.vol_handle "p1" "v1") (20 * Sample.MiB)
               VIR_STORAGE_VOL_RESIZE_ALLOCATE Sample.disk))
  /\ pool_counters "p1"
       (snd (storageVolResize Sample.env (Sample.vol_handle "p1" "v1") (20 * Sample.MiB)
               VIR_STORAGE_VOL_RESIZE_ALLOCATE Sample.disk))
     = Some (20 * Sample.MiB, 80 * Sample.MiB).
Proof. repeat split; vm_compute; reflexivity. Qed.

(** Claim C2, on an active persistent pool whose backend fails to refresh.
    Before the call the pool is active and its state file exists.  The
    state that [storagePoolRefresh] leaves when [refreshPool] fails is a
    reachable state with no call in flight, in which the pool is still
    registered and is inactive, and in which its state file still exists:
    the failure path stops the pool and marks it inactive without
    unlinking the file. *)
Theorem storagePoolRefresh_failure_keeps_state_file :
  let s0 := Sample.logical in
  let s1 := exec Sample.env (PoolRefresh (Sample.handle "p1") 0) s0 in
  at_rest s0
  /\ option_map active (virStoragePoolObjFindByName (pools s0) "p1") = Some true
  /\ file_exists "/run/p1.xml" s0 = true
  /\ reachable Sample.env s0 (s1, [])
  /\ fst (storagePoolRefresh Sample.env (Sample.handle "p1") 0 s0)
     = inl (Callee "refreshPool")
  /\ option_map active (virStoragePoolObjFindByName (pools s1) "p1") = Some false
  /\ virFileBuildPath Sample.env (stateDir s1) "p1" ".xml" = Some "/run/p1.xml"%string
  /\ file_exists "/run/p1.xml" s1 = true.
Proof.
  cbv zeta. split; [|split; [|split; [|split; [|split; [|split; [|split]]]]]];
    try (vm_compute; reflexivity).
  - repeat constructor. intros d Hd. discriminate Hd.
  - eapply reachable_step; [apply reachable_start|]. apply step_call.
Qed.

(** * Runs on the sample configurations *)

(** C3 on three runs: a build started on an idle pool, a clone of a
    volume inside that pool, and a clone into the pool p1 of a volume of
    another pool p2.  The counter of each pool that the job holds is one
    while the job is pending and zero after it ends, whether the backend
    call failed or not. *)
Lemma asyncjobs_balanced_witness :
  at_rest Sample.idle
  /\ at_rest Cases.both
  /\ (exists s job,
        reachable Sample.env Sample.idle (s, [PendingBuild job])
        /\ (forall o, In o (pools s) ->
              asyncjobs o = holds (obj_name o) [PendingBuild job]
              /\ 0 <= asyncjobs o
              /\ ([PendingBuild job] = [] -> asyncjobs o = 0))
        /\ counter "p1" s = Some 1
        /\ counter "p1" (snd (storageVolCreateXML_relocked job (-1) s)) = Some 0
        /\ counter "p1" (snd (storageVolCreateXML_relocked job 0 s)) = Some 0)
  /\ (exists s job,
        reachable Sample.env Sample.idle (s, [PendingClone job])
        /\ (forall o, In o (pools s) ->
              asyncjobs o = holds (obj_name o) [PendingClone job]
              /\ 0 <= asyncjobs o
              /\ ([PendingClone job] = [] -> asyncjobs o = 0))
        /\ clone_srcpool job = None
        /\ counter "p1" s = Some 1
        /\ counter "p1" (snd (storageVolCreateXMLFrom_relocked job (-1) s)) = Some 0
        /\ counter "p1" (snd (storageVolCreateXMLFrom_relocked job 0 s)) = Some 0)
  /\ (exists s job,
        reachable Sample.env Cases.both (s, [PendingClone job])
        /\ (forall o, In o (pools s) ->
              asyncjobs o = holds (obj_name o) [PendingClone job]
              /\ 0 <= asyncjobs o
              /\ ([PendingClone job] = [] -> asyncjobs o = 0))
        /\ clone_srcpool job = Some "p2"%string
        /\ counter "p1" s = Some 1
        /\ counter "p2" s = Some 1
        /\ counter "p1" (snd (storageVolCreateXMLFrom_relocked job (-1) s)) = Some 0
        /\ counter "p2" (snd (storageVolCreateXMLFrom_relocked job (-1) s)) = Some 0
        /\ counter "p1" (snd (storageVolCreateXMLFrom_relocked job 0 s)) = Some 0
        /\ counter "p2" (snd (storageVolCreateXMLFrom_relocked job 0 s)) = Some 0).
Proof.
  assert (Hrest : at_rest Sample.idle).
  { repeat constructor. intros d Hd. discriminate Hd. }
  assert (Hboth : at_rest Cases.both).
  { repeat constructor; intros d Hd; discriminate Hd. }
  split; [exact Hrest|]. split; [exact Hboth|].
  split; [|split].
  - assert (Hrun : exists s job,
               reachable Sample.env Sample.idle (s, [PendingBuild job])
               /\ counter "p1" s = Some 1
               /\ counter "p1" (snd (storageVolCreateXML_relocked job (-1) s)) = Some 0
               /\ counter "p1" (snd (storageVolCreateXML_relocked job 0 s)) = Some 0).
    { eexists _, _. split.
      - eapply reachable_step; [apply reachable_start|].
        eapply (step_build_begin Sample.env (Sample.handle "p1") "v2" 0).
        vm_compute. reflexivity.
      - repeat split; vm_compute; reflexivity. }
    destruct Hrun as [s [job [Hreach Hcount]]].
    exists s, job.
    split; [exact Hreach|].
    split; [exact (proj1 (asyncjobs_balanced _ _ _ _ Hrest Hreach))|].
    exact Hcount.
  - assert (Hrun : exists s job,
               reachable Sample.env Sample.idle (s, [PendingClone job])
               /\ clone_srcpool job = None
               /\ counter "p1" s = Some 1
               /\ counter "p1" (snd (storageVolCreateXMLFrom_relocked job (-1) s))
                  = Some 0
               /\ counter "p1" (snd (storageVolCreateXMLFrom_relocked job 0 s))
                  = Some 0).
    { eexists _, _. split.
      - eapply reachable_step; [apply reachable_start|].
        eapply (step_clone_begin Sample.env (Sample.handle "p1") "v2"
                  (Sample.vol_handle "p1" "v1") 0).
        vm_compute. reflexivity.
      - repeat split; vm_compute; reflexivity. }
    destruct Hrun as [s [job [Hreach Hcount]]].
    exists s, job.
    split; [exact Hreach|].
    split; [exact (proj1 (asyncjobs_balanced _ _ _ _ Hrest Hreach))|].
    exact Hcount.
  - assert (Hrun : exists s job,
               reachable Sample.env Cases.both (s, [PendingClone job])
               /\ clone_srcpool job = Some "p2"%string
               /\ counter "p1" s = Some 1
               /\ counter "p2" s = Some 1
               /\ counter "p1" (snd (storageVolCreateXMLFrom_relocked job (-1) s))
                  = Some 0
               /\ counter "p2" (snd (storageVolCreateXMLFrom_relocked job (-1) s))
                  = Some 0
               /\ counter "p1" (snd (storageVolCreateXMLFrom_relocked job 0 s))
                  = Some 0
               /\ counter "p2" (snd (storageVolCreateXMLFrom_relocked job 0 s))
                  = Some 0).
    { eexists _, _. split.
      - eapply reachable_step; [apply reachable_start|].
        eapply (step_clone_begin Sample.env (Sample.handle "p1") "v2"
                  (Sample.vol_handle "p2" "v1") 0).
        vm_compute. reflexivity.
      - repeat split; vm_compute; reflexivity. }
    destruct Hrun as [s [job [Hreach Hcount]]].
    exists s, job.
    split; [exact Hreach|].
    split; [exact (proj1 (asyncjobs_balanced _ _ _ _ Hboth Hreach))|].
    exact Hcount.
Defined.

(** C4 on three resizes: below the allocation, below the capacity without
    the shrink flag, and a permitted shrink with allocation. *)
Lemma storageVolResize_rules_witness :
  (exists e,
      storageVolResize Sample.env (Sample.vol_handle "p1" "v1") (5 * Sample.MiB)
        VIR_STORAGE_VOL_RESIZE_SHRINK Sample.idle = (inl e, Sample.idle))
  /\ (exists e,
         storageVolResize Sample.env (Sample.vol_handle "p1" "thin") (5 * Sample.MiB) 0
           (Sample.driver_with (Sample.pool_with [Sample.thin]))
         = (inl e, Sample.driver_with (Sample.pool_with [Sample.thin])))
  /\ (exists w' obj' voldef',
         storageVolResize Sample.env (Sample.vol_handle "p1" "thin") (6 * Sample.MiB)
           (Z.lor VIR_STORAGE_VOL_RESIZE_ALLOCATE VIR_STORAGE_VOL_RESIZE_SHRINK)
           (Sample.driver_with (Sample.pool_with [Sample.thin]))
         = (inr tt, w')
         /\ virStoragePoolObjFindByName (pools w') "p1" = Some obj'
         /\ virStorageVolDefFindByName obj' "thin" = Some voldef'
         /\ target_capacity voldef' = 6 * Sample.MiB
         /\ target_allocation voldef' = 6 * Sample.MiB
         /\ def_allocation (def obj') = 14 * Sample.MiB
         /\ def_available (def obj') = 86 * Sample.MiB).
Proof.
  split; [|split].
  - apply (proj1 (storageVolResize_rules Sample.env (Sample.vol_handle "p1" "v1")
                    (5 * Sample.MiB) VIR_STORAGE_VOL_RESIZE_SHRINK Sample.idle
                    (Sample.pool_obj "p1" VIR_STORAGE_POOL_DIR 0) Sample.v1
                    eq_refl eq_refl)).
    vm_compute. reflexivity.
  - apply (proj1 (proj2 (storageVolResize_rules Sample.env
                           (Sample.vol_handle "p1" "thin") (5 * Sample.MiB) 0
                           (Sample.driver_with (Sample.pool_with [Sample.thin]))
                           (Sample.pool_with [Sample.thin]) Sample.thin
                           eq_refl eq_refl))).
    + vm_compute. reflexivity.
    + vm_compute. reflexivity.
  - destruct (proj2 (proj2 (storageVolResize_rules Sample.env
                              (Sample.vol_handle "p1" "thin") (6 * Sample.MiB)
                              (Z.lor VIR_STORAGE_VOL_RESIZE_ALLOCATE
                                     VIR_STORAGE_VOL_RESIZE_SHRINK)
                              (Sample.driver_with (Sample.pool_with [Sample.thin]))
                              (Sample.pool_with [Sample.thin]) Sample.thin
                              eq_refl eq_refl))
                     Sample.dir_backend Sample.keep_vol 0
                     (def (Sample.pool_with [Sample.thin])) Sample.thin)
      as [w' [obj' [voldef' [R1 [R2 [R3 [R4 [R5 [_ [_ [R6 R7]]]]]]]]]]].
    all: try (vm_compute; reflexivity).
    + vm_compute. discriminate.
    + right. reflexivity.
    + vm_compute. discriminate.
    + vm_compute. discriminate.
    + exists w', obj', voldef'.
      repeat (split; [assumption|]). split.
      * rewrite R6; [reflexivity | vm_compute; discriminate | vm_compute; reflexivity].
      * rewrite R7; [reflexivity | split; [vm_compute; discriminate | vm_compute; reflexivity]].
Defined.

(** C5 on the sample driver: destroying its pool while one job runs. *)
Lemma storagePoolDestroy_busy_witness :
  storagePoolDestroy Sample.env (Sample.handle "p1") Sample.busy
  = (inl (Reported VIR_ERR_INTERNAL_ERROR "pool 'p1' has asynchronous jobs running."),
     Sample.busy)
  /\ is_invalid_state
       (Reported VIR_ERR_INTERNAL_ERROR "pool 'p1' has asynchronous jobs running.")
     = true.
Proof.
  destruct (storagePoolDestroy_busy Sample.env (Sample.handle "p1") Sample.busy
              (Sample.pool_obj "p1" VIR_STORAGE_POOL_DIR 1))
    as [e [Hrun [Hclass He]]].
  - reflexivity.
  - reflexivity.
  - discriminate.
  - reflexivity.
  - rewrite (He eq_refl) in Hrun, Hclass. split; [exact Hrun | exact Hclass].
Defined.


(** C7 on a run: a volume without capacity on a pool that cannot build. *)
Lemma storageVolCreateXML_capacity_required_witness :
  storageVolCreateXML Sample.env (Sample.handle "p1") "nocap" 0
    (Sample.driver_with (Sample.pool_obj "p1" VIR_STORAGE_POOL_FS 0))
  = (inl (Reported VIR_ERR_NO_SUPPORT "volume capacity required for this storage pool"),
     Sample.driver_with (Sample.pool_obj "p1" VIR_STORAGE_POOL_FS 0)).
Proof.
  eapply (storageVolCreateXML_capacity_required Sample.env (Sample.handle "p1")
            "nocap" 0 _ (Sample.pool_obj "p1" VIR_STORAGE_POOL_FS 0)
            Sample.nobuild_backend).
  - reflexivity.
  - reflexivity.
  - reflexivity.
  - reflexivity.
  - reflexivity.
  - reflexivity.
  - reflexivity.
Defined.

(** C8 on two runs: the refresh after an upload, on a busy pool and on an
    idle one. *)
Lemma refresh_thread_spec_witness :
  virStorageVolPoolRefreshThread Sample.env (mkStreamInfo "p1" (Some "/data/p1/v1"%string))
    Sample.busy = (inr tt, Sample.busy)
  /\ (let r := virStorageVolPoolRefreshThread Sample.env
                 (mkStreamInfo "p1" (Some "/data/p1/v1"%string)) Sample.idle in
      fst r = inr tt
      /\ storageEventState (snd r) = [virStoragePoolEventRefresh "p1" "uuid-p1"]
      /\ trace (snd r) = [CallRefreshPool "p1"]).
Proof.
  split.
  - apply (proj1 (refresh_thread_spec Sample.env (mkStreamInfo "p1" (Some "/data/p1/v1"%string))
                    Sample.busy (Sample.pool_obj "p1" VIR_STORAGE_POOL_DIR 1)
                    ltac:(vm_compute; discriminate) eq_refl)).
    reflexivity.
  - cbv zeta.
    rewrite (proj1 (proj2 (refresh_thread_spec Sample.env
                             (mkStreamInfo "p1" (Some "/data/p1/v1"%string))
                             Sample.idle (Sample.pool_obj "p1" VIR_STORAGE_POOL_DIR 0)
                             ltac:(vm_compute; discriminate) eq_refl))
               eq_refl Sample.dir_backend eq_refl).
    repeat split.
Defined.

(** C10 on two requests: shrinking a 10 MiB volume by 20 MiB and by 4 MiB. *)
Lemma abs_capacity_clamped_witness :
  storageVolResize_abs_capacity Sample.v1 (20 * Sample.MiB)
    (Z.lor VIR_STORAGE_VOL_RESIZE_DELTA VIR_STORAGE_VOL_RESIZE_SHRINK) = 0
  /\ storageVolResize_abs_capacity Sample.v1 (4 * Sample.MiB)
       (Z.lor VIR_STORAGE_VOL_RESIZE_DELTA VIR_STORAGE_VOL_RESIZE_SHRINK)
     = 6 * Sample.MiB.
Proof.
  split.
  - apply (abs_capacity_clamped Sample.v1 (20 * Sample.MiB)
             (Z.lor VIR_STORAGE_VOL_RESIZE_DELTA VIR_STORAGE_VOL_RESIZE_SHRINK)).
    + split; [vm_compute; discriminate | vm_compute; reflexivity].
    + split; [vm_compute; discriminate | vm_compute; reflexivity].
    + reflexivity.
    + reflexivity.
    + vm_compute. discriminate.
  - rewrite (proj1 (abs_capacity_clamped Sample.v1 (4 * Sample.MiB)
                      (Z.lor VIR_STORAGE_VOL_RESIZE_DELTA VIR_STORAGE_VOL_RESIZE_SHRINK)
                      ltac:(split; [vm_compute; discriminate | vm_compute; reflexivity])
                      ltac:(split; [vm_compute; discriminate | vm_compute; reflexivity])
                      eq_refl eq_refl)).
    reflexivity.
Defined.

(** * Further properties of the driver *)

(** ** Outcomes of the pool operations *)

Lemma find_removed (n : string) l :
  find (name_is n) (filter (fun o => negb (name_is n o)) l) = None.
Proof.
  induction l as [|a l IH]; simpl; [reflexivity|].
  destruct (name_is n a) eqn:E; simpl; [exact IH|]. rewrite E. exact IH.
Qed.

Lemma absent_filter (p : string) (g : string -> bool) l :
  existsb (String.eqb p) l = false ->
  existsb (String.eqb p) (filter g l) = false.
Proof.
  induction l as [|a l IH]; simpl; [reflexivity|].
  intros H. apply orb_false_iff in H. destruct H as [Ha Hl].
  destruct (g a); simpl; [rewrite Ha|]; auto.
Qed.

(** Branches that the tests of the code exclude. *)
Ltac impossible :=
  try solve [ exfalso;
              match goal with
              | H : negb false = false |- _ => discriminate H
              | H : negb true = true |- _ => discriminate H
              | H : true = false |- _ => discriminate H
              | H : false = true |- _ => discriminate H
              | H : inl _ = inr _ |- _ => discriminate H
              | H : inr _ = inl _ |- _ => discriminate H
              | H : Some _ = None |- _ => discriminate H
              | H : None = Some _ |- _ => discriminate H
              end ].

Lemma unlinked_other (p f : string) l :
  p <> f ->
  existsb (String.eqb p) (filter (fun q => negb (String.eqb f q)) l)
  = existsb (String.eqb p) l.
Proof.
  intros Hne. induction l as [|a l IH]; simpl; [reflexivity|].
  destruct (String.eqb f a) eqn:E; simpl.
  - apply String.eqb_eq in E. subst a.
    destruct (String.eqb p f) eqn:E'; [|exact IH].
    apply String.eqb_eq in E'. contradiction.
  - rewrite IH. reflexivity.
Qed.

(** X7.  If storagePoolUndefine succeeds, the pool was inactive with no
    running job; after the call no pool of that name is registered and one
    UNDEFINED lifecycle event has been appended.  No path of the file
    system other than the pool's config file and its autostart link has
    changed. *)
Theorem storagePoolUndefine_success (env : Env) (pool : virStoragePool)
        (s s' : virStorageDriverState) :
  storagePoolUndefine env pool s = (inr tt, s') ->
  exists obj,
    virStoragePoolObjFindByUUID (pools s) (pool_uuid pool) = Some obj
    /\ active obj = false
    /\ asyncjobs obj <= 0
    /\ virStoragePoolObjFindByName (pools s') (obj_name obj) = None
    /\ (forall p, configFile obj <> Some p -> autostartLink obj <> Some p ->
                  file_exists p s' = file_exists p s)
    /\ storageEventState s'
       = storageEventState s
         ++ [virStoragePoolEventLifecycle (obj_name obj) (def_uuid (def obj))
               VIR_STORAGE_POOL_EVENT_UNDEFINED 0].
Proof.
  apply (wp_run _ (fun r s' =>
    match r with
    | inr _ =>
      exists obj,
        virStoragePoolObjFindByUUID (pools s) (pool_uuid pool) = Some obj
        /\ active obj = false
        /\ asyncjobs obj <= 0
        /\ find (name_is (obj_name obj)) (pools s') = None
        /\ (forall p, configFile obj <> Some p -> autostartLink obj <> Some p ->
                      existsb (String.eqb p) (files s')
                      = existsb (String.eqb p) (files s))
        /\ storageEventState s'
           = storageEventState s
             ++ [virStoragePoolEventLifecycle (obj_name obj) (def_uuid (def obj))
                   VIR_STORAGE_POOL_EVENT_UNDEFINED 0]
    | inl _ => True
    end)).
  destruct s as [l cd ad sd ev fs tr].
  unfold storagePoolUndefine. wp_go; norm_state; try exact I; impossible.
  all: exists v; split; [reflexivity|].
  all: unfold virStoragePoolObjIsActive, virStoragePoolObjGetAsyncjobs,
         virStoragePoolObjGetAutostartLink in *.
  all: split; [assumption|]; split; [apply Z.ltb_ge; assumption|].
  all: split; [apply find_removed|]; split; [|reflexivity].
  all: unfold virStoragePoolObjDeleteDef in *.
  all: intros ? Hcfg Hlink; unfold file_exists; norm_state.
  all: rewrite ?unlinked_other by congruence; reflexivity.
Qed.

Lemma in_replace (N : string) (X o : virStoragePoolObj) l :
  In o (map (fun a => if name_is N a then X else a) l) -> o = X \/ In o l.
Proof.
  induction l as [|a l IH]; simpl; [tauto|].
  intros [H|H].
  - destruct (name_is N a); [left; congruence | right; left; exact H].
  - destruct (IH H); [left|right; right]; assumption.
Qed.


Lemma written_exists (f : string) l :
  existsb (String.eqb f) (if existsb (String.eqb f) l then l else f :: l) = true.
Proof.
  destruct (existsb (String.eqb f) l) eqn:E; [exact E|].
  simpl. rewrite String.eqb_refl. reflexivity.
Qed.

(** X6.  If storagePoolDestroy fails because stopPool failed, the pool's
    state file has already been unlinked while the pool is still registered
    and active, and no event is queued. *)
Theorem storagePoolDestroy_stop_failure (env : Env) (pool : virStoragePool)
        (s s' : virStorageDriverState) :
  storagePoolDestroy env pool s = (inl (Callee "stopPool"), s') ->
  exists obj stateFile,
    virStoragePoolObjFindByUUID (pools s) (pool_uuid pool) = Some obj
    /\ virFileBuildPath env (stateDir s) (obj_name obj) ".xml" = Some stateFile
    /\ file_exists stateFile s' = false
    /\ storageEventState s' = storageEventState s
    /\ exists obj',
         virStoragePoolObjFindByName (pools s') (obj_name obj) = Some obj'
         /\ active obj' = true.
Proof.
  intros Hrun. refine (wp_run _ (fun r s' =>
    match r with
    | inl e =>
      e = Callee "stopPool" ->
      exists obj stateFile,
        virStoragePoolObjFindByUUID (pools s) (pool_uuid pool) = Some obj
        /\ virFileBuildPath env (stateDir s) (obj_name obj) ".xml" = Some stateFile
        /\ existsb (String.eqb stateFile) (files s') = false
        /\ storageEventState s' = storageEventState s
        /\ exists obj',
             find (name_is (obj_name obj)) (pools s') = Some obj'
             /\ active obj' = true
    | inr _ => True
    end) _ _ _ _ Hrun eq_refl). clear Hrun.
  destruct s as [l cd ad sd ev fs tr].
  unfold storagePoolDestroy. wp_go; norm_state; try exact I; impossible.
  all: intros He; try discriminate He.
  all: exists v; eexists; split; [reflexivity|].
  all: unfold virStoragePoolObjIsActive in *.
  all: split; [eassumption|]; split; [apply unlinked_absent|]; split; [reflexivity|].
  all: match goal with
       | H : virStoragePoolObjFindByUUID _ _ = Some _ |- _ =>
           pose proof (found_registered _ _ _ H) as Hreg
       end.
  all: eexists; split; [apply find_replace_here; [reflexivity | exact Hreg]|].
  all: norm_obj; destruct (active v); [reflexivity|discriminate].
Qed.

Ltac registered_by_uuid :=
  match goal with
  | H : virStoragePoolObjFindByUUID _ _ = Some _ |- _ =>
      pose proof (found_registered _ _ _ H) as Hreg
  end.

(** X2.  If storagePoolCreate succeeds, the pool found by the handle's UUID
    was inactive before the call; after it the pool is active with the same
    config file and job counter, its state file exists, and exactly one
    STARTED lifecycle event has been appended. *)
Theorem storagePoolCreate_success (env : Env) (pool : virStoragePool) (flags : Z)
        (s s' : virStorageDriverState) :
  storagePoolCreate env pool flags s = (inr tt, s') ->
  exists obj stateFile obj',
    virStoragePoolObjFindByUUID (pools s) (pool_uuid pool) = Some obj
    /\ active obj = false
    /\ virFileBuildPath env (stateDir s) (obj_name obj) ".xml" = Some stateFile
    /\ file_exists stateFile s' = true
    /\ storageEventState s'
       = storageEventState s
         ++ [virStoragePoolEventLifecycle (obj_name obj) (def_uuid (def obj))
               VIR_STORAGE_POOL_EVENT_STARTED 0]
    /\ virStoragePoolObjFindByName (pools s') (obj_name obj) = Some obj'
    /\ active obj' = true
    /\ configFile obj' = configFile obj
    /\ asyncjobs obj' = asyncjobs obj.
Proof.
  apply (wp_run _ (fun r s' =>
    match r with
    | inr _ =>
      exists obj stateFile obj',
        virStoragePoolObjFindByUUID (pools s) (pool_uuid pool) = Some obj
        /\ active obj = false
        /\ virFileBuildPath env (stateDir s) (obj_name obj) ".xml" = Some stateFile
        /\ existsb (String.eqb stateFile) (files s') = true
        /\ storageEventState s'
           = storageEventState s
             ++ [virStoragePoolEventLifecycle (obj_name obj) (def_uuid (def obj))
                   VIR_STORAGE_POOL_EVENT_STARTED 0]
        /\ find (name_is (obj_name obj)) (pools s') = Some obj'
        /\ active obj' = true
        /\ configFile obj' = configFile obj
        /\ asyncjobs obj' = asyncjobs obj
    | inl _ => True
    end)).
  destruct s as [l cd ad sd ev fs tr].
  unfold storagePoolCreate. wp_go; norm_state; try exact I; impossible.
  all: unfold virStoragePoolObjIsActive, file_exists in *; norm_state.
  all: registered_by_uuid.
  all: exists v; eexists; eexists; split; [reflexivity|].
  all: split; [assumption|]; split; [eassumption|].
  all: split; [apply written_exists|]; split; [reflexivity|].
  all: rewrite ?map_map_replace by reflexivity.
  all: split; [apply find_replace_here; [reflexivity | exact Hreg]|].
  all: repeat split; reflexivity.
Qed.

(** X3.  If storagePoolCreate fails, no event is queued, no pool has become
    active and no file has been created; when the failure is that of saving
    the state file or of refreshPool, the pool's state file does not exist
    after the call. *)
Theorem storagePoolCreate_failure (env : Env) (pool : virStoragePool) (flags : Z)
        (s s' : virStorageDriverState) (e : failure) :
  storagePoolCreate env pool flags s = (inl e, s') ->
  storageEventState s' = storageEventState s
  /\ (forall o, In o (pools s') -> active o = true -> In o (pools s))
  /\ (forall p, file_exists p s' = true -> file_exists p s = true)
  /\ (e = Callee "virStoragePoolSaveState" \/ e = Callee "refreshPool" ->
      forall obj stateFile,
        virStoragePoolObjFindByUUID (pools s) (pool_uuid pool) = Some obj ->
        virFileBuildPath env (stateDir s) (obj_name obj) ".xml" = Some stateFile ->
        file_exists stateFile s' = false).
Proof.
  apply (wp_run _ (fun r s' =>
    match r with
    | inl e =>
      storageEventState s' = storageEventState s
      /\ (forall o, In o (pools s') -> active o = true -> In o (pools s))
      /\ (forall p, existsb (String.eqb p) (files s') = true ->
                    existsb (String.eqb p) (files s) = true)
      /\ (e = Callee "virStoragePoolSaveState" \/ e = Callee "refreshPool" ->
          forall obj stateFile,
            virStoragePoolObjFindByUUID (pools s) (pool_uuid pool) = Some obj ->
            virFileBuildPath env (stateDir s) (obj_name obj) ".xml" = Some stateFile ->
            existsb (String.eqb stateFile) (files s') = false)
    | inr _ => True
    end)).
  destruct s as [l cd ad sd ev fs tr].
  unfold storagePoolCreate. wp_go; norm_state; try exact I; impossible.
  all: unfold virStoragePoolObjIsActive, file_exists in *; norm_state.
  all: rewrite ?map_map_replace by reflexivity.
  all: split; [reflexivity|]; split; [|split].
  all: try (let o := fresh "o" in
            let Hin := fresh "Hin" in
            let Hact := fresh "Hact" in
            intros o Hin Hact;
            first [ exact Hin
                  | apply in_replace in Hin; destruct Hin as [->|Hin];
                    [ exfalso; norm_obj; congruence | exact Hin ] ]).
  all: try (let q := fresh "q" in
            let Hq := fresh "Hq" in
            intros q Hq;
            first [ exact Hq
                  | exact (written_then_unlinked _ _ _ Hq)
                  | exact (proj2 (unlinked_subset _ _ _ Hq)) ]).
  all: intros [E|E]; try discriminate E.
  all: intros obj stateFile Hfind Hpath.
  all: injection Hfind as Hfind; subst obj.
  all: match goal with
       | H : virFileBuildPath _ _ _ _ = Some ?f |- _ =>
           let E' := fresh in
           pose proof (eq_trans (eq_sym H) Hpath) as E';
           injection E' as E'; subst f
       end.
  all: apply unlinked_absent.
Qed.

Ltac inactive_was :=
  match goal with
  | H : active ?v = false |- active ?v = false => exact H
  | H : negb (active ?v) = false |- active ?v = true =>
      destruct (active v); [reflexivity | discriminate H]
  end.


(** X4.  If storagePoolBuild succeeds, the pool was inactive and its type
    has a backend, one CREATED lifecycle event has been appended and no file
    has changed. With a backend that has no buildPool the registry and the
    trace of backend calls are untouched; otherwise buildPool was called
    once and returned a non-negative status. *)
Theorem storagePoolBuild_success (env : Env) (pool : virStoragePool) (flags : Z)
        (s s' : virStorageDriverState) :
  storagePoolBuild env pool flags s = (inr tt, s') ->
  exists obj backend,
    virStoragePoolObjFindByUUID (pools s) (pool_uuid pool) = Some obj
    /\ virStorageBackendForType env (def_type (def obj)) = Some backend
    /\ active obj = false
    /\ storageEventState s'
       = storageEventState s
         ++ [virStoragePoolEventLifecycle (obj_name obj) (def_uuid (def obj))
               VIR_STORAGE_POOL_EVENT_CREATED 0]
    /\ files s' = files s
    /\ match buildPool backend with
       | None => pools s' = pools s /\ trace s' = trace s
       | Some entry =>
           trace s' = trace s ++ [CallBuildPool (obj_name obj)]
           /\ 0 <= fst (fst (entry obj flags))
       end.
Proof.
  apply (wp_run _ (fun r s' =>
    match r with
    | inr _ =>
      exists obj backend,
        virStoragePoolObjFindByUUID (pools s) (pool_uuid pool) = Some obj
        /\ virStorageBackendForType env (def_type (def obj)) = Some backend
        /\ active obj = false
        /\ storageEventState s'
           = storageEventState s
             ++ [virStoragePoolEventLifecycle (obj_name obj) (def_uuid (def obj))
                   VIR_STORAGE_POOL_EVENT_CREATED 0]
        /\ files s' = files s
        /\ match buildPool backend with
           | None => pools s' = pools s /\ trace s' = trace s
           | Some entry =>
               trace s' = trace s ++ [CallBuildPool (obj_name obj)]
               /\ 0 <= fst (fst (entry obj flags))
           end
    | inl _ => True
    end)).
  destruct s as [l cd ad sd ev fs tr].
  unfold storagePoolBuild. wp_go; norm_state; try exact I; impossible.
  all: unfold virStoragePoolObjIsActive in *.
  all: exists v; eexists; split; [reflexivity|].
  all: split; [eassumption|]; split; [assumption|].
  all: split; [reflexivity|]; split; [reflexivity|].
  all: match goal with
       | H : buildPool _ = _ |- _ => rewrite H
       end.
  all: split; try reflexivity.
  all: match goal with
       | H : ?p _ _ = (_, _, _) |- 0 <= fst (fst (?p _ _)) => rewrite H
       end.
  all: simpl; apply Z.ltb_ge; assumption.
Qed.

(** X9.  If storagePoolRefresh succeeds, the pool was active with no running
    job, refreshPool was called once on the pool with its volume list
    cleared and returned a non-negative status, the registered pool is the
    one refreshPool left, one refresh event has been appended and no file
    has changed. *)
Theorem storagePoolRefresh_success (env : Env) (pool : virStoragePool) (flags : Z)
        (s s' : virStorageDriverState) :
  storagePoolRefresh env pool flags s = (inr tt, s') ->
  exists obj backend,
    virStoragePoolObjFindByUUID (pools s) (pool_uuid pool) = Some obj
    /\ virStorageBackendForType env (def_type (def obj)) = Some backend
    /\ active obj = true
    /\ asyncjobs obj <= 0
    /\ 0 <= fst (fst (refreshPool backend (set_volumes obj []) 0))
    /\ virStoragePoolObjFindByName (pools s') (obj_name obj)
       = Some (refreshed obj backend)
    /\ storageEventState s'
       = storageEventState s
         ++ [virStoragePoolEventRefresh (obj_name obj) (def_uuid (def obj))]
    /\ trace s' = trace s ++ [CallRefreshPool (obj_name obj)]
    /\ files s' = files s.
Proof.
  apply (wp_run _ (fun r s' =>
    match r with
    | inr _ =>
      exists obj backend,
        virStoragePoolObjFindByUUID (pools s) (pool_uuid pool) = Some obj
        /\ virStorageBackendForType env (def_type (def obj)) = Some backend
        /\ active obj = true
        /\ asyncjobs obj <= 0
        /\ 0 <= fst (fst (refreshPool backend (set_volumes obj []) 0))
        /\ find (name_is (obj_name obj)) (pools s') = Some (refreshed obj backend)
        /\ storageEventState s'
           = storageEventState s
             ++ [virStoragePoolEventRefresh (obj_name obj) (def_uuid (def obj))]
        /\ trace s' = trace s ++ [CallRefreshPool (obj_name obj)]
        /\ files s' = files s
    | inl _ => True
    end)).
  destruct s as [l cd ad sd ev fs tr].
  unfold storagePoolRefresh. wp_go; norm_state; try exact I; impossible.
  all: unfold virStoragePoolObjIsActive, virStoragePoolObjGetAsyncjobs in *.
  all: registered_by_uuid.
  all: exists v; eexists; split; [reflexivity|].
  all: split; [eassumption|]; split; [inactive_was|].
  all: split; [apply Z.ltb_ge; assumption|].
  all: unfold refreshed.
  all: match goal with
       | H : refreshPool _ _ _ = (_, _, _) |- _ => rewrite H
       end.
  all: split; [simpl; apply Z.ltb_ge; assumption|].
  all: rewrite ?map_map_replace by reflexivity.
  all: split; [apply find_replace_here; [reflexivity | exact Hreg]|].
  all: repeat split; reflexivity.
Qed.

(** X10.  If storagePoolRefresh fails in refreshPool, one STOPPED lifecycle
    event is appended; a pool without a config file is removed from the
    registry, and a pool with a config file and no pending definition stays
    registered and becomes inactive. *)
Theorem storagePoolRefresh_failure (env : Env) (pool : virStoragePool) (flags : Z)
        (s s' : virStorageDriverState) :
  storagePoolRefresh env pool flags s = (inl (Callee "refreshPool"), s') ->
  exists obj,
    virStoragePoolObjFindByUUID (pools s) (pool_uuid pool) = Some obj
    /\ active obj = true
    /\ storageEventState s'
       = storageEventState s
         ++ [virStoragePoolEventLifecycle (obj_name obj) (def_uuid (def obj))
               VIR_STORAGE_POOL_EVENT_STOPPED 0]
    /\ (configFile obj = None ->
        virStoragePoolObjFindByName (pools s') (obj_name obj) = None)
    /\ (configFile obj <> None -> newDef obj = None ->
        exists obj',
          virStoragePoolObjFindByName (pools s') (obj_name obj) = Some obj'
          /\ active obj' = false).
Proof.
  intros Hrun. refine (wp_run _ (fun r s' =>
    match r with
    | inl e =>
      e = Callee "refreshPool" ->
      exists obj,
        virStoragePoolObjFindByUUID (pools s) (pool_uuid pool) = Some obj
        /\ active obj = true
        /\ storageEventState s'
           = storageEventState s
             ++ [virStoragePoolEventLifecycle (obj_name obj) (def_uuid (def obj))
                   VIR_STORAGE_POOL_EVENT_STOPPED 0]
        /\ (configFile obj = None ->
            find (name_is (obj_name obj)) (pools s') = None)
        /\ (configFile obj <> None -> newDef obj = None ->
            exists obj',
              find (name_is (obj_name obj)) (pools s') = Some obj'
              /\ active obj' = false)
    | inr _ => True
    end) _ _ _ _ Hrun eq_refl). clear Hrun.
  destruct s as [l cd ad sd ev fs tr].
  unfold storagePoolRefresh. wp_go; norm_state; try exact I; impossible.
  all: intros He; try discriminate He.
  all: unfold virStoragePoolObjIsActive, virStoragePoolObjGetAsyncjobs,
         virStoragePoolObjGetConfigFile, virStoragePoolObjGetNewDef in *.
  all: norm_obj.
  all: registered_by_uuid.
  all: exists v; split; [reflexivity|].
  all: split; [inactive_was|]; split; [reflexivity|].
  all: rewrite ?map_map_replace by reflexivity.
  all: split;
    [ intros Hc; first [ apply find_removed | exfalso; congruence ]
    | intros Hc Hn;
      first [ exfalso; congruence
            | eexists; split;
              [ apply find_replace_here; [reflexivity | exact Hreg]
              | reflexivity ] ] ].
Qed.

(** ** Outcomes of the volume operations *)

Lemma find_vol_removed (n : string) l :
  find (vol_is n) (filter (fun x => negb (vol_is n x)) l) = None.
Proof.
  induction l as [|a l IH]; simpl; [reflexivity|].
  destruct (vol_is n a) eqn:E; simpl; [exact IH|]. rewrite E. exact IH.
Qed.

Ltac registered_by_name :=
  match goal with
  | H : virStoragePoolObjFindByName _ _ = Some _ |- _ =>
      pose proof (found_registered _ _ _ H) as Hreg;
      pose proof (find_name_is _ _ _ H) as Hname
  end.

(** X11.  If storageVolDelete succeeds, the pool was active, the volume
    existed, was not in use and was not being built, deleteVol returned a
    non-negative status and the volume is gone from the pool; events and
    files are unchanged. The pool's allocation and available are those the
    backend left for a disk pool, and are moved by the volume's allocation
    (with 64-bit wrap-around) for every other pool type. *)
Theorem storageVolDelete_success (env : Env) (vol : virStorageVol) (flags : Z)
        (s s' : virStorageDriverState) :
  storageVolDelete env vol flags s = (inr tt, s') ->
  exists obj voldef backend entry obj',
    virStoragePoolObjFindByName (pools s) (volh_pool vol) = Some obj
    /\ active obj = true
    /\ virStorageVolDefFindByName obj (volh_name vol) = Some voldef
    /\ vol_in_use voldef = 0
    /\ vol_building voldef = false
    /\ virStorageBackendForType env (def_type (def obj)) = Some backend
    /\ deleteVol backend = Some entry
    /\ virStoragePoolObjFindByName (pools s') (volh_pool vol) = Some obj'
    /\ virStorageVolDefFindByName obj' (volh_name vol) = None
    /\ (let '(status, d, v) := entry obj voldef flags 0 in
        0 <= status
        /\ def_allocation (def obj')
           = (if is_VIR_STORAGE_POOL_DISK (def_type (def obj))
              then def_allocation d
              else wrap64 (def_allocation d - target_allocation v))
        /\ def_available (def obj')
           = (if is_VIR_STORAGE_POOL_DISK (def_type (def obj))
              then def_available d
              else wrap64 (def_available d + target_allocation v)))
    /\ storageEventState s' = storageEventState s
    /\ files s' = files s
    /\ trace s' = trace s ++ [CallDeleteVol (volh_pool vol) (volh_name vol)].
Proof.
  apply (wp_run _ (fun r s' =>
    match r with
    | inr _ =>
      exists obj voldef backend entry obj',
        virStoragePoolObjFindByName (pools s) (volh_pool vol) = Some obj
        /\ active obj = true
        /\ virStorageVolDefFindByName obj (volh_name vol) = Some voldef
        /\ vol_in_use voldef = 0
        /\ vol_building voldef = false
        /\ virStorageBackendForType env (def_type (def obj)) = Some backend
        /\ deleteVol backend = Some entry
        /\ find (name_is (volh_pool vol)) (pools s') = Some obj'
        /\ virStorageVolDefFindByName obj' (volh_name vol) = None
        /\ (let '(status, d, v) := entry obj voldef flags 0 in
            0 <= status
            /\ def_allocation (def obj')
               = (if is_VIR_STORAGE_POOL_DISK (def_type (def obj))
                  then def_allocation d
                  else wrap64 (def_allocation d - target_allocation v))
            /\ def_available (def obj')
               = (if is_VIR_STORAGE_POOL_DISK (def_type (def obj))
                  then def_available d
                  else wrap64 (def_available d + target_allocation v)))
        /\ storageEventState s' = storageEventState s
        /\ files s' = files s
        /\ trace s' = trace s ++ [CallDeleteVol (volh_pool vol) (volh_name vol)]
    | inl _ => True
    end)).
  destruct s as [l cd ad sd ev fs tr].
  unfold storageVolDelete. wp_go; norm_state; try exact I; impossible.
  all: unfold virStoragePoolObjIsActive in *.
  all: registered_by_name.
  all: exists v; eexists; eexists; eexists; eexists; split; [reflexivity|].
  all: split; [inactive_was|]; split; [eassumption|].
  all: split; [apply Z.eqb_eq; destruct (vol_in_use _ =? 0); [reflexivity|discriminate]|].
  all: split; [assumption|]; split; [eassumption|]; split; [eassumption|].
  all: rewrite ?map_map_replace by reflexivity.
  all: match goal with
       | H : virStorageVolDefFindByName _ _ = Some _ |- _ =>
           pose proof (find_vol_is _ _ _ H) as Hvname
       end.
  all: split;
    [ rewrite <- Hname; apply find_replace_here; [reflexivity | exact Hreg] |].
  all: split;
    [ unfold virStorageVolDefFindByName; cbn [volumes set_volumes];
      cbn [vol_name backend_vol]; rewrite Hvname; apply find_vol_removed |].
  all: match goal with
       | H : ?e _ _ _ _ = (_, _, _) |- context [?e _ _ _ _] => rewrite H
       end.
  all: rewrite Hname, Hvname.
  all: split; [|repeat split; reflexivity].
  all: split; [apply Z.ltb_ge; assumption|].
  all: match goal with
       | H : negb (is_VIR_STORAGE_POOL_DISK _) = _ |- _ =>
           cbn in H; destruct (is_VIR_STORAGE_POOL_DISK (def_type (def v)));
           try discriminate H
       end.
  all: split; reflexivity.
Qed.

Lemma find_put_vol_named (obj : virStoragePoolObj) (w a : virStorageVolDef)
      (name : string) :
  virStorageVolDefFindByName obj name = Some a ->
  vol_name w = name ->
  virStorageVolDefFindByName (put_vol obj w) name = Some w.
Proof.
  intros Hf Hw. subst name. eapply find_put_vol. exact Hf.
Qed.

(** The names under which the held copies of an object are stored. *)
Ltac norm_names :=
  repeat match goal with
  | |- context [name_is (obj_name ?x)] =>
      let n := eval cbn [obj_name def def_name put_vol pool_allocate pool_release
                         with_vol set_def set_volumes set_active set_asyncjobs
                         set_newDef set_configFile backend_def
                         set_def_allocation set_def_available] in (obj_name x) in
      progress change (obj_name x) with n
  end.

(** X12.  If storageVolWipePattern succeeds, the algorithm is below
    VIR_STORAGE_VOL_WIPE_ALG_LAST, the pool was active, the volume existed,
    was not in use and was not being built, the backend's wipeVol was called
    once and returned a non-negative status, and events and files are
    unchanged. *)
Theorem storageVolWipePattern_success (env : Env) (vol : virStorageVol)
        (algorithm flags : Z) (s s' : virStorageDriverState) :
  storageVolWipePattern env vol algorithm flags s = (inr tt, s') ->
  algorithm < VIR_STORAGE_VOL_WIPE_ALG_LAST
  /\ exists obj voldef backend entry,
       virStoragePoolObjFindByName (pools s) (volh_pool vol) = Some obj
       /\ active obj = true
       /\ virStorageVolDefFindByName obj (volh_name vol) = Some voldef
       /\ vol_in_use voldef = 0
       /\ vol_building voldef = false
       /\ virStorageBackendForType env (def_type (def obj)) = Some backend
       /\ wipeVol backend = Some entry
       /\ 0 <= fst (fst (entry obj voldef algorithm flags))
       /\ storageEventState s' = storageEventState s
       /\ files s' = files s
       /\ trace s' = trace s ++ [CallWipeVol (volh_pool vol) (volh_name vol)].
Proof.
  apply (wp_run _ (fun r s' =>
    match r with
    | inr _ =>
      algorithm < VIR_STORAGE_VOL_WIPE_ALG_LAST
      /\ exists obj voldef backend entry,
           virStoragePoolObjFindByName (pools s) (volh_pool vol) = Some obj
           /\ active obj = true
           /\ virStorageVolDefFindByName obj (volh_name vol) = Some voldef
           /\ vol_in_use voldef = 0
           /\ vol_building voldef = false
           /\ virStorageBackendForType env (def_type (def obj)) = Some backend
           /\ wipeVol backend = Some entry
           /\ 0 <= fst (fst (entry obj voldef algorithm flags))
           /\ storageEventState s' = storageEventState s
           /\ files s' = files s
           /\ trace s' = trace s ++ [CallWipeVol (volh_pool vol) (volh_name vol)]
    | inl _ => True
    end)).
  destruct s as [l cd ad sd ev fs tr].
  unfold storageVolWipePattern. wp_go; norm_state; try exact I; impossible.
  all: unfold virStoragePoolObjIsActive in *.
  all: registered_by_name.
  all: match goal with
       | H : virStorageVolDefFindByName _ _ = Some _ |- _ =>
           pose proof (find_vol_is _ _ _ H) as Hvname
       end.
  all: split; [apply Z.leb_gt; assumption|].
  all: exists v; eexists; eexists; eexists; split; [reflexivity|].
  all: split; [inactive_was|]; split; [eassumption|].
  all: split; [apply Z.eqb_eq; destruct (vol_in_use _ =? 0); [reflexivity|discriminate]|].
  all: split; [assumption|]; split; [eassumption|]; split; [eassumption|].
  all: match goal with
       | H : ?e _ _ _ _ = (_, _, _) |- context [?e _ _ _ _] => rewrite H
       end.
  all: split; [simpl; apply Z.ltb_ge; assumption|].
  all: rewrite Hname, Hvname; repeat split; reflexivity.
Qed.

(** X13.  If storageVolResize succeeds, the volume was in an active pool,
    not in use and not being built; the absolute capacity is not below the
    volume's allocation, a capacity below the current one came with the
    shrink flag, with the allocate flag the growth of the allocation fits in
    the pool's available space, and the volume's capacity after the call is
    the absolute capacity. *)
Theorem storageVolResize_success (env : Env) (vol : virStorageVol)
        (capacity flags : Z) (s s' : virStorageDriverState) :
  storageVolResize env vol capacity flags s = (inr tt, s') ->
  exists obj voldef,
    virStoragePoolObjFindByName (pools s) (volh_pool vol) = Some obj
    /\ active obj = true
    /\ virStorageVolDefFindByName obj (volh_name vol) = Some voldef
    /\ vol_in_use voldef = 0
    /\ vol_building voldef = false
    /\ (let abs_capacity := storageVolResize_abs_capacity voldef capacity flags in
        target_allocation voldef <= abs_capacity
        /\ (abs_capacity < target_capacity voldef ->
            flag_set flags VIR_STORAGE_VOL_RESIZE_SHRINK = true)
        /\ (flag_set flags VIR_STORAGE_VOL_RESIZE_ALLOCATE = true ->
            wrap64 (abs_capacity - target_allocation voldef)
            <= def_available (def obj))
        /\ exists obj' voldef',
             virStoragePoolObjFindByName (pools s') (volh_pool vol) = Some obj'
             /\ virStorageVolDefFindByName obj' (volh_name vol) = Some voldef'
             /\ target_capacity voldef' = abs_capacity)
    /\ storageEventState s' = storageEventState s
    /\ files s' = files s
    /\ trace s' = trace s ++ [CallResizeVol (volh_pool vol) (volh_name vol)].
Proof.
  apply (wp_run _ (fun r s' =>
    match r with
    | inr _ =>
      exists obj voldef,
        virStoragePoolObjFindByName (pools s) (volh_pool vol) = Some obj
        /\ active obj = true
        /\ virStorageVolDefFindByName obj (volh_name vol) = Some voldef
        /\ vol_in_use voldef = 0
        /\ vol_building voldef = false
        /\ (let abs_capacity := storageVolResize_abs_capacity voldef capacity flags in
            target_allocation voldef <= abs_capacity
            /\ (abs_capacity < target_capacity voldef ->
                flag_set flags VIR_STORAGE_VOL_RESIZE_SHRINK = true)
            /\ (flag_set flags VIR_STORAGE_VOL_RESIZE_ALLOCATE = true ->
                wrap64 (abs_capacity - target_allocation voldef)
                <= def_available (def obj))
            /\ exists obj' voldef',
                 find (name_is (volh_pool vol)) (pools s') = Some obj'
                 /\ virStorageVolDefFindByName obj' (volh_name vol) = Some voldef'
                 /\ target_capacity voldef' = abs_capacity)
        /\ storageEventState s' = storageEventState s
        /\ files s' = files s
        /\ trace s' = trace s ++ [CallResizeVol (volh_pool vol) (volh_name vol)]
    | inl _ => True
    end)).
  destruct s as [l cd ad sd ev fs tr].
  unfold storageVolResize. wp_go; norm_state; try exact I; impossible.
  all: unfold virStoragePoolObjIsActive in *.
  all: registered_by_name.
  all: match goal with
       | H : virStorageVolDefFindByName _ _ = Some _ |- _ =>
           pose proof H as Hvol;
           pose proof (find_vol_is _ _ _ H) as Hvname
       end.
  all: exists v; eexists; split; [reflexivity|].
  all: split; [inactive_was|]; split; [eassumption|].
  all: split; [apply Z.eqb_eq; destruct (vol_in_use _ =? 0); [reflexivity|discriminate]|].
  all: split; [assumption|].
  all: rewrite Hname, Hvname.
  all: split; [|repeat split; reflexivity].
  all: cbv zeta.
  all: fold (resize_flags_kept flags) in *.
  all: rewrite ?resize_flags_kept_shrink, ?resize_flags_kept_allocate in *.
  all: split; [apply Z.ltb_ge; assumption|].
  all: split;
    [ intros Hlt;
      match goal with
      | H : _ && negb (flag_set ?f VIR_STORAGE_VOL_RESIZE_SHRINK) = false |- _ =>
          destruct (flag_set f VIR_STORAGE_VOL_RESIZE_SHRINK); [reflexivity|];
          exfalso; rewrite andb_true_r in H; apply Z.ltb_ge in H; lia
      end |].
  all: split;
    [ intros Ha;
      first [ congruence
            | match goal with
              | H : (def_available _ <? _) = false |- _ =>
                  try rewrite Ha in H; apply Z.ltb_ge in H; exact H
              end ] |].
  all: norm_names; unfold obj_name in Hname.
  all: rewrite ?map_map_replace by reflexivity.
  all: eexists; eexists.
  all: split; [rewrite <- Hname; apply find_replace_here; [reflexivity | exact Hreg]|].
  all: rewrite ?put_vol_put_vol by reflexivity.
  all: split;
    [ first [ apply find_put_vol_named with (a := v0); [exact Hvol | exact Hvname]
            | apply (find_put_vol_named (set_def v _) _ v0); [exact Hvol | exact Hvname] ]
    | reflexivity ].
Qed.

Lemma names_replace (N : string) (X : virStoragePoolObj) l :
  obj_name X = N ->
  map obj_name (map (fun o => if name_is N o then X else o) l) = map obj_name l.
Proof.
  intros HX. rewrite map_map. apply map_ext. intros o.
  destruct (name_is N o) eqn:E; [|reflexivity].
  rewrite HX. symmetry. exact (name_is_eq _ _ E).
Qed.

(** X14.  storageVolDelete, storageVolResize, storageVolWipePattern and
    storageVolWipe, whatever their result, keep the names and the order of
    the registered pools, leave every pool other than the volume's pool as
    it was, queue no event and touch no file. *)
Theorem volume_operations_frame (env : Env) (c : driverCall) (vol : virStorageVol)
        (s : virStorageDriverState) :
  on_volume c = Some vol ->
  map obj_name (pools (exec env c s)) = map obj_name (pools s)
  /\ (forall n, n <> volh_pool vol ->
        virStoragePoolObjFindByName (pools (exec env c s)) n
        = virStoragePoolObjFindByName (pools s) n)
  /\ storageEventState (exec env c s) = storageEventState s
  /\ files (exec env c s) = files s.
Proof.
  intros Hc.
  assert (Hgoal : forall m : M unit,
             wp m (fun _ s' =>
                     map obj_name (pools s') = map obj_name (pools s)
                     /\ (forall n, n <> volh_pool vol ->
                           find (name_is n) (pools s') = find (name_is n) (pools s))
                     /\ storageEventState s' = storageEventState s
                     /\ files s' = files s) s ->
             map obj_name (pools (snd (m s))) = map obj_name (pools s)
             /\ (forall n, n <> volh_pool vol ->
                   virStoragePoolObjFindByName (pools (snd (m s))) n
                   = virStoragePoolObjFindByName (pools s) n)
             /\ storageEventState (snd (m s)) = storageEventState s
             /\ files (snd (m s)) = files s).
  { intros m H. exact H. }
  destruct c; try discriminate Hc; injection Hc as ->; simpl exec; apply Hgoal.
  all: destruct s as [l cd ad sd ev fs tr].
  all: unfold storageVolWipe.
  all: first [ unfold storageVolDelete | unfold storageVolResize
             | unfold storageVolWipePattern ].
  all: wp_go; norm_state.
  all: try registered_by_name.
  all: norm_names; rewrite ?map_map_replace by reflexivity.
  all: split; [first [reflexivity | apply names_replace; reflexivity]|].
  all: split; [|split; reflexivity].
  all: intros n Hn;
    first [ reflexivity
          | apply find_replace_other;
            [ reflexivity
            | apply String.eqb_neq; unfold obj_name in Hname; congruence ] ].
Qed.

(** ** What a pending build excludes *)

Lemma find_uuid_replace (u : string) (X v : virStoragePoolObj) l :
  find (uuid_is u) l = Some v ->
  uuid_is u X = true ->
  find (uuid_is u) (map (fun o => if name_is (obj_name v) o then X else o) l) = Some X.
Proof.
  intros Hf HX. induction l as [|a l IH]; simpl in *; [discriminate|].
  destruct (uuid_is u a) eqn:E.
  - injection Hf as ->. rewrite name_is_refl, HX. reflexivity.
  - destruct (name_is (obj_name v) a); [rewrite HX; reflexivity|].
    rewrite E. exact (IH Hf).
Qed.

Lemma find_vol_appended (n : string) (w : virStorageVolDef) l :
  vol_name w = n ->
  exists a, find (vol_is n) (l ++ [w]) = Some a.
Proof.
  intros Hw. induction l as [|x l IH]; simpl.
  - unfold vol_is. rewrite Hw, String.eqb_refl. eexists. reflexivity.
  - destruct (vol_is n x); [eexists; reflexivity | exact IH].
Qed.

Lemma storageVolCreateXML_locked_state env pool xmldesc flags s job s1 :
  storageVolCreateXML_locked env pool xmldesc flags s = (inr (VolBuilding job), s1) ->
  exists obj X v,
    virStoragePoolObjFindByUUID (pools s) (pool_uuid pool) = Some obj
    /\ virStoragePoolObjFindByUUID (pools s1) (pool_uuid pool) = Some X
    /\ virStoragePoolObjFindByName (pools s1) (job_pool job) = Some X
    /\ active X = true
    /\ asyncjobs X = asyncjobs obj + 1
    /\ def_type (def X) = def_type (def obj)
    /\ virStorageVolDefFindByName X (job_vol job) = Some v
    /\ vol_building v = true.
Proof.
  apply (wp_run _ (fun r s1 =>
    match r with
    | inr (VolBuilding job) =>
      exists obj X v,
        virStoragePoolObjFindByUUID (pools s) (pool_uuid pool) = Some obj
        /\ find (uuid_is (pool_uuid pool)) (pools s1) = Some X
        /\ find (name_is (job_pool job)) (pools s1) = Some X
        /\ active X = true
        /\ asyncjobs X = asyncjobs obj + 1
        /\ def_type (def X) = def_type (def obj)
        /\ virStorageVolDefFindByName X (job_vol job) = Some v
        /\ vol_building v = true
    | _ => True
    end)).
  destruct s as [l cd ad sd ev fs tr].
  unfold storageVolCreateXML_locked. wp_go; norm_state; try exact I; impossible.
  all: unfold virStoragePoolObjIsActive in *.
  all: registered_by_uuid.
  all: norm_names; rewrite ?map_map_replace by reflexivity.
  all: exists v; eexists; eexists; split; [reflexivity|].
  all: split;
    [ match goal with
      | H : virStoragePoolObjFindByUUID _ _ = Some _ |- _ =>
          apply (find_uuid_replace _ _ _ _ H)
      end;
      match goal with
      | H : virStoragePoolObjFindByUUID _ _ = Some _ |- _ =>
          apply find_some in H; exact (proj2 H)
      end |].
  all: split; [apply find_replace_here; [reflexivity | exact Hreg]|].
  all: split; [norm_obj; inactive_was|].
  all: split; [reflexivity|]; split; [reflexivity|].
  all: cbn [job_vol].
  all: split;
    [ match goal with
      | |- virStorageVolDefFindByName (put_vol ?o ?w) ?n = _ =>
          destruct (find_vol_appended n (backend_vol (set_vol_key v1 None) v3)
                      (volumes v) eq_refl) as [a Ha];
          apply (find_put_vol_named o w a n); [exact Ha | reflexivity]
      end
    | reflexivity ].
Qed.


Lemma wp_blocked {A} (m : M A) s :
  wp m (fun r s' => (exists e, r = inl e) /\ s' = s) s -> blocked m s.
Proof.
  unfold wp, blocked. destruct (m s) as [r s']. simpl.
  intros [[e ->] ->]. exists e. reflexivity.
Qed.

Ltac same_found :=
  repeat match goal with
  | H : Some ?x = Some ?y |- _ =>
      first [ is_var x; injection H as H; subst x
            | is_var y; injection H as H; subst y ]
  | H1 : ?a = Some ?x, H2 : ?a = Some ?y |- _ =>
      first [ is_var x; assert (x = y) by congruence; subst x
            | is_var y; assert (y = x) by congruence; subst y ]
  end.

Ltac clash :=
  first
    [ split; [eexists; reflexivity | reflexivity]
    | exfalso;
      unfold virStoragePoolObjIsActive, virStoragePoolObjGetAsyncjobs in *;
      same_found;
      repeat match goal with
      | H : (_ <? _) = false |- _ => apply Z.ltb_ge in H
      | H : negb _ = false |- _ => apply negb_false_iff in H
      | H : negb _ = true |- _ => apply negb_true_iff in H
      end;
      first [ congruence | lia ] ].

(** X15.  While storageVolCreateXML has dropped the pool lock for buildVol
    (job counter incremented, new volume marked as building), destroy,
    refresh, undefine and delete of that pool and delete, resize and wipe of
    the new volume all fail and leave the driver state unchanged, provided
    the job counter was not negative before. *)
Theorem pending_build_blocks (env : Env) (pool : virStoragePool) (xmldesc : string)
        (flags : Z) (s s1 : virStorageDriverState) (job : volBuildJob) :
  storageVolCreateXML_locked env pool xmldesc flags s = (inr (VolBuilding job), s1) ->
  (forall obj, virStoragePoolObjFindByUUID (pools s) (pool_uuid pool) = Some obj ->
               0 <= asyncjobs obj) ->
  blocked (storagePoolDestroy env pool) s1
  /\ (forall f, blocked (storagePoolRefresh env pool f) s1)
  /\ blocked (storagePoolUndefine env pool) s1
  /\ (forall f, blocked (storagePoolDelete env pool f) s1)
  /\ (forall vol, volh_pool vol = job_pool job -> volh_name vol = job_vol job ->
        (forall f, blocked (storageVolDelete env vol f) s1)
        /\ (forall c f, blocked (storageVolResize env vol c f) s1)
        /\ (forall a f, blocked (storageVolWipePattern env vol a f) s1)).
Proof.
  intros Hrun Hnn.
  destruct (storageVolCreateXML_locked_state _ _ _ _ _ _ _ Hrun)
    as [obj [X [w [Hobj [Huuid [Hname [Hact [Hjobs [Htype [Hvol Hbuilding]]]]]]]]]].
  specialize (Hnn obj Hobj).
  destruct s1 as [l cd ad sd ev fs tr]. cbn [pools] in Huuid, Hname.
  repeat split; intros.
  all: apply wp_blocked.
  all: repeat match goal with
       | H : volh_pool _ = _ |- _ => rewrite <- H in Hname
       | H : volh_name _ = _ |- _ => rewrite <- H in Hvol
       end.
  - unfold storagePoolDestroy. wp_go; norm_state; clash.
  - unfold storagePoolRefresh. wp_go; norm_state; clash.
  - unfold storagePoolUndefine. wp_go; norm_state; clash.
  - unfold storagePoolDelete. wp_go; norm_state; clash.
  - unfold storageVolDelete. wp_go; norm_state; clash.
  - unfold storageVolResize. wp_go; norm_state; clash.
  - unfold storageVolWipePattern. wp_go; norm_state; clash.
Qed.

(** ** Refused calls *)

Lemma wp_outcome {A} (m : M A) s e :
  wp m (fun r s' => match r with
                    | inl e => refusal e = true -> s' = s
                    | inr _ => True
                    end) s ->
  fst (outcome m s) = Some e -> refusal e = true -> snd (outcome m s) = s.
Proof.
  unfold wp, outcome. simpl. destruct (fst (m s)) as [e'|a]; [|discriminate].
  intros H He Hr. injection He as ->. exact (H Hr).
Qed.

Ltac refused :=
  try exact I;
  let Href := fresh "Href" in
  intros Href;
  first [ reflexivity | discriminate Href | cbv in Href; discriminate Href ].

(** X19.  For pool create, define, undefine, start, build, destroy and
    refresh, volume delete, resize and wipe, and the refresh that follows an
    upload: when the call fails with an error the driver reports itself
    (virReportError) or with an access-control denial, the whole driver
    state is unchanged. storagePoolDelete is excepted: it unlinks the state
    file before it reports a missing deletePool. *)
Theorem refusal_changes_nothing (env : Env) (c : driverCall)
        (s : virStorageDriverState) (e : failure) :
  fst (run env c s) = Some e ->
  refusal e = true ->
  is_PoolDelete c = false ->
  snd (run env c s) = s.
Proof.
  intros He Hr Hc. revert He Hr.
  destruct c; try discriminate Hc; unfold run; apply wp_outcome.
  all: destruct s as [l cd ad sd ev fs tr].
  - unfold storagePoolCreateXML. wp_go; norm_state; refused.
  - unfold storagePoolDefineXML. wp_go; norm_state; refused.
  - unfold storagePoolUndefine. wp_go; norm_state; refused.
  - unfold storagePoolCreate. wp_go; norm_state; refused.
  - unfold storagePoolBuild. wp_go; norm_state; refused.
  - unfold storagePoolDestroy. wp_go; norm_state; refused.
  - unfold storagePoolRefresh. wp_go; norm_state; refused.
  - unfold storageVolDelete. wp_go; norm_state; refused.
  - unfold storageVolResize. wp_go; norm_state; refused.
  - unfold storageVolWipePattern. wp_go; norm_state; refused.
  - unfold storageVolWipe, storageVolWipePattern. wp_go; norm_state; refused.
  - unfold virStorageVolPoolRefreshThread. wp_go; norm_state; refused.
Qed.

(** A refusal either leaves the state as it was or is the error that
    [storageVolDeleteInternal] reports on a backend without [deleteVol]. *)
Ltac refused_or_cleanup :=
  try exact I;
  let Href := fresh "Href" in
  intros Href;
  first [ left; reflexivity
        | right; reflexivity
        | discriminate Href
        | cbv in Href; discriminate Href ].

Ltac cleanup_only :=
  try exact I;
  let Href := fresh "Href" in
  intros Href;
  first [ reflexivity | discriminate Href | cbv in Href; discriminate Href ].

Lemma locked_refusal (env : Env) (pool : virStoragePool) (xmldesc : string)
      (flags : Z) (s s' : virStorageDriverState) (e : failure) :
  storageVolCreateXML_locked env pool xmldesc flags s = (inl e, s') ->
  refusal e = true ->
  s' = s
  \/ e = Reported VIR_ERR_NO_SUPPORT "storage pool does not support vol deletion".
Proof.
  intros Hrun.
  refine (wp_run _ (fun r s' =>
    match r with
    | inl e =>
        refusal e = true ->
        s' = s
        \/ e = Reported VIR_ERR_NO_SUPPORT "storage pool does not support vol deletion"
    | inr _ => True
    end) _ _ _ _ Hrun). clear Hrun.
  destruct s as [l cd ad sd ev fs tr].
  unfold storageVolCreateXML_locked. wp_go; norm_state; refused_or_cleanup.
Qed.

Lemma build_no_refusal (job : volBuildJob) (s s' : virStorageDriverState) (e : failure) :
  storageVolCreateXML_build job s = (inl e, s') -> refusal e = false.
Proof.
  intros Hrun.
  refine (wp_run _ (fun r s' => match r with
                                | inl e => refusal e = false
                                | inr _ => True
                                end) _ _ _ _ Hrun). clear Hrun.
  destruct s as [l cd ad sd ev fs tr].
  unfold storageVolCreateXML_build. wp_go; norm_state; try exact I; reflexivity.
Qed.

Lemma relocked_refusal (job : volBuildJob) (buildret : Z)
      (s s' : virStorageDriverState) (e : failure) :
  storageVolCreateXML_relocked job buildret s = (inl e, s') ->
  refusal e = true ->
  e = Reported VIR_ERR_NO_SUPPORT "storage pool does not support vol deletion".
Proof.
  intros Hrun.
  refine (wp_run _ (fun r s' =>
    match r with
    | inl e =>
        refusal e = true ->
        e = Reported VIR_ERR_NO_SUPPORT "storage pool does not support vol deletion"
    | inr _ => True
    end) _ _ _ _ Hrun). clear Hrun.
  destruct s as [l cd ad sd ev fs tr].
  unfold storageVolCreateXML_relocked. wp_go; norm_state; cleanup_only.
Qed.

(** X20.  When storageVolCreateXML, run through its build step, fails with
    an error the driver reports itself (virReportError) or with an access-
    control denial, the whole driver state is unchanged, with one
    exception: the VIR_ERR_NO_SUPPORT that storageVolDeleteInternal
    reports, when the cleanup after a failed refreshVol finds a backend
    without deleteVol. *)
Theorem storageVolCreateXML_refusal (env : Env) (pool : virStoragePool)
        (xmldesc : string) (flags : Z) (s s' : virStorageDriverState) (e : failure) :
  storageVolCreateXML env pool xmldesc flags s = (inl e, s') ->
  refusal e = true ->
  s' = s
  \/ e = Reported VIR_ERR_NO_SUPPORT "storage pool does not support vol deletion".
Proof.
  unfold storageVolCreateXML, bind. intros Hrun Hr.
  destruct (storageVolCreateXML_locked env pool xmldesc flags s) as [[e1|step] s1] eqn:E1.
  - injection Hrun as -> ->. exact (locked_refusal _ _ _ _ _ _ _ E1 Hr).
  - destruct step as [vol|job]; [discriminate Hrun|].
    destruct (storageVolCreateXML_build job s1) as [[e2|buildret] s2] eqn:E2.
    + exfalso. injection Hrun as -> ->.
      rewrite (build_no_refusal _ _ _ _ E2) in Hr. discriminate.
    + right. exact (relocked_refusal _ _ _ _ _ Hrun Hr).
Qed.

Lemma clone_locked_refusal (env : Env) (pool : virStoragePool) (xmldesc : string)
      (volsrc : virStorageVol) (flags : Z) (s s' : virStorageDriverState)
      (e : failure) :
  storageVolCreateXMLFrom_locked env pool xmldesc volsrc flags s = (inl e, s') ->
  refusal e = true -> s' = s.
Proof.
  intros Hrun.
  refine (wp_run _ (fun r s' => match r with
                                | inl e => refusal e = true -> s' = s
                                | inr _ => True
                                end) _ _ _ _ Hrun). clear Hrun.
  destruct s as [l cd ad sd ev fs tr].
  unfold storageVolCreateXMLFrom_locked. wp_go; norm_state; refused.
Qed.

Lemma clone_build_no_refusal (job : volCloneJob) (s s' : virStorageDriverState)
      (e : failure) :
  storageVolCreateXMLFrom_build job s = (inl e, s') -> refusal e = false.
Proof.
  intros Hrun.
  refine (wp_run _ (fun r s' => match r with
                                | inl e => refusal e = false
                                | inr _ => True
                                end) _ _ _ _ Hrun). clear Hrun.
  destruct s as [l cd ad sd ev fs tr].
  unfold storageVolCreateXMLFrom_build. wp_go; norm_state; try exact I; reflexivity.
Qed.

Lemma clone_relocked_refusal (job : volCloneJob) (buildret : Z)
      (s s' : virStorageDriverState) (e : failure) :
  storageVolCreateXMLFrom_relocked job buildret s = (inl e, s') ->
  refusal e = true ->
  e = Reported VIR_ERR_NO_SUPPORT "storage pool does not support vol deletion".
Proof.
  intros Hrun.
  refine (wp_run _ (fun r s' =>
    match r with
    | inl e =>
        refusal e = true ->
        e = Reported VIR_ERR_NO_SUPPORT "storage pool does not support vol deletion"
    | inr _ => True
    end) _ _ _ _ Hrun). clear Hrun.
  destruct s as [l cd ad sd ev fs tr].
  unfold storageVolCreateXMLFrom_relocked. wp_go; norm_state; cleanup_only.
Qed.

(** X21.  When storageVolCreateXMLFrom, run through its build step, fails
    with an error the driver reports itself (virReportError) or with an
    access-control denial, the whole driver state is unchanged, with one
    exception: the VIR_ERR_NO_SUPPORT that storageVolDeleteInternal
    reports, when the cleanup after a failed buildVolFrom or refreshVol
    finds a backend without deleteVol. *)
Theorem storageVolCreateXMLFrom_refusal (env : Env) (pool : virStoragePool)
        (xmldesc : string) (volsrc : virStorageVol) (flags : Z)
        (s s' : virStorageDriverState) (e : failure) :
  storageVolCreateXMLFrom env pool xmldesc volsrc flags s = (inl e, s') ->
  refusal e = true ->
  s' = s
  \/ e = Reported VIR_ERR_NO_SUPPORT "storage pool does not support vol deletion".
Proof.
  unfold storageVolCreateXMLFrom, bind. intros Hrun Hr.
  destruct (storageVolCreateXMLFrom_locked env pool xmldesc volsrc flags s)
    as [[e1|job] s1] eqn:E1.
  - left. injection Hrun as -> ->. exact (clone_locked_refusal _ _ _ _ _ _ _ _ E1 Hr).
  - destruct (storageVolCreateXMLFrom_build job s1) as [[e2|buildret] s2] eqn:E2.
    + exfalso. injection Hrun as -> ->.
      rewrite (clone_build_no_refusal _ _ _ _ E2) in Hr. discriminate.
    + right. exact (clone_relocked_refusal _ _ _ _ _ Hrun Hr).
Qed.

(** ** Creation of a pool, and the lookups by target path and by key *)

Lemma registered_appended (x : virStoragePoolObj) l :
  registered (obj_name x) (l ++ [x]).
Proof.
  unfold registered. rewrite existsb_app. simpl.
  rewrite name_is_refl. apply orb_true_iff. right. reflexivity.
Qed.

Lemma find_appended {A} (f : A -> bool) (x : A) l :
  find f l = None -> f x = true -> find f (l ++ [x]) = Some x.
Proof.
  intros Hl Hx. induction l as [|a l IH]; simpl in *.
  - rewrite Hx. reflexivity.
  - destruct (f a); [discriminate | exact (IH Hl)].
Qed.

Lemma storagePoolCreateXML_registers (env : Env) (conn : virConnectPtr)
      (xml : string) (flags : Z) (s s' : virStorageDriverState)
      (pool : virStoragePool) :
  storagePoolCreateXML env conn xml flags s = (inr pool, s') ->
  exists d obj',
    virStoragePoolDefParseString env xml = Some d
    /\ pool = mkPoolHandle conn (def_name d) (def_uuid d)
    /\ virStoragePoolObjFindByName (pools s') (def_name d) = Some obj'
    /\ obj_name obj' = def_name d
    /\ def_uuid (def obj') = def_uuid d
    /\ active obj' = true
    /\ storageEventState s'
       = storageEventState s
         ++ [virStoragePoolEventLifecycle (def_name d) (def_uuid d)
               VIR_STORAGE_POOL_EVENT_STARTED 0]
    /\ (exists stateFile,
          virFileBuildPath env (stateDir s) (def_name d) ".xml" = Some stateFile
          /\ file_exists stateFile s' = true)
    /\ (virStoragePoolObjFindByUUID (pools s) (def_uuid d) = None ->
        virStoragePoolObjFindByUUID (pools s') (def_uuid d) = Some obj').
Proof.
  apply (wp_run _ (fun r s' =>
    match r with
    | inr pool =>
      exists d obj',
        virStoragePoolDefParseString env xml = Some d
        /\ pool = mkPoolHandle conn (def_name d) (def_uuid d)
        /\ find (name_is (def_name d)) (pools s') = Some obj'
        /\ obj_name obj' = def_name d
        /\ def_uuid (def obj') = def_uuid d
        /\ active obj' = true
        /\ storageEventState s'
           = storageEventState s
             ++ [virStoragePoolEventLifecycle (def_name d) (def_uuid d)
                   VIR_STORAGE_POOL_EVENT_STARTED 0]
        /\ (exists stateFile,
              virFileBuildPath env (stateDir s) (def_name d) ".xml" = Some stateFile
              /\ existsb (String.eqb stateFile) (files s') = true)
        /\ (find (uuid_is (def_uuid d)) (pools s) = None ->
            find (uuid_is (def_uuid d)) (pools s') = Some obj')
    | inl _ => True
    end)).
  destruct s as [l cd ad sd ev fs tr].
  unfold storagePoolCreateXML. wp_go; norm_state; try exact I; impossible.
  all: norm_names; rewrite ?map_map_replace by reflexivity.
  all: exists v; eexists; split; [reflexivity|]; split; [reflexivity|].
  all: split;
    [ apply find_replace_here;
      [ reflexivity | exact (registered_appended (virStoragePoolObjNew v) l) ] |].
  all: split; [reflexivity|]; split; [reflexivity|]; split; [reflexivity|].
  all: split; [reflexivity|].
  all: split; [eexists; split; [eassumption | apply written_exists]|].
  all: intros Hfresh.
  all: apply (find_uuid_replace (def_uuid v) _ (virStoragePoolObjNew v));
    [ apply find_appended; [exact Hfresh | apply String.eqb_refl]
    | apply String.eqb_refl ].
Qed.

(** X1.  After storagePoolCreateXML succeeds, storagePoolLookupByName with
    the name of the returned handle returns that same handle and leaves the
    state unchanged, one STARTED lifecycle event of the pool has been
    appended and the pool's state file exists. When no pool had the UUID
    before the call, storagePoolLookupByUUID returns the handle too and
    storagePoolIsActive returns 1 (the queries being permitted by access
    control). *)
Theorem storagePoolCreateXML_then_lookup (env : Env) (q : Queries)
        (conn : virConnectPtr) (xml : string) (flags : Z)
        (s s' : virStorageDriverState) (pool : virStoragePool) :
  storagePoolCreateXML env conn xml flags s = (inr pool, s') ->
  (forall c d v, QueryACL q c conn d v = true) ->
  storagePoolLookupByName q conn (pool_name pool) s' = (inr pool, s')
  /\ (virStoragePoolObjFindByUUID (pools s) (pool_uuid pool) = None ->
      storagePoolLookupByUUID q conn (pool_uuid pool) s' = (inr pool, s')
      /\ storagePoolIsActive q pool s' = (inr 1, s'))
  /\ storageEventState s'
     = storageEventState s
       ++ [virStoragePoolEventLifecycle (pool_name pool) (pool_uuid pool)
             VIR_STORAGE_POOL_EVENT_STARTED 0]
  /\ (exists stateFile,
        virFileBuildPath env (stateDir s) (pool_name pool) ".xml" = Some stateFile
        /\ file_exists stateFile s' = true).
Proof.
  intros Hrun Hacl.
  destruct (storagePoolCreateXML_registers _ _ _ _ _ _ _ Hrun)
    as [d [obj' [_ [-> [Hname [Hn [Hu [Hact [Hev [Hfile Huuid]]]]]]]]]].
  cbn [pool_name pool_uuid pool_conn].
  unfold storagePoolLookupByName, storagePoolLookupByUUID, storagePoolIsActive,
    virStoragePoolObjFromStoragePool, storagePoolObjFindByName,
    storagePoolObjFindByUUID, queryACL, virGetStoragePool, virStoragePoolObjIsActive.
  unfold bind, gets, ret. cbn [pool_uuid pool_name pool_conn].
  split; [|split; [|split; [exact Hev | exact Hfile]]]; revert Huuid.
  - intros _. rewrite Hname, Hacl. unfold obj_name in Hn. rewrite Hn, Hu.
    reflexivity.
  - intros Huuid Hfresh. unfold obj_name in Hn.
    rewrite (Huuid Hfresh), !Hacl, Hact, Hn, Hu. split; reflexivity.
Qed.

Lemma storagePoolLookupByTargetPath_scan_found conn path l pool :
  storagePoolLookupByTargetPath_scan conn path l = Some pool ->
  exists before obj after,
    l = before ++ obj :: after
    /\ active obj = true
    /\ def_target_path (def obj) = path
    /\ pool = virGetStoragePool conn (def obj)
    /\ forall o, In o before -> active o = false \/ def_target_path (def o) <> path.
Proof.
  induction l as [|a l IH]; simpl; [discriminate|].
  unfold virStoragePoolObjIsActive.
  destruct (active a) eqn:Ea; simpl.
  - destruct (String.eqb path (def_target_path (def a))) eqn:Ep.
    + intros H. injection H as <-. apply String.eqb_eq in Ep.
      exists [], a, l. repeat split; auto; intros ? [].
    + intros H. destruct (IH H) as [b [o [af [-> [H1 [H2 [H3 H4]]]]]]].
      exists (a :: b), o, af. repeat split; auto.
      intros o' [<-|Hin]; [|auto]. right. apply String.eqb_neq in Ep. congruence.
  - intros H. destruct (IH H) as [b [o [af [-> [H1 [H2 [H3 H4]]]]]]].
    exists (a :: b), o, af. repeat split; auto.
    intros o' [<-|Hin]; [left; exact Ea | auto].
Qed.

Lemma storagePoolLookupByTargetPath_scan_none conn path l :
  storagePoolLookupByTargetPath_scan conn path l = None <->
  forall o, In o l -> active o = true -> def_target_path (def o) <> path.
Proof.
  induction l as [|a l IH]; simpl.
  - split; [intros _ o [] | reflexivity].
  - unfold virStoragePoolObjIsActive. destruct (active a) eqn:Ea; simpl.
    + destruct (String.eqb path (def_target_path (def a))) eqn:Ep.
      * split; [discriminate|]. intros H. exfalso.
        apply String.eqb_eq in Ep. exact (H a (or_introl eq_refl) Ea (eq_sym Ep)).
      * rewrite IH. apply String.eqb_neq in Ep. split.
        -- intros H o [<-|Hin] Ho; [congruence | exact (H o Hin Ho)].
        -- intros H o Hin. exact (H o (or_intror Hin)).
    + rewrite IH. split.
      * intros H o [<-|Hin] Ho; [congruence | exact (H o Hin Ho)].
      * intros H o Hin. exact (H o (or_intror Hin)).
Qed.

(** X22.  storagePoolLookupByTargetPath never changes the state. A pool it
    returns is the first active pool, in registry order, whose target path
    equals the path as given (inactive pools are skipped, and the sanitized
    path is not what is compared); when no active pool has that target path
    it reports VIR_ERR_NO_STORAGE_VOL. *)
Theorem storagePoolLookupByTargetPath_first_active (conn : virConnectPtr)
        (path : string) (s : virStorageDriverState) :
  snd (storagePoolLookupByTargetPath conn path s) = s
  /\ (forall pool,
        fst (storagePoolLookupByTargetPath conn path s) = inr pool ->
        exists before obj after,
          pools s = before ++ obj :: after
          /\ active obj = true
          /\ def_target_path (def obj) = path
          /\ pool = virGetStoragePool conn (def obj)
          /\ forall o, In o before ->
                       active o = false \/ def_target_path (def o) <> path)
  /\ ((forall o, In o (pools s) -> active o = true ->
                 def_target_path (def o) <> path) ->
      fst (storagePoolLookupByTargetPath conn path s)
      = inl (Reported VIR_ERR_NO_STORAGE_VOL
               (fmt "no storage pool with matching target path '" path "'"))).
Proof.
  unfold storagePoolLookupByTargetPath, bind, gets, ret, virReportError, fail.
  destruct (storagePoolLookupByTargetPath_scan conn path (pools s)) as [p|] eqn:E;
    simpl; (split; [reflexivity|]); split.
  - intros pool H. injection H as <-.
    exact (storagePoolLookupByTargetPath_scan_found _ _ _ _ E).
  - intros H. apply (storagePoolLookupByTargetPath_scan_none conn) in H. congruence.
  - intros pool H. discriminate H.
  - reflexivity.
Qed.

Lemma key_is_key key v : key_is key v = true -> vol_key v = Some key.
Proof.
  unfold key_is. destruct (vol_key v) as [k|]; [|discriminate].
  intros H. apply String.eqb_eq in H. congruence.
Qed.

Lemma storageVolLookupByKey_scan_found q conn key l vol :
  storageVolLookupByKey_scan q conn key l = inr (Some vol) ->
  exists before obj after voldef,
    l = before ++ obj :: after
    /\ active obj = true
    /\ In voldef (volumes obj)
    /\ vol_key voldef = Some key
    /\ vol = virGetStorageVol conn (def obj) voldef
    /\ forall o, In o before ->
                 active o = false \/ virStorageVolDefFindByKey o key = None.
Proof.
  induction l as [|a l IH]; simpl; [discriminate|].
  unfold virStoragePoolObjIsActive.
  destruct (active a) eqn:Ea.
  - destruct (virStorageVolDefFindByKey a key) as [v|] eqn:Ek.
    + destruct (QueryACL q AclVolLookupByKey conn (def a) (Some v)); [|discriminate].
      intros H. injection H as <-.
      unfold virStorageVolDefFindByKey in Ek. apply find_some in Ek.
      exists [], a, l, v. destruct Ek as [Hin Hk].
      repeat split; auto using key_is_key; intros ? [].
    + intros H. destruct (IH H) as [b [o [af [v [-> [H1 [H2 [H3 [H4 H5]]]]]]]]].
      exists (a :: b), o, af, v. repeat split; auto.
      intros o' [<-|Hin]; [right; exact Ek | auto].
  - intros H. destruct (IH H) as [b [o [af [v [-> [H1 [H2 [H3 [H4 H5]]]]]]]]].
    exists (a :: b), o, af, v. repeat split; auto.
    intros o' [<-|Hin]; [left; exact Ea | auto].
Qed.

Lemma storageVolLookupByKey_scan_none q conn key l :
  (forall o, In o l -> active o = true -> virStorageVolDefFindByKey o key = None) ->
  storageVolLookupByKey_scan q conn key l = inr None.
Proof.
  induction l as [|a l IH]; simpl; [reflexivity|].
  intros H. unfold virStoragePoolObjIsActive.
  destruct (active a) eqn:Ea.
  - rewrite (H a (or_introl eq_refl) Ea). apply IH.
    intros o Hin. exact (H o (or_intror Hin)).
  - apply IH. intros o Hin. exact (H o (or_intror Hin)).
Qed.

(** X23.  storageVolLookupByKey never changes the state. A volume it returns
    has the key and belongs to the first active pool, in registry order,
    that holds a volume of that key (inactive pools are skipped); when no
    active pool holds one it reports VIR_ERR_NO_STORAGE_VOL. *)
Theorem storageVolLookupByKey_first_active (q : Queries) (conn : virConnectPtr)
        (key : string) (s : virStorageDriverState) :
  snd (storageVolLookupByKey q conn key s) = s
  /\ (forall vol,
        fst (storageVolLookupByKey q conn key s) = inr vol ->
        exists before obj after voldef,
          pools s = before ++ obj :: after
          /\ active obj = true
          /\ In voldef (volumes obj)
          /\ vol_key voldef = Some key
          /\ vol = virGetStorageVol conn (def obj) voldef
          /\ forall o, In o before ->
                       active o = false \/ virStorageVolDefFindByKey o key = None)
  /\ ((forall o, In o (pools s) -> active o = true ->
                 virStorageVolDefFindByKey o key = None) ->
      fst (storageVolLookupByKey q conn key s)
      = inl (Reported VIR_ERR_NO_STORAGE_VOL
               (String.append "no storage vol with matching key " key))).
Proof.
  unfold storageVolLookupByKey, bind, gets, ret, virReportError, fail.
  split; [|split].
  - destruct (storageVolLookupByKey_scan q conn key (pools s)) as [e|[v|]]; reflexivity.
  - intros vol.
    destruct (storageVolLookupByKey_scan q conn key (pools s)) as [e|[v|]] eqn:E;
      simpl; intros H; try discriminate H.
    injection H as <-. exact (storageVolLookupByKey_scan_found _ _ _ _ _ E).
  - intros H. rewrite (storageVolLookupByKey_scan_none q conn key _ H). reflexivity.
Qed.

(** ** The autostart flag *)

Lemma file_exists_written p fs :
  existsb (String.eqb p) (if existsb (String.eqb p) fs then fs else p :: fs) = true.
Proof.
  destruct (existsb (String.eqb p) fs) eqn:E; [exact E|].
  simpl. rewrite String.eqb_refl. reflexivity.
Qed.

Lemma file_exists_unlinked p fs :
  existsb (String.eqb p) (filter (fun x => negb (String.eqb p x)) fs) = false.
Proof.
  induction fs as [|a fs IH]; simpl; [reflexivity|].
  destruct (String.eqb p a) eqn:E; simpl; [exact IH|].
  rewrite E. exact IH.
Qed.

(** X25.  If storagePoolSetAutostart succeeds, the pool has a config file.
    When the flag already had the requested value the state is unchanged;
    otherwise the pool carries the new flag and its autostart link exists
    exactly when autostart was requested. In both cases
    storagePoolGetAutostart then returns the requested value, 1 or 0. *)
Theorem storagePoolSetAutostart_then_get (q : Queries) (pool : virStoragePool)
        (a : Z) (s s' : virStorageDriverState) :
  storagePoolSetAutostart q pool a s = (inr tt, s') ->
  exists obj cf,
    virStoragePoolObjFindByUUID (pools s) (pool_uuid pool) = Some obj
    /\ configFile obj = Some cf
    /\ (autostart obj = negb (a =? 0) -> s' = s)
    /\ (autostart obj <> negb (a =? 0) ->
        virStoragePoolObjFindByUUID (pools s') (pool_uuid pool)
        = Some (set_autostart obj (negb (a =? 0)))
        /\ match autostartLink obj with
           | Some link => file_exists link s' = negb (a =? 0)
           | None => a = 0
           end)
    /\ (QueryACL q AclPoolGetAutostart (pool_conn pool) (def obj) None = true ->
        storagePoolGetAutostart q pool s'
        = (inr (Z_of_bool (negb (a =? 0))), s')).
Proof.
  unfold storagePoolSetAutostart, storagePoolGetAutostart,
    virStoragePoolObjFromStoragePool, storagePoolObjFindByUUID, queryACL,
    virStoragePoolObjGetConfigFile, virStoragePoolObjGetAutostartLink,
    virStoragePoolObjIsAutostart, virStoragePoolObjSetAutostart, store, store_at,
    makePath, symlink, unlink, write_file, virReportError,
    bind, gets, ret, fail, modify.
  destruct (virStoragePoolObjFindByUUID (pools s) (pool_uuid pool)) as [obj|] eqn:Hf;
    [|discriminate].
  destruct (QueryACL q AclPoolSetAutostart (pool_conn pool) (def obj) None);
    [|discriminate].
  destruct (configFile obj) as [cf|] eqn:Hcf; [|discriminate].
  intros H. exists obj, cf. split; [reflexivity|]. split; [exact Hcf|].
  assert (Hu : uuid_is (pool_uuid pool) obj = true).
  { unfold virStoragePoolObjFindByUUID in Hf. apply find_some in Hf. tauto. }
  destruct (Bool.eqb (autostart obj) (negb (a =? 0))) eqn:Heq; simpl in H.
  - apply Bool.eqb_prop in Heq. injection H as <-.
    split; [reflexivity|]. split; [congruence|].
    intros Hacl. rewrite Hf. cbn beta iota. rewrite Hacl, Heq. reflexivity.
  - apply Bool.eqb_false_iff in Heq.
    split; [intros; contradiction|].
    destruct (negb (a =? 0)) eqn:Hnew; simpl in H.
    + destruct (virFileMakePath q (autostartDir s)); [|discriminate].
      cbn beta iota in H.
      destruct (autostartLink obj) as [link|] eqn:Hl; [|discriminate].
      match type of H with
      | context [if file_exists link ?t then _ else _] =>
          destruct (file_exists link t) eqn:Hex; [discriminate|]
      end.
      rewrite Hex in H.
      injection H as <-. cbn [pools set_pools set_files].
      unfold virStoragePoolObjFindByUUID in *.
      change (obj_name (set_autostart obj true)) with (obj_name obj).
      rewrite (find_uuid_replace _ (set_autostart obj true) obj _ Hf Hu).
      split; [intros _; split; [reflexivity|]|].
      * unfold file_exists. cbn [files set_files set_pools existsb].
        rewrite String.eqb_refl. reflexivity.
      * intros Hacl. cbn beta iota. change (def (set_autostart obj true)) with (def obj). rewrite Hacl. reflexivity.
    + assert (Ha : a = 0).
      { apply Bool.negb_false_iff in Hnew. lia. }
      destruct (autostartLink obj) as [link|] eqn:Hl;
        [destruct (unlink_refused q link); [discriminate|]|];
        cbn beta iota in H; injection H as <-;
        cbn [pools set_pools set_files];
        unfold virStoragePoolObjFindByUUID in *;
        change (obj_name (set_autostart obj false)) with (obj_name obj);
        rewrite (find_uuid_replace _ (set_autostart obj false) obj _ Hf Hu);
        (split; [intros _; split; [reflexivity|]|intros Hacl; cbn beta iota; change (def (set_autostart obj false)) with (def obj); rewrite Hacl; reflexivity]).
      * unfold file_exists. cbn [files set_files set_pools].
        apply file_exists_unlinked.
      * exact Ha.
Qed.

(** X26.  If storagePoolSetAutostart fails, the registry of pools is
    unchanged, so the pool keeps the autostart flag it had.  The driver
    state is unchanged as a whole, except when autostart was requested and
    the symlink failed after the autostart directory was made: then that
    directory, absent before, is the one path added.  For a pool that
    passes access control: without a config file the failure is
    VIR_ERR_INTERNAL_ERROR, pool has no config file, with the state
    unchanged; with one, clearing the flag fails only when the pool was
    marked and unlink of its autostart link was refused with an errno other
    than ENOENT and ENOTDIR. *)
Theorem storagePoolSetAutostart_failure (q : Queries) (pool : virStoragePool)
        (a : Z) (s s' : virStorageDriverState) (e : failure) :
  storagePoolSetAutostart q pool a s = (inl e, s') ->
  pools s' = pools s
  /\ (s' = s
      \/ (a <> 0
          /\ virFileMakePath q (autostartDir s) = true
          /\ file_exists (autostartDir s) s = false
          /\ s' = set_files s (autostartDir s :: files s)))
  /\ (forall obj,
        virStoragePoolObjFindByUUID (pools s) (pool_uuid pool) = Some obj ->
        QueryACL q AclPoolSetAutostart (pool_conn pool) (def obj) None = true ->
        (configFile obj = None ->
         e = Reported VIR_ERR_INTERNAL_ERROR "pool has no config file" /\ s' = s)
        /\ (configFile obj <> None -> a = 0 ->
            autostart obj = true
            /\ e = Callee "unlink"
            /\ exists link,
                 autostartLink obj = Some link /\ unlink_refused q link = true)).
Proof.
  unfold storagePoolSetAutostart, storagePoolObjFindByUUID, queryACL,
    virStoragePoolObjGetConfigFile, virStoragePoolObjGetAutostartLink,
    virStoragePoolObjIsAutostart, virStoragePoolObjSetAutostart, store, store_at,
    makePath, symlink, unlink, write_file, virReportError,
    bind, gets, ret, fail, modify.
  destruct (virStoragePoolObjFindByUUID (pools s) (pool_uuid pool)) as [obj|] eqn:Hf.
  2:{ intros H. injection H as <- <-. split; [reflexivity|].
      split; [left; reflexivity|]. intros; discriminate. }
  destruct (QueryACL q AclPoolSetAutostart (pool_conn pool) (def obj) None) eqn:Hacl.
  2:{ intros H. injection H as <- <-. split; [reflexivity|].
      split; [left; reflexivity|].
      intros o Ho. injection Ho as <-. congruence. }
  destruct (configFile obj) as [cf|] eqn:Hcf.
  2:{ intros H. injection H as <- <-. split; [reflexivity|].
      split; [left; reflexivity|].
      intros o Ho _. injection Ho as <-.
      split; [intros _; split; reflexivity | congruence]. }
  intros H.
  destruct (Bool.eqb (autostart obj) (negb (a =? 0))) eqn:Heq; simpl in H;
    [discriminate|].
  apply Bool.eqb_false_iff in Heq.
  destruct (negb (a =? 0)) eqn:Hnew; simpl in H.
  - assert (Ha : a <> 0).
    { apply Bool.negb_true_iff in Hnew. lia. }
    destruct (virFileMakePath q (autostartDir s)) eqn:Hmk; cbn beta iota in H.
    + assert (Hs : s' = set_files s (if file_exists (autostartDir s) s
                                     then files s else autostartDir s :: files s)).
      { destruct (autostartLink obj) as [link|]; [|congruence].
        match type of H with
        | context [if file_exists link ?t then _ else _] =>
            destruct (file_exists link t)
        end; [congruence|discriminate]. }
      split; [rewrite Hs; reflexivity|].
      split.
      * destruct (file_exists (autostartDir s) s) eqn:Hdir.
        -- left. rewrite Hs. destruct s; reflexivity.
        -- right. repeat split; assumption.
      * intros o Ho _. injection Ho as <-.
        split; [congruence | intros _ Hz; contradiction].
    + injection H as <- <-. split; [reflexivity|].
      split; [left; reflexivity|].
      intros o Ho _. injection Ho as <-.
      split; [congruence | intros _ Hz; contradiction].
  - assert (Hflag : autostart obj = true).
    { destruct (autostart obj); [reflexivity | contradiction Heq; reflexivity]. }
    destruct (autostartLink obj) as [link|] eqn:Hl; [|discriminate].
    destruct (unlink_refused q link) eqn:Hun; [|discriminate].
    injection H as <- <-. split; [reflexivity|].
    split; [left; reflexivity|].
    intros o Ho _. injection Ho as <-.
    split; [congruence|]. intros _ _.
    split; [exact Hflag|]. split; [reflexivity|].
    exists link. split; [exact Hl | exact Hun].
Qed.

(** ** Autostart when the daemon starts *)

Lemma autostart_kept_refl o : autostart_kept o o.
Proof. unfold autostart_kept. repeat split; auto. Qed.

Lemma autostart_kept_trans a b c :
  autostart_kept a b -> autostart_kept b c -> autostart_kept a c.
Proof.
  unfold autostart_kept.
  intros [H1 [H2 [H3 [H4 [H5 H6]]]]] [K1 [K2 [K3 [K4 [K5 K6]]]]].
  repeat split; try congruence.
  - intros Hf. specialize (H5 Hf). subst b. exact (K5 Hf).
  - auto.
Qed.

Lemma storageDriverAutostart_pool_turn (env : Env) (obj : virStoragePoolObj)
      (s : virStorageDriverState) :
  wp (storageDriverAutostart_pool env obj)
     (fun r s1 =>
        r = inr tt
        /\ storageEventState s1 = storageEventState s
        /\ exists X, autostart_kept obj X
             /\ (pools s1 = pools s
                 \/ pools s1
                    = map (fun o => if name_is (obj_name obj) o then X else o)
                          (pools s))) s.
Proof.
  destruct s as [l cd ad sd ev fs tr].
  unfold storageDriverAutostart_pool. wp_go; norm_state.
  all: split; [reflexivity|]; split; [reflexivity|].
  all: try solve [exists obj; split; [apply autostart_kept_refl | left; reflexivity]].
  all: norm_names; rewrite ?map_map_replace by reflexivity.
  all: eexists; split; [|right; reflexivity].
  all: unfold autostart_kept; norm_obj.
  all: repeat split; try reflexivity.
  all: auto.
  all: intros Hf; exfalso;
    unfold virStoragePoolObjIsAutostart, virStoragePoolObjIsActive in *.
  all: rewrite Hf in *; discriminate.
Qed.

Lemma same_name_same_object (l : list virStoragePoolObj) a b :
  NoDup (map obj_name l) -> In a l -> In b l -> obj_name a = obj_name b -> a = b.
Proof.
  induction l as [|x l IH]; simpl; [intros _ []|].
  intros Hnd Ha Hb Hn. inversion Hnd as [|? ? Hx Hl]; subst.
  destruct Ha as [<-|Ha], Hb as [<-|Hb]; auto.
  - exfalso. apply Hx. rewrite Hn. apply in_map. exact Hb.
  - exfalso. apply Hx. rewrite <- Hn. apply in_map. exact Ha.
Qed.

Lemma replace_kept (l : list virStoragePoolObj) obj X :
  NoDup (map obj_name l) -> In obj l -> autostart_kept obj X ->
  Forall2 autostart_kept l
          (map (fun o => if name_is (obj_name obj) o then X else o) l).
Proof.
  intros Hnd Hin HX.
  assert (H : forall o, In o l ->
                autostart_kept o (if name_is (obj_name obj) o then X else o)).
  { intros o Ho. destruct (name_is (obj_name obj) o) eqn:E.
    - apply name_is_eq in E.
      rewrite (same_name_same_object l o obj Hnd Ho Hin E). exact HX.
    - apply autostart_kept_refl. }
  clear Hnd Hin. induction l as [|a l IH]; simpl; constructor.
  - apply H. left. reflexivity.
  - apply IH. intros o Ho. apply H. right. exact Ho.
Qed.

Lemma Forall2_kept_refl l : Forall2 autostart_kept l l.
Proof. induction l; constructor; auto using autostart_kept_refl. Qed.

Lemma Forall2_kept_trans l1 : forall l2 l3,
  Forall2 autostart_kept l1 l2 -> Forall2 autostart_kept l2 l3 ->
  Forall2 autostart_kept l1 l3.
Proof.
  induction l1 as [|a l1 IH]; intros l2 l3 H12 H23.
  - inversion H12; subst. inversion H23; subst. constructor.
  - inversion H12; subst. inversion H23; subst. constructor.
    + eapply autostart_kept_trans; eassumption.
    + eapply IH; eassumption.
Qed.

Lemma Forall2_kept_names l1 l2 :
  Forall2 autostart_kept l1 l2 -> map obj_name l2 = map obj_name l1.
Proof.
  induction 1 as [|a b l1 l2 Hab _ IH]; simpl; [reflexivity|].
  destruct Hab as [Hn _]. rewrite Hn, IH. reflexivity.
Qed.

Lemma storageDriverAutostart_from_kept (env : Env) (left : nat) :
  forall (i : nat) (s : virStorageDriverState),
    NoDup (map obj_name (pools s)) ->
    exists s',
      storageDriverAutostart_from env i left s = (inr tt, s')
      /\ storageEventState s' = storageEventState s
      /\ Forall2 autostart_kept (pools s) (pools s').
Proof.
  induction left as [|left IH]; intros i s Hnd; simpl.
  - exists s. repeat split. apply Forall2_kept_refl.
  - unfold bind at 1, gets at 1.
    destruct (nth_error (pools s) i) as [obj|] eqn:Hnth.
    2:{ exists s. repeat split. apply Forall2_kept_refl. }
    unfold bind.
    pose proof (storageDriverAutostart_pool_turn env obj s) as Hturn.
    unfold wp in Hturn.
    destruct (storageDriverAutostart_pool env obj s) as [r s1].
    cbn [fst snd] in Hturn.
    destruct Hturn as [-> [Hev [X [HX Hp]]]].
    assert (Hk : Forall2 autostart_kept (pools s) (pools s1)).
    { destruct Hp as [->| ->]; [apply Forall2_kept_refl|].
      apply replace_kept; auto. eapply nth_error_In; eassumption. }
    assert (Hnd1 : NoDup (map obj_name (pools s1))).
    { rewrite (Forall2_kept_names _ _ Hk). exact Hnd. }
    destruct (IH (S i) s1 Hnd1) as [s' [Hrun [Hev' Hk']]].
    exists s'. split; [exact Hrun|]. split; [congruence|].
    eapply Forall2_kept_trans; eassumption.
Qed.

(** X27.  On a registry with unique pool names storageDriverAutostart always
    returns, queues no event, and keeps the position, name, UUID, autostart
    flag and config file of every pool; a pool that is not marked autostart
    or is active already is left exactly as it is, and no pool is
    deactivated. *)
Theorem storageDriverAutostart_kept (env : Env) (s : virStorageDriverState) :
  NoDup (map obj_name (pools s)) ->
  exists s',
    storageDriverAutostart env s = (inr tt, s')
    /\ storageEventState s' = storageEventState s
    /\ Forall2 autostart_kept (pools s) (pools s').
Proof.
  intros Hnd. unfold storageDriverAutostart, bind, gets.
  apply storageDriverAutostart_from_kept. exact Hnd.
Qed.

(** ** The state of a pool when the daemon starts *)

Lemma wp_total {A} (m : M A) (Q : failure + A -> virStorageDriverState -> Prop) s :
  wp m Q s -> exists r s', m s = (r, s') /\ Q r s'.
Proof.
  unfold wp. destruct (m s) as [r s']. simpl. intros H. exists r, s'. auto.
Qed.

(** X28.  storagePoolUpdateState on a registered pool always returns and
    queues no event. Either the pool type has no backend (state file
    unlinked, registry unchanged), or checkPool found the pool active and
    refreshPool succeeded (pool marked active, files unchanged, one
    refreshPool call), or the pool ends inactive: its state file is
    unlinked, a pool without a config file is removed from the registry and
    one with a config file and no pending definition is marked inactive. *)
Theorem storagePoolUpdateState_outcome (env : Env) (q : Queries)
        (obj : virStoragePoolObj) (s : virStorageDriverState) (stateFile : string) :
  virFileBuildPath env (stateDir s) (obj_name obj) ".xml" = Some stateFile ->
  registered (obj_name obj) (pools s) ->
  exists s',
    storagePoolUpdateState env q obj s = (inr tt, s')
    /\ storageEventState s' = storageEventState s
    /\ ((virStorageBackendForType env (def_type (def obj)) = None
         /\ pools s' = pools s
         /\ file_exists stateFile s' = false)
        \/ (exists backend entry o',
              virStorageBackendForType env (def_type (def obj)) = Some backend
              /\ checkPool q backend = Some entry
              /\ 0 <= fst (entry obj)
              /\ snd (entry obj) = true
              /\ 0 <= fst (fst (refreshPool backend (set_volumes obj []) 0))
              /\ virStoragePoolObjFindByName (pools s') (obj_name obj) = Some o'
              /\ active o' = true
              /\ files s' = files s
              /\ trace s' = trace s ++ [CallRefreshPool (obj_name obj)])
        \/ (exists backend,
              virStorageBackendForType env (def_type (def obj)) = Some backend
              /\ file_exists stateFile s' = false
              /\ match configFile obj with
                 | None => virStoragePoolObjFindByName (pools s') (obj_name obj) = None
                 | Some _ =>
                     newDef obj = None ->
                     exists o',
                       virStoragePoolObjFindByName (pools s') (obj_name obj) = Some o'
                       /\ active o' = false
                 end)).
Proof.
  intros Hpath Hreg.
  assert (H : wp (storagePoolUpdateState env q obj) (fun r s' =>
    r = inr tt
    /\ storageEventState s' = storageEventState s
    /\ ((virStorageBackendForType env (def_type (def obj)) = None
         /\ pools s' = pools s
         /\ file_exists stateFile s' = false)
        \/ (exists backend entry o',
              virStorageBackendForType env (def_type (def obj)) = Some backend
              /\ checkPool q backend = Some entry
              /\ 0 <= fst (entry obj)
              /\ snd (entry obj) = true
              /\ 0 <= fst (fst (refreshPool backend (set_volumes obj []) 0))
              /\ virStoragePoolObjFindByName (pools s') (obj_name obj) = Some o'
              /\ active o' = true
              /\ files s' = files s
              /\ trace s' = trace s ++ [CallRefreshPool (obj_name obj)])
        \/ (exists backend,
              virStorageBackendForType env (def_type (def obj)) = Some backend
              /\ file_exists stateFile s' = false
              /\ match configFile obj with
                 | None => virStoragePoolObjFindByName (pools s') (obj_name obj) = None
                 | Some _ =>
                     newDef obj = None ->
                     exists o',
                       virStoragePoolObjFindByName (pools s') (obj_name obj) = Some o'
                       /\ active o' = false
                 end))) s).
  { destruct s as [l cd ad sd ev fs tr]. cbn [stateDir pools] in *.
    unfold storagePoolUpdateState. wp_go; norm_state.
    all: split; [reflexivity|].
    all: split; [reflexivity|].
    all: try discriminate Hpath.
    all: impossible.
    all: injection Hpath as ->.
    all: unfold file_exists; norm_state; norm_obj; impossible.
    all: repeat match goal with
         | |- context [obj_name (set_volumes ?x ?vs)] =>
             change (obj_name (set_volumes x vs)) with (obj_name x)
         end.
    all: norm_names; rewrite ?map_map_replace by reflexivity.
    all: try solve [left; split; [reflexivity|]; split;
                    [reflexivity | apply file_exists_unlinked]].
    all: try solve [right; right; eexists; split; [reflexivity|]; split;
                    [apply file_exists_unlinked|];
                    match goal with
                    | H : configFile _ = _ |- _ => rewrite H
                    end;
                    first [ apply find_removed
                          | intros Hnew; eexists; split;
                            [apply find_replace_here; [reflexivity | exact Hreg]
                            | reflexivity]
                          | intros Hnew; exfalso; congruence ]].
    destruct (checkPool q v) as [entry|] eqn:Hcp; [|discriminate].
    destruct (fst (entry obj) <? 0) eqn:Hlt; [discriminate|].
    right; left. exists v, entry. eexists.
    split; [reflexivity|]. split; [exact Hcp|].
    split; [apply Z.ltb_ge; exact Hlt|]. split; [exact Heqb|].
    split; [rewrite Heqp; apply Z.ltb_ge; exact Heqb0|].
    split; [apply find_replace_here; [reflexivity | exact Hreg]|].
    repeat split. }
  destruct (wp_total _ _ _ H) as [r [s' [Hrun [-> Hrest]]]].
  exists s'. split; [exact Hrun | exact Hrest].
Qed.

(** ** A build that fails *)

Lemma filter_unnamed (n : string) (l : list virStorageVolDef) :
  find (vol_is n) l = None ->
  filter (fun x => negb (vol_is n x)) l = l.
Proof.
  induction l as [|a l IH]; simpl; [reflexivity|].
  destruct (vol_is n a) eqn:E; [discriminate|]. simpl.
  intros H. rewrite (IH H). reflexivity.
Qed.

Lemma filter_renamed (n : string) (f : virStorageVolDef -> virStorageVolDef)
      (l : list virStorageVolDef) :
  (forall x, vol_name (f x) = vol_name x) ->
  filter (fun x => negb (vol_is n x))
         (map (fun x => if vol_is n x then f x else x) l)
  = filter (fun x => negb (vol_is n x)) l.
Proof.
  intros Hf. induction l as [|a l IH]; simpl; [reflexivity|].
  destruct (vol_is n a) eqn:E.
  - assert (E' : vol_is n (f a) = true).
    { unfold vol_is in *. rewrite Hf. exact E. }
    rewrite E'. simpl. exact IH.
  - rewrite E. simpl. rewrite IH. reflexivity.
Qed.

Lemma filter_put (n : string) (w : virStorageVolDef) (l : list virStorageVolDef) :
  vol_name w = n ->
  filter (fun x => negb (vol_is n x))
         (map (fun x => if vol_is n x then w else x) l)
  = filter (fun x => negb (vol_is n x)) l.
Proof.
  intros Hw. induction l as [|a l IH]; simpl; [reflexivity|].
  destruct (vol_is n a) eqn:E.
  - assert (E' : vol_is n w = true)
      by (unfold vol_is; rewrite Hw; apply String.eqb_refl).
    rewrite E'. simpl. exact IH.
  - rewrite E. simpl. rewrite IH. reflexivity.
Qed.

Lemma filter_appended (n : string) (w : virStorageVolDef) (l : list virStorageVolDef) :
  vol_name w = n ->
  find (vol_is n) l = None ->
  filter (fun x => negb (vol_is n x)) (l ++ [w]) = l.
Proof.
  intros Hw Hl. rewrite filter_app, (filter_unnamed _ _ Hl). simpl.
  unfold vol_is. rewrite Hw, String.eqb_refl. simpl. apply app_nil_r.
Qed.

Lemma storageVolCreateXML_locked_pending env pool xmldesc flags s job s1 :
  storageVolCreateXML_locked env pool xmldesc flags s = (inr (VolBuilding job), s1) ->
  exists obj X,
    virStoragePoolObjFindByUUID (pools s) (pool_uuid pool) = Some obj
    /\ job_pool job = obj_name obj
    /\ virStoragePoolObjFindByName (pools s1) (job_pool job) = Some X
    /\ asyncjobs X = asyncjobs obj + 1
    /\ virStorageVolDefFindByName obj (job_vol job) = None
    /\ filter (fun x => negb (vol_is (job_vol job) x)) (volumes X) = volumes obj
    /\ storageEventState s1 = storageEventState s
    /\ files s1 = files s.
Proof.
  apply (wp_run _ (fun r s1 =>
    match r with
    | inr (VolBuilding job) =>
      exists obj X,
        virStoragePoolObjFindByUUID (pools s) (pool_uuid pool) = Some obj
        /\ job_pool job = obj_name obj
        /\ find (name_is (job_pool job)) (pools s1) = Some X
        /\ asyncjobs X = asyncjobs obj + 1
        /\ virStorageVolDefFindByName obj (job_vol job) = None
        /\ filter (fun x => negb (vol_is (job_vol job) x)) (volumes X) = volumes obj
        /\ storageEventState s1 = storageEventState s
        /\ files s1 = files s
    | _ => True
    end)).
  destruct s as [l cd ad sd ev fs tr].
  unfold storageVolCreateXML_locked. wp_go; norm_state; try exact I; impossible.
  all: unfold virStoragePoolObjIsActive in *.
  all: registered_by_uuid.
  all: norm_names; rewrite ?map_map_replace by reflexivity.
  all: exists v; eexists; split; [reflexivity|].
  all: cbn [job_pool job_vol].
  all: split; [reflexivity|].
  all: split; [apply find_replace_here; [reflexivity | exact Hreg]|].
  all: split; [reflexivity|].
  all: unfold put_vol; norm_obj.
  all: cbn [vol_name backend_vol set_vol_key set_vol_building].
  all: split; [assumption|]; split; [|split; reflexivity].
  all: rewrite filter_put by reflexivity.
  all: apply filter_appended; [reflexivity | assumption].
Qed.

Lemma storageVolCreateXML_build_frame (job : volBuildJob)
      (s s' : virStorageDriverState) (r : failure + Z) :
  storageVolCreateXML_build job s = (r, s') ->
  pools s' = pools s
  /\ storageEventState s' = storageEventState s
  /\ files s' = files s.
Proof.
  apply (wp_run _ (fun r s' =>
    pools s' = pools s
    /\ storageEventState s' = storageEventState s
    /\ files s' = files s)).
  destruct s as [l cd ad sd ev fs tr].
  unfold storageVolCreateXML_build. wp_go; norm_state; repeat split.
Qed.

Lemma storageVolCreateXML_relocked_failed (job : volBuildJob) (buildret : Z)
      (s s' : virStorageDriverState) (X : virStoragePoolObj) :
  storageVolCreateXML_relocked job buildret s = (inl (Callee "buildVol"), s') ->
  virStoragePoolObjFindByName (pools s) (job_pool job) = Some X ->
  exists X',
    virStoragePoolObjFindByName (pools s') (job_pool job) = Some X'
    /\ asyncjobs X' = asyncjobs X - 1
    /\ volumes X' = filter (fun x => negb (vol_is (job_vol job) x)) (volumes X)
    /\ storageEventState s' = storageEventState s
    /\ files s' = files s.
Proof.
  intros Hrun.
  refine (wp_run _ (fun r s' =>
    match r with
    | inl (Callee "buildVol") =>
      virStoragePoolObjFindByName (pools s) (job_pool job) = Some X ->
      exists X',
        find (name_is (job_pool job)) (pools s') = Some X'
        /\ asyncjobs X' = asyncjobs X - 1
        /\ volumes X' = filter (fun x => negb (vol_is (job_vol job) x)) (volumes X)
        /\ storageEventState s' = storageEventState s
        /\ files s' = files s
    | _ => True
    end) _ _ _ _ Hrun). clear Hrun.
  destruct s as [l cd ad sd ev fs tr].
  unfold storageVolCreateXML_relocked. wp_go; norm_state; try exact I.
  intros Hx. injection Hx as <-.
  match goal with
  | H : virStorageVolDefFindByName _ _ = Some ?w |- _ =>
      apply find_some in H; destruct H as [_ H]; apply String.eqb_eq in H;
      rewrite H
  end.
  match goal with
  | H : virStoragePoolObjFindByName _ _ = Some ?o |- _ =>
      pose proof (find_registered _ _ _ H) as Hreg;
      apply find_some in H; destruct H as [_ H]; apply name_is_eq in H
  end.
  repeat match goal with
  | |- context [name_is (obj_name ?x)] =>
      progress change (obj_name x) with (obj_name v)
  end.
  rewrite ?map_map_replace by reflexivity.
  eexists. split.
  - match goal with H : obj_name _ = _ |- _ => rewrite H end.
    apply find_replace_here; [assumption | exact Hreg].
  - norm_obj. split; [reflexivity|]. split; [|split; reflexivity].
    unfold with_vol. norm_obj.
    apply (filter_renamed _ (fun x => set_vol_building x false)).
    reflexivity.
Qed.

(** X17.  If storageVolCreateXML fails because buildVol failed, the pool's
    volume list and job counter are those before the call, no event has been
    queued and no file has changed. *)
Theorem storageVolCreateXML_build_failure (env : Env) (pool : virStoragePool)
        (xmldesc : string) (flags : Z) (s s' : virStorageDriverState) :
  storageVolCreateXML env pool xmldesc flags s = (inl (Callee "buildVol"), s') ->
  exists obj obj',
    virStoragePoolObjFindByUUID (pools s) (pool_uuid pool) = Some obj
    /\ virStoragePoolObjFindByName (pools s') (obj_name obj) = Some obj'
    /\ volumes obj' = volumes obj
    /\ asyncjobs obj' = asyncjobs obj
    /\ storageEventState s' = storageEventState s
    /\ files s' = files s.
Proof.
  unfold storageVolCreateXML, bind.
  destruct (storageVolCreateXML_locked env pool xmldesc flags s)
    as [[e1|[vol|job]] s1] eqn:E1.
  - intros H. injection H as -> <-. exfalso.
    assert (W : wp (storageVolCreateXML_locked env pool xmldesc flags)
                   (fun r _ => r <> inl (Callee "buildVol")) s).
    { destruct s as [l cd ad sd ev fs tr].
      unfold storageVolCreateXML_locked. wp_go; norm_state; discriminate. }
    exact (wp_run _ _ _ _ _ W E1 eq_refl).
  - discriminate.
  - destruct (storageVolCreateXML_locked_pending _ _ _ _ _ _ _ E1)
      as [obj [X [Hobj [Hname [HX [Hjobs [Hfree [Hvols [Hev Hfs]]]]]]]]].
    destruct (storageVolCreateXML_build job s1) as [[e2|buildret] s2] eqn:E2.
    + intros H. injection H as -> <-. exfalso.
      assert (W : wp (storageVolCreateXML_build job)
                     (fun r _ => r <> inl (Callee "buildVol")) s1).
      { destruct s1 as [l cd ad sd ev fs tr].
        unfold storageVolCreateXML_build. wp_go; norm_state; discriminate. }
      exact (wp_run _ _ _ _ _ W E2 eq_refl).
    + destruct (storageVolCreateXML_build_frame _ _ _ _ E2) as [Hp2 [Hev2 Hfs2]].
      intros H3. rewrite <- Hp2 in HX.
      destruct (storageVolCreateXML_relocked_failed _ _ _ _ _ H3 HX)
        as [X' [HX' [Hjobs' [Hvols' [Hev3 Hfs3]]]]].
      exists obj, X'. split; [exact Hobj|]. rewrite <- Hname.
      split; [exact HX'|]. split; [congruence|]. split; [lia|].
      split; congruence.
Qed.

(** ** Creation of a volume, then its lookup *)

Lemma named_find (n : string) (l : list virStorageVolDef) :
  existsb (vol_is n) l = true -> exists w, find (vol_is n) l = Some w.
Proof.
  induction l as [|a l IH]; simpl; [discriminate|].
  destruct (vol_is n a); [eexists; reflexivity | exact IH].
Qed.

Lemma find_named (n : string) (l : list virStorageVolDef) w :
  find (vol_is n) l = Some w -> existsb (vol_is n) l = true.
Proof.
  intros H. apply find_some in H. apply existsb_exists. exists w. exact H.
Qed.

Lemma named_appended (n : string) (w : virStorageVolDef) l :
  vol_name w = n -> existsb (vol_is n) (l ++ [w]) = true.
Proof.
  intros Hw. rewrite existsb_app. simpl. unfold vol_is at 2.
  rewrite Hw, String.eqb_refl. rewrite orb_true_r. reflexivity.
Qed.

Lemma named_put (n m : string) (w : virStorageVolDef) l :
  vol_name w = m ->
  existsb (vol_is n) l = true ->
  existsb (vol_is n) (map (fun x => if vol_is m x then w else x) l) = true.
Proof.
  intros Hw. induction l as [|a l IH]; simpl; [auto|].
  intros H. apply orb_true_iff in H. destruct H as [H|H].
  - destruct (vol_is m a) eqn:E; [|rewrite H; reflexivity].
    unfold vol_is in *. apply String.eqb_eq in H, E.
    assert (Hn : (vol_name w =? n)%string = true)
      by (apply String.eqb_eq; congruence).
    rewrite Hn. reflexivity.
  - rewrite (IH H). apply orb_true_r.
Qed.

Lemma named_with (n m : string) (f : virStorageVolDef -> virStorageVolDef) l :
  (forall x, vol_name (f x) = vol_name x) ->
  existsb (vol_is n) l = true ->
  existsb (vol_is n) (map (fun x => if vol_is m x then f x else x) l) = true.
Proof.
  intros Hf. induction l as [|a l IH]; simpl; [auto|].
  intros H. apply orb_true_iff in H. destruct H as [H|H].
  - destruct (vol_is m a) eqn:E; [|rewrite H; reflexivity].
    unfold vol_is in *. rewrite Hf, H. reflexivity.
  - rewrite (IH H). apply orb_true_r.
Qed.

Ltac holds_the_volume :=
  match goal with
  | Hu : virStoragePoolObjFindByUUID _ _ = Some ?v |- _ =>
      eexists;
      split; [apply (find_uuid_replace _ _ _ _ Hu);
              apply find_some in Hu; exact (proj2 Hu)|];
      split; [norm_obj; inactive_was|];
      split; [|split; reflexivity];
      unfold put_vol, pool_allocate, with_vol; norm_obj;
      cbn [vol_name backend_vol set_vol_key set_vol_building];
      repeat (apply named_put; [reflexivity|]);
      repeat (apply named_with; [reflexivity|])
  end.

Lemma storageVolCreateXML_locked_created env pool xmldesc flags s vol s1 :
  storageVolCreateXML_locked env pool xmldesc flags s = (inr (VolCreated vol), s1) ->
  exists X,
    virStoragePoolObjFindByUUID (pools s1) (pool_uuid pool) = Some X
    /\ active X = true
    /\ existsb (vol_is (volh_name vol)) (volumes X) = true
    /\ volh_pool vol = obj_name X
    /\ volh_conn vol = pool_conn pool.
Proof.
  apply (wp_run _ (fun r s1 =>
    match r with
    | inr (VolCreated vol) =>
      exists X,
        find (uuid_is (pool_uuid pool)) (pools s1) = Some X
        /\ active X = true
        /\ existsb (vol_is (volh_name vol)) (volumes X) = true
        /\ volh_pool vol = obj_name X
        /\ volh_conn vol = pool_conn pool
    | _ => True
    end)).
  destruct s as [l cd ad sd ev fs tr].
  unfold storageVolCreateXML_locked. wp_go; norm_state; try exact I; impossible.
  all: unfold virStoragePoolObjIsActive in *.
  all: norm_names; rewrite ?map_map_replace by reflexivity.
  all: cbn [volh_name volh_pool volh_conn].
  all: holds_the_volume.
  all: apply named_appended; reflexivity.
Qed.

Lemma storageVolCreateXML_locked_building env pool xmldesc flags s job s1 :
  storageVolCreateXML_locked env pool xmldesc flags s = (inr (VolBuilding job), s1) ->
  exists X,
    virStoragePoolObjFindByUUID (pools s1) (pool_uuid pool) = Some X
    /\ virStoragePoolObjFindByName (pools s1) (job_pool job) = Some X
    /\ active X = true
    /\ existsb (vol_is (job_vol job)) (volumes X) = true
    /\ volh_name (job_newvol job) = job_vol job
    /\ volh_pool (job_newvol job) = obj_name X
    /\ volh_conn (job_newvol job) = pool_conn pool.
Proof.
  apply (wp_run _ (fun r s1 =>
    match r with
    | inr (VolBuilding job) =>
      exists X,
        find (uuid_is (pool_uuid pool)) (pools s1) = Some X
        /\ find (name_is (job_pool job)) (pools s1) = Some X
        /\ active X = true
        /\ existsb (vol_is (job_vol job)) (volumes X) = true
        /\ volh_name (job_newvol job) = job_vol job
        /\ volh_pool (job_newvol job) = obj_name X
        /\ volh_conn (job_newvol job) = pool_conn pool
    | _ => True
    end)).
  destruct s as [l cd ad sd ev fs tr].
  unfold storageVolCreateXML_locked. wp_go; norm_state; try exact I; impossible.
  all: unfold virStoragePoolObjIsActive in *.
  all: registered_by_uuid.
  all: norm_names; rewrite ?map_map_replace by reflexivity.
  all: cbn [job_pool job_vol job_newvol volh_name volh_pool volh_conn].
  all: match goal with
       | Hu : virStoragePoolObjFindByUUID _ _ = Some ?v |- _ =>
           eexists;
           split; [apply (find_uuid_replace _ _ _ _ Hu);
                   apply find_some in Hu; exact (proj2 Hu)|];
           split; [apply find_replace_here; [reflexivity | exact Hreg]|];
           split; [norm_obj; inactive_was|];
           split; [|repeat split];
           unfold put_vol, pool_allocate, with_vol; norm_obj;
           cbn [vol_name backend_vol set_vol_key set_vol_building];
           repeat (apply named_put; [reflexivity|]);
           apply named_appended; reflexivity
       end.
Qed.

Lemma storageVolCreateXML_relocked_done (job : volBuildJob) (buildret : Z)
      (s s' : virStorageDriverState) (vol : virStorageVol) (u : string)
      (X : virStoragePoolObj) :
  storageVolCreateXML_relocked job buildret s = (inr vol, s') ->
  virStoragePoolObjFindByName (pools s) (job_pool job) = Some X ->
  virStoragePoolObjFindByUUID (pools s) u = Some X ->
  active X = true ->
  existsb (vol_is (job_vol job)) (volumes X) = true ->
  vol = job_newvol job
  /\ exists X',
       virStoragePoolObjFindByUUID (pools s') u = Some X'
       /\ active X' = true
       /\ existsb (vol_is (job_vol job)) (volumes X') = true
       /\ obj_name X' = obj_name X.
Proof.
  intros Hrun.
  refine (wp_run _ (fun r s' =>
    match r with
    | inr vol =>
      virStoragePoolObjFindByName (pools s) (job_pool job) = Some X ->
      virStoragePoolObjFindByUUID (pools s) u = Some X ->
      active X = true ->
      existsb (vol_is (job_vol job)) (volumes X) = true ->
      vol = job_newvol job
      /\ exists X',
           find (uuid_is u) (pools s') = Some X'
           /\ active X' = true
           /\ existsb (vol_is (job_vol job)) (volumes X') = true
           /\ obj_name X' = obj_name X
    | _ => True
    end) _ _ _ _ Hrun). clear Hrun.
  destruct s as [l cd ad sd ev fs tr].
  unfold storageVolCreateXML_relocked, storageVolCreateXML_finish.
  wp_go; norm_state; try exact I.
  all: intros Hx Hu Hact Hvol; injection Hx as <-.
  all: split; [reflexivity|].
  all: repeat match goal with
       | |- context [name_is (obj_name ?x)] =>
           progress change (obj_name x) with (obj_name v)
       end.
  all: rewrite ?map_map_replace by reflexivity.
  all: eexists;
       (split; [apply (find_uuid_replace _ _ _ _ Hu);
                apply find_some in Hu; exact (proj2 Hu)|]);
       (split; [exact Hact|]);
       (split; [|reflexivity]).
  all: unfold put_vol, pool_allocate, with_vol; norm_obj.
  all: cbn [vol_name backend_vol set_vol_key set_vol_building].
  all: repeat (apply named_put; [reflexivity|]).
  all: repeat (apply named_with; [reflexivity|]).
  all: exact Hvol.
Qed.

(** X18.  After storageVolCreateXML succeeds, with or without a build step,
    storageVolLookupByName on the same pool with the name of the returned
    handle succeeds, leaves the state unchanged and returns a handle with
    the same connection, pool name and volume name (the lookup being
    permitted by access control). *)
Theorem storageVolCreateXML_then_lookup (env : Env) (q : Queries)
        (pool : virStoragePool) (xmldesc : string) (flags : Z)
        (s s' : virStorageDriverState) (vol : virStorageVol) :
  storageVolCreateXML env pool xmldesc flags s = (inr vol, s') ->
  (forall d v, QueryACL q AclVolLookupByName (pool_conn pool) d v = true) ->
  exists vol',
    storageVolLookupByName q pool (volh_name vol) s' = (inr vol', s')
    /\ volh_name vol' = volh_name vol
    /\ volh_pool vol' = volh_pool vol
    /\ volh_conn vol' = volh_conn vol.
Proof.
  intros Hrun Hacl.
  assert (H : exists X,
             virStoragePoolObjFindByUUID (pools s') (pool_uuid pool) = Some X
             /\ active X = true
             /\ existsb (vol_is (volh_name vol)) (volumes X) = true
             /\ volh_pool vol = obj_name X
             /\ volh_conn vol = pool_conn pool).
  { revert Hrun. unfold storageVolCreateXML, bind.
    destruct (storageVolCreateXML_locked env pool xmldesc flags s)
      as [[e1|[vol1|job]] s1] eqn:E1; [discriminate| |].
    - intros H. injection H as <- <-.
      exact (storageVolCreateXML_locked_created _ _ _ _ _ _ _ E1).
    - destruct (storageVolCreateXML_locked_building _ _ _ _ _ _ _ E1)
        as [X [Hu [Hn [Hact [Hvol [Hvn [Hvp Hvc]]]]]]].
      destruct (storageVolCreateXML_build job s1) as [[e2|buildret] s2] eqn:E2;
        [discriminate|].
      destruct (storageVolCreateXML_build_frame _ _ _ _ E2) as [Hp2 _].
      intros H3. rewrite <- Hp2 in Hu, Hn.
      destruct (storageVolCreateXML_relocked_done _ _ _ _ _ _ _ H3 Hn Hu Hact Hvol)
        as [-> [X' [Hu' [Hact' [Hvol' Hname']]]]].
      exists X'. rewrite Hvn. repeat split; congruence. }
  destruct H as [X [Hu [Hact [Hvol [Hp Hc]]]]].
  destruct (named_find _ _ Hvol) as [w Hw].
  exists (virGetStorageVol (pool_conn pool) (def X) w).
  unfold storageVolLookupByName, virStoragePoolObjFromStoragePool,
    storagePoolObjFindByUUID, queryACL, bind, gets, ret.
  rewrite Hu. unfold virStoragePoolObjIsActive. rewrite Hact. cbn [negb].
  unfold virStorageVolDefFindByName. rewrite Hw, Hacl.
  split; [reflexivity|]. cbn [virGetStorageVol volh_name volh_pool volh_conn].
  split; [exact (find_vol_is _ _ _ Hw)|]. split; [symmetry; exact Hp|].
  symmetry; exact Hc.
Qed.

(** ** Lookup by path, and the queries *)

Lemma storageVolLookupByPath_scan_found q conn path cleanpath l vol :
  storageVolLookupByPath_scan q conn path cleanpath l = inr (Some vol) ->
  exists before obj after voldef,
    l = before ++ obj :: after
    /\ active obj = true
    /\ In voldef (volumes obj)
    /\ (if uses_stable_path (def_type (def obj))
        then virStorageBackendStablePath q obj cleanpath = Some (target_path voldef)
        else target_path voldef = path)
    /\ vol = virGetStorageVol conn (def obj) voldef.
Proof.
  induction l as [|a l IH]; simpl; [discriminate|].
  unfold virStoragePoolObjIsActive.
  assert (Hrest :
    storageVolLookupByPath_scan q conn path cleanpath l = inr (Some vol) ->
    exists before obj after voldef,
      a :: l = before ++ obj :: after
      /\ active obj = true
      /\ In voldef (volumes obj)
      /\ (if uses_stable_path (def_type (def obj))
          then virStorageBackendStablePath q obj cleanpath = Some (target_path voldef)
          else target_path voldef = path)
      /\ vol = virGetStorageVol conn (def obj) voldef).
  { intros H. destruct (IH H) as [b [o [af [v [-> Hv]]]]].
    exists (a :: b), o, af, v. split; [reflexivity | exact Hv]. }
  destruct (active a) eqn:Ea; simpl; [|exact Hrest].
  destruct (uses_stable_path (def_type (def a))) eqn:Et.
  - destruct (virStorageBackendStablePath q a cleanpath) as [sp|] eqn:Esp;
      [|exact Hrest].
    destruct (virStorageVolDefFindByPath a sp) as [v|] eqn:Ev; [|exact Hrest].
    destruct (QueryACL q AclVolLookupByPath conn (def a) (Some v)); [|discriminate].
    intros H. injection H as <-.
    unfold virStorageVolDefFindByPath in Ev. apply find_some in Ev.
    destruct Ev as [Hin Hp]. apply String.eqb_eq in Hp.
    exists [], a, l, v. rewrite Et, Hp. repeat split; auto.
  - destruct (virStorageVolDefFindByPath a path) as [v|] eqn:Ev; [|exact Hrest].
    destruct (QueryACL q AclVolLookupByPath conn (def a) (Some v)); [|discriminate].
    intros H. injection H as <-.
    unfold virStorageVolDefFindByPath in Ev. apply find_some in Ev.
    destruct Ev as [Hin Hp]. apply String.eqb_eq in Hp.
    exists [], a, l, v. rewrite Et. repeat split; auto.
Qed.

Lemma storageVolLookupByPath_scan_refused q conn path cleanpath l e :
  storageVolLookupByPath_scan q conn path cleanpath l = inl e ->
  e = Callee "access control".
Proof.
  induction l as [|a l IH]; simpl; [discriminate|].
  destruct (negb (virStoragePoolObjIsActive a)); [exact IH|].
  destruct (if uses_stable_path (def_type (def a))
            then virStorageBackendStablePath q a cleanpath
            else Some path) as [sp|]; [|exact IH].
  destruct (virStorageVolDefFindByPath a sp) as [v|]; [|exact IH].
  destruct (QueryACL q AclVolLookupByPath conn (def a) (Some v)); [discriminate|].
  intros H. injection H as <-. reflexivity.
Qed.

(** X24.  storageVolLookupByPath never changes the state. A volume it
    returns belongs to an active pool, and its target path is the stable
    form of the sanitized path for dir, fs, netfs, logical, disk, iscsi,
    scsi, mpath and vstorage pools and the path as given for gluster, rbd,
    sheepdog and zfs pools. Its only failures are an access-control denial
    and VIR_ERR_NO_STORAGE_VOL. *)
Theorem storageVolLookupByPath_first_match (q : Queries) (conn : virConnectPtr)
        (path : string) (s : virStorageDriverState) :
  snd (storageVolLookupByPath q conn path s) = s
  /\ (forall vol,
        fst (storageVolLookupByPath q conn path s) = inr vol ->
        exists before obj after voldef,
          pools s = before ++ obj :: after
          /\ active obj = true
          /\ In voldef (volumes obj)
          /\ (if uses_stable_path (def_type (def obj))
              then virStorageBackendStablePath q obj (virFileSanitizePath q path)
                   = Some (target_path voldef)
              else target_path voldef = path)
          /\ vol = virGetStorageVol conn (def obj) voldef)
  /\ (forall e,
        fst (storageVolLookupByPath q conn path s) = inl e ->
        e = Callee "access control"
        \/ exists message, e = Reported VIR_ERR_NO_STORAGE_VOL message).
Proof.
  unfold storageVolLookupByPath, bind, gets, ret, virReportError, fail.
  destruct (storageVolLookupByPath_scan q conn path (virFileSanitizePath q path)
              (pools s)) as [e|[v|]] eqn:E.
  - simpl. split; [reflexivity|]. split; [discriminate|].
    intros e' H. injection H as <-. left.
    exact (storageVolLookupByPath_scan_refused _ _ _ _ _ _ E).
  - simpl. split; [reflexivity|]. split; [|discriminate].
    intros vol H. injection H as <-.
    exact (storageVolLookupByPath_scan_found _ _ _ _ _ _ E).
  - destruct (String.eqb path (virFileSanitizePath q path)); simpl;
      (split; [reflexivity|]); (split; [discriminate|]);
      intros e' H; injection H as <-; right; eexists; reflexivity.
Qed.

(** X29.  storagePoolLookupByUUID, storagePoolLookupByName,
    storagePoolLookupByVolume, storagePoolIsActive, storagePoolIsPersistent,
    storagePoolGetInfo, storagePoolGetAutostart, storageVolLookupByName and
    storageVolGetPath leave the driver state unchanged, whether they succeed
    or fail. *)
Theorem queries_read_only (env : Env) (q : Queries) (conn : virConnectPtr)
        (pool : virStoragePool) (vol : virStorageVol) (name : string)
        (s : virStorageDriverState) :
  snd (storagePoolLookupByUUID q conn name s) = s
  /\ snd (storagePoolLookupByName q conn name s) = s
  /\ snd (storagePoolLookupByVolume q vol s) = s
  /\ snd (storagePoolIsActive q pool s) = s
  /\ snd (storagePoolIsPersistent q pool s) = s
  /\ snd (storagePoolGetInfo env q pool s) = s
  /\ snd (storagePoolGetAutostart q pool s) = s
  /\ snd (storageVolLookupByName q pool name s) = s
  /\ snd (storageVolGetPath q vol s) = s.
Proof.
  repeat split.
  all: apply (wp_state _ (fun s' => s' = s)).
  all: destruct s as [l cd ad sd ev fs tr].
  all: wp_go; reflexivity.
Qed.

(** ** What a pending copy excludes *)

Lemma pinned_in_use (n : Z) :
  0 <= n < 4294967295 -> (wrap32 (n + 1) =? 0) = false.
Proof.
  intros H. unfold wrap32. rewrite Z.mod_small by lia. apply Z.eqb_neq. lia.
Qed.

Lemma find_vol_put (o : virStoragePoolObj) (w : virStorageVolDef) (n : string) :
  vol_name w = n ->
  existsb (vol_is n) (volumes o) = true ->
  virStorageVolDefFindByName (put_vol o w) n = Some w.
Proof.
  intros Hw Hthere. destruct (named_find _ _ Hthere) as [a Ha].
  exact (find_put_vol_named o w a n Ha Hw).
Qed.

(** The name of a held copy of an object, whatever was written to it. *)
Ltac plain_names :=
  repeat match goal with
  | |- context [obj_name ?x] =>
      let d := eval cbn [def put_vol pool_allocate pool_release with_vol set_def
                         set_volumes set_active set_asyncjobs set_newDef
                         set_configFile] in (def x) in
      let n := eval cbn [def_name backend_def set_def_allocation
                         set_def_available] in (def_name d) in
      progress change (obj_name x) with n
  end.

Lemma storageVolCreateXMLFrom_locked_pinned env pool xmldesc volsrc flags s job s1 :
  storageVolCreateXMLFrom_locked env pool xmldesc volsrc flags s = (inr job, s1) ->
  (forall o, virStoragePoolObjFindByUUID (pools s) (pool_uuid pool) = Some o ->
             obj_name o = pool_name pool) ->
  (forall o v, In o (pools s) -> In v (volumes o) ->
               0 <= vol_in_use v < 4294967295) ->
  exists O w,
    virStoragePoolObjFindByName (pools s1) (volh_pool volsrc) = Some O
    /\ active O = true
    /\ virStorageVolDefFindByName O (volh_name volsrc) = Some w
    /\ (vol_in_use w =? 0) = false.
Proof.
  intros Hrun Hh Hin. revert Hrun.
  apply (wp_run _ (fun r s1 =>
    match r with
    | inr job =>
      exists O w,
        find (name_is (volh_pool volsrc)) (pools s1) = Some O
        /\ active O = true
        /\ virStorageVolDefFindByName O (volh_name volsrc) = Some w
        /\ (vol_in_use w =? 0) = false
    | _ => True
    end)).
  destruct s as [l cd ad sd ev fs tr]. cbn [pools] in Hh, Hin.
  unfold storageVolCreateXMLFrom_locked. wp_go; norm_state; try exact I; impossible.
  all: unfold virStoragePoolObjIsActive in *.
  all: try solve [ exfalso;
                   match goal with
                   | H : _ && _ = false |- _ => cbn in H; discriminate H
                   end ].
  all: cbn [src_owner] in *.
  all: pose proof (Hh _ eq_refl) as Hhandle.
  all: pose proof (found_registered _ _ _ Heqo) as Hreg.
  all: pose proof (proj1 (find_some _ _ Heqo)) as Hinv.
  all: match goal with
       | H : virStorageVolDefFindByName ?o (volh_name _) = Some ?w |- _ =>
           pose proof (find_vol_is _ _ _ H) as Hn;
           pose proof (find_named _ _ _ H) as Hthere;
           pose proof (proj1 (find_some _ _ H)) as Hsrc
       end.
  all: plain_names.
  all: try match goal with
       | Hs : virStoragePoolObjFindByName _ (volh_pool _) = Some ?o,
         Hd : name_is _ ?o = false |- _ =>
           pose proof (proj2 (find_some _ _ Hs)) as E1;
           pose proof (proj1 (find_some _ _ Hs)) as Hino;
           unfold name_is, obj_name in E1, Hd;
           match type of E1 with
           | String.eqb _ ?n = true =>
               match type of Hd with
               | String.eqb _ ?nv = false =>
                   assert (E2 : String.eqb nv n = false)
                     by (apply String.eqb_eq in E1; rewrite E1 in Hd;
                         rewrite String.eqb_sym; exact Hd)
               end
           end;
           unfold virStoragePoolObjFindByName in Hs
       end.
  all: try match goal with
       | Hb : negb (String.eqb (pool_name _) ?n) = false |- _ =>
           apply negb_false_iff in Hb; apply String.eqb_eq in Hb;
           assert (E3 : String.eqb (def_name (def v)) n = true)
             by (apply String.eqb_eq; unfold obj_name in Hhandle; congruence);
           destruct (find (name_is n) l) as [a|] eqn:Ea;
           [| exfalso; apply (registered_find _ _ Hreg);
              apply String.eqb_eq in E3; unfold obj_name; rewrite E3; exact Ea ]
       end.
  all: rewrite ?find_replace by reflexivity.
  all: rewrite ?E1, ?E2, ?E3.
  all: try match goal with
       | Hs : find _ _ = Some _ |- _ => rewrite Hs
       end.
  all: cbn [option_map].
  all: eexists; eexists; split; [reflexivity|].
  all: split; [norm_obj; inactive_was|].
  all: try match goal with
       | |- virStorageVolDefFindByName (set_asyncjobs ?X ?k) ?n = _ /\ _ =>
           change (virStorageVolDefFindByName (set_asyncjobs X k) n)
             with (virStorageVolDefFindByName X n)
       end.
  all: split;
    [ apply find_vol_put;
      [ cbn [vol_name set_vol_in_use backend_vol]; exact Hn
      | unfold put_vol; norm_obj;
        repeat first [ apply named_put; [reflexivity|]
                     | rewrite existsb_app; apply orb_true_iff; left ];
        exact Hthere ]
    | cbn [vol_in_use set_vol_in_use backend_vol]; apply pinned_in_use;
      first [ exact (Hin _ _ Hino Hsrc) | exact (Hin _ _ Hinv Hsrc) ] ].
Qed.

(** X16.  While storageVolCreateXMLFrom has dropped the locks for
    buildVolFrom, the source volume counts one more user, so delete, resize
    and wipe of the source volume all fail and leave the driver state
    unchanged. This holds when the pool handle carries the name of the pool
    its UUID finds and the use counters are below the 32-bit maximum. *)
Theorem pending_clone_pins_source (env : Env) (pool : virStoragePool)
        (xmldesc : string) (volsrc : virStorageVol) (flags : Z)
        (s s1 : virStorageDriverState) (job : volCloneJob) :
  storageVolCreateXMLFrom_locked env pool xmldesc volsrc flags s = (inr job, s1) ->
  (forall o, virStoragePoolObjFindByUUID (pools s) (pool_uuid pool) = Some o ->
             obj_name o = pool_name pool) ->
  (forall o v, In o (pools s) -> In v (volumes o) ->
               0 <= vol_in_use v < 4294967295) ->
  (forall f, blocked (storageVolDelete env volsrc f) s1)
  /\ (forall c f, blocked (storageVolResize env volsrc c f) s1)
  /\ (forall a f, blocked (storageVolWipePattern env volsrc a f) s1).
Proof.
  intros Hrun Hh Hin.
  destruct (storageVolCreateXMLFrom_locked_pinned _ _ _ _ _ _ _ _ Hrun Hh Hin)
    as [O [w [Hname [Hact [Hvol Hpinned]]]]].
  destruct s1 as [l cd ad sd ev fs tr]. cbn [pools] in Hname.
  repeat split; intros.
  all: apply wp_blocked.
  - unfold storageVolDelete. wp_go; norm_state; clash.
  - unfold storageVolResize. wp_go; norm_state; clash.
  - unfold storageVolWipePattern. wp_go; norm_state; clash.
Qed.

(** * Further runs on the sample configurations *)

(** A pool created next to the pool of the sample driver: it is found by its name and by its UUID and reported active. *)
Lemma storagePoolCreateXML_then_lookup_witness :
  let env := Cases.env in
  let q := Cases.queries in
  let conn := 0%nat in
  let xml := "p2"%string in
  let flags := 0 in
  let s := Sample.idle in
  let s' := snd (storagePoolCreateXML env conn xml flags s) in
  let pool := Sample.handle "p2" in
  storagePoolLookupByName q conn (pool_name pool) s' = (inr pool, s')
  /\ (virStoragePoolObjFindByUUID (pools s) (pool_uuid pool) = None ->
      storagePoolLookupByUUID q conn (pool_uuid pool) s' = (inr pool, s')
      /\ storagePoolIsActive q pool s' = (inr 1, s'))
  /\ storageEventState s'
     = storageEventState s
       ++ [virStoragePoolEventLifecycle (pool_name pool) (pool_uuid pool)
             VIR_STORAGE_POOL_EVENT_STARTED 0]
  /\ (exists stateFile,
        virFileBuildPath env (stateDir s) (pool_name pool) ".xml" = Some stateFile
        /\ file_exists stateFile s' = true).
Proof.
  intros env q conn xml flags s s' pool.
  apply (storagePoolCreateXML_then_lookup env q conn xml flags s s' pool).
  - vm_compute. reflexivity.
  - intros c d v. reflexivity.
Defined.

(** Starting the defined pool of a driver. *)
Lemma storagePoolCreate_success_witness :
  let env := Cases.env in
  let pool := Sample.handle "p1" in
  let flags := 0 in
  let s := Cases.stopped VIR_STORAGE_POOL_DIR in
  let s' := snd (storagePoolCreate env pool flags s) in
  exists obj stateFile obj',
    virStoragePoolObjFindByUUID (pools s) (pool_uuid pool) = Some obj
    /\ active obj = false
    /\ virFileBuildPath env (stateDir s) (obj_name obj) ".xml" = Some stateFile
    /\ file_exists stateFile s' = true
    /\ storageEventState s'
       = storageEventState s
         ++ [virStoragePoolEventLifecycle (obj_name obj) (def_uuid (def obj))
               VIR_STORAGE_POOL_EVENT_STARTED 0]
    /\ virStoragePoolObjFindByName (pools s') (obj_name obj) = Some obj'
    /\ active obj' = true
    /\ configFile obj' = configFile obj
    /\ asyncjobs obj' = asyncjobs obj.
Proof.
  intros env pool flags s s'.
  apply (storagePoolCreate_success env pool flags s s').
  - vm_compute. reflexivity.
Defined.

(** Starting a pool whose refresh fails. *)
Lemma storagePoolCreate_failure_witness :
  let env := Cases.env in
  let pool := Sample.handle "p1" in
  let flags := 0 in
  let s := Cases.stopped VIR_STORAGE_POOL_LOGICAL in
  let s' := snd (storagePoolCreate env pool flags s) in
  let e := Callee "refreshPool" in
  storageEventState s' = storageEventState s
  /\ (forall o, In o (pools s') -> active o = true -> In o (pools s))
  /\ (forall p, file_exists p s' = true -> file_exists p s = true)
  /\ (e = Callee "virStoragePoolSaveState" \/ e = Callee "refreshPool" ->
      forall obj stateFile,
        virStoragePoolObjFindByUUID (pools s) (pool_uuid pool) = Some obj ->
        virFileBuildPath env (stateDir s) (obj_name obj) ".xml" = Some stateFile ->
        file_exists stateFile s' = false).
Proof.
  intros env pool flags s s' e.
  apply (storagePoolCreate_failure env pool flags s s' e).
  - vm_compute. reflexivity.
Defined.

(** Building the defined pool of a driver. *)
Lemma storagePoolBuild_success_witness :
  let env := Cases.env in
  let pool := Sample.handle "p1" in
  let flags := 0 in
  let s := Cases.stopped VIR_STORAGE_POOL_DIR in
  let s' := snd (storagePoolBuild env pool flags s) in
  exists obj backend,
    virStoragePoolObjFindByUUID (pools s) (pool_uuid pool) = Some obj
    /\ virStorageBackendForType env (def_type (def obj)) = Some backend
    /\ active obj = false
    /\ storageEventState s'
       = storageEventState s
         ++ [virStoragePoolEventLifecycle (obj_name obj) (def_uuid (def obj))
               VIR_STORAGE_POOL_EVENT_CREATED 0]
    /\ files s' = files s
    /\ match buildPool backend with
       | None => pools s' = pools s /\ trace s' = trace s
       | Some entry =>
           trace s' = trace s ++ [CallBuildPool (obj_name obj)]
           /\ 0 <= fst (fst (entry obj flags))
       end.
Proof.
  intros env pool flags s s'.
  apply (storagePoolBuild_success env pool flags s s').
  - vm_compute. reflexivity.
Defined.


(** Destroying a pool whose backend cannot stop it. *)
Lemma storagePoolDestroy_stop_failure_witness :
  let env := Cases.env in
  let pool := Sample.handle "p1" in
  let s := Cases.running VIR_STORAGE_POOL_RBD in
  let s' := snd (storagePoolDestroy env pool s) in
  exists obj stateFile,
    virStoragePoolObjFindByUUID (pools s) (pool_uuid pool) = Some obj
    /\ virFileBuildPath env (stateDir s) (obj_name obj) ".xml" = Some stateFile
    /\ file_exists stateFile s' = false
    /\ storageEventState s' = storageEventState s
    /\ exists obj',
         virStoragePoolObjFindByName (pools s') (obj_name obj) = Some obj'
         /\ active obj' = true.
Proof.
  intros env pool s s'.
  apply (storagePoolDestroy_stop_failure env pool s s').
  - vm_compute. reflexivity.
Defined.

(** Undefining the stopped pool of a driver. *)
Lemma storagePoolUndefine_success_witness :
  let env := Cases.env in
  let pool := Sample.handle "p1" in
  let s := Cases.stopped VIR_STORAGE_POOL_DIR in
  let s' := snd (storagePoolUndefine env pool s) in
  exists obj,
    virStoragePoolObjFindByUUID (pools s) (pool_uuid pool) = Some obj
    /\ active obj = false
    /\ asyncjobs obj <= 0
    /\ virStoragePoolObjFindByName (pools s') (obj_name obj) = None
    /\ (forall p, configFile obj <> Some p -> autostartLink obj <> Some p ->
                  file_exists p s' = file_exists p s)
    /\ storageEventState s'
       = storageEventState s
         ++ [virStoragePoolEventLifecycle (obj_name obj) (def_uuid (def obj))
               VIR_STORAGE_POOL_EVENT_UNDEFINED 0].
Proof.
  intros env pool s s'.
  apply (storagePoolUndefine_success env pool s s').
  - vm_compute. reflexivity.
Defined.


(** Refreshing the idle pool of the sample driver. *)
Lemma storagePoolRefresh_success_witness :
  let env := Cases.env in
  let pool := Sample.handle "p1" in
  let flags := 0 in
  let s := Sample.idle in
  let s' := snd (storagePoolRefresh env pool flags s) in
  exists obj backend,
    virStoragePoolObjFindByUUID (pools s) (pool_uuid pool) = Some obj
    /\ virStorageBackendForType env (def_type (def obj)) = Some backend
    /\ active obj = true
    /\ asyncjobs obj <= 0
    /\ 0 <= fst (fst (refreshPool backend (set_volumes obj []) 0))
    /\ virStoragePoolObjFindByName (pools s') (obj_name obj)
       = Some (refreshed obj backend)
    /\ storageEventState s'
       = storageEventState s
         ++ [virStoragePoolEventRefresh (obj_name obj) (def_uuid (def obj))]
    /\ trace s' = trace s ++ [CallRefreshPool (obj_name obj)]
    /\ files s' = files s.
Proof.
  intros env pool flags s s'.
  apply (storagePoolRefresh_success env pool flags s s').
  - vm_compute. reflexivity.
Defined.

(** Refreshing a pool whose refresh fails. *)
Lemma storagePoolRefresh_failure_witness :
  let env := Cases.env in
  let pool := Sample.handle "p1" in
  let flags := 0 in
  let s := Sample.logical in
  let s' := snd (storagePoolRefresh env pool flags s) in
  exists obj,
    virStoragePoolObjFindByUUID (pools s) (pool_uuid pool) = Some obj
    /\ active obj = true
    /\ storageEventState s'
       = storageEventState s
         ++ [virStoragePoolEventLifecycle (obj_name obj) (def_uuid (def obj))
               VIR_STORAGE_POOL_EVENT_STOPPED 0]
    /\ (configFile obj = None ->
        virStoragePoolObjFindByName (pools s') (obj_name obj) = None)
    /\ (configFile obj <> None -> newDef obj = None ->
        exists obj',
          virStoragePoolObjFindByName (pools s') (obj_name obj) = Some obj'
          /\ active obj' = false).
Proof.
  intros env pool flags s s'.
  apply (storagePoolRefresh_failure env pool flags s s').
  - vm_compute. reflexivity.
Defined.

(** Deleting the volume of the sample pool. *)
Lemma storageVolDelete_success_witness :
  let env := Cases.env in
  let vol := Sample.vol_handle "p1" "v1" in
  let flags := 0 in
  let s := Sample.idle in
  let s' := snd (storageVolDelete env vol flags s) in
  exists obj voldef backend entry obj',
    virStoragePoolObjFindByName (pools s) (volh_pool vol) = Some obj
    /\ active obj = true
    /\ virStorageVolDefFindByName obj (volh_name vol) = Some voldef
    /\ vol_in_use voldef = 0
    /\ vol_building voldef = false
    /\ virStorageBackendForType env (def_type (def obj)) = Some backend
    /\ deleteVol backend = Some entry
    /\ virStoragePoolObjFindByName (pools s') (volh_pool vol) = Some obj'
    /\ virStorageVolDefFindByName obj' (volh_name vol) = None
    /\ (let '(status, d, v) := entry obj voldef flags 0 in
        0 <= status
        /\ def_allocation (def obj')
           = (if is_VIR_STORAGE_POOL_DISK (def_type (def obj))
              then def_allocation d
              else wrap64 (def_allocation d - target_allocation v))
        /\ def_available (def obj')
           = (if is_VIR_STORAGE_POOL_DISK (def_type (def obj))
              then def_available d
              else wrap64 (def_available d + target_allocation v)))
    /\ storageEventState s' = storageEventState s
    /\ files s' = files s
    /\ trace s' = trace s ++ [CallDeleteVol (volh_pool vol) (volh_name vol)].
Proof.
  intros env vol flags s s'.
  apply (storageVolDelete_success env vol flags s s').
  - vm_compute. reflexivity.
Defined.

(** Wiping the volume of the sample pool with zeroes. *)
Lemma storageVolWipePattern_success_witness :
  let env := Cases.env in
  let vol := Sample.vol_handle "p1" "v1" in
  let algorithm := 0 in
  let flags := 0 in
  let s := Sample.idle in
  let s' := snd (storageVolWipePattern env vol algorithm flags s) in
  algorithm < VIR_STORAGE_VOL_WIPE_ALG_LAST
  /\ exists obj voldef backend entry,
       virStoragePoolObjFindByName (pools s) (volh_pool vol) = Some obj
       /\ active obj = true
       /\ virStorageVolDefFindByName obj (volh_name vol) = Some voldef
       /\ vol_in_use voldef = 0
       /\ vol_building voldef = false
       /\ virStorageBackendForType env (def_type (def obj)) = Some backend
       /\ wipeVol backend = Some entry
       /\ 0 <= fst (fst (entry obj voldef algorithm flags))
       /\ storageEventState s' = storageEventState s
       /\ files s' = files s
       /\ trace s' = trace s ++ [CallWipeVol (volh_pool vol) (volh_name vol)].
Proof.
  intros env vol algorithm flags s s'.
  apply (storageVolWipePattern_success env vol algorithm flags s s').
  - vm_compute. reflexivity.
Defined.

(** Growing the volume of the sample pool to 20 MiB. *)
Lemma storageVolResize_success_witness :
  let env := Cases.env in
  let vol := Sample.vol_handle "p1" "v1" in
  let capacity := 20 * Sample.MiB in
  let flags := 0 in
  let s := Sample.idle in
  let s' := snd (storageVolResize env vol capacity flags s) in
  exists obj voldef,
    virStoragePoolObjFindByName (pools s) (volh_pool vol) = Some obj
    /\ active obj = true
    /\ virStorageVolDefFindByName obj (volh_name vol) = Some voldef
    /\ vol_in_use voldef = 0
    /\ vol_building voldef = false
    /\ (let abs_capacity := storageVolResize_abs_capacity voldef capacity flags in
        target_allocation voldef <= abs_capacity
        /\ (abs_capacity < target_capacity voldef ->
            flag_set flags VIR_STORAGE_VOL_RESIZE_SHRINK = true)
        /\ (flag_set flags VIR_STORAGE_VOL_RESIZE_ALLOCATE = true ->
            wrap64 (abs_capacity - target_allocation voldef)
            <= def_available (def obj))
        /\ exists obj' voldef',
             virStoragePoolObjFindByName (pools s') (volh_pool vol) = Some obj'
             /\ virStorageVolDefFindByName obj' (volh_name vol) = Some voldef'
             /\ target_capacity voldef' = abs_capacity)
    /\ storageEventState s' = storageEventState s
    /\ files s' = files s
    /\ trace s' = trace s ++ [CallResizeVol (volh_pool vol) (volh_name vol)].
Proof.
  intros env vol capacity flags s s'.
  apply (storageVolResize_success env vol capacity flags s s').
  - vm_compute. reflexivity.
Defined.

(** Deleting the volume of the sample pool. *)
Lemma volume_operations_frame_witness :
  let env := Cases.env in
  let c := VolDelete (Sample.vol_handle "p1" "v1") 0 in
  let vol := Sample.vol_handle "p1" "v1" in
  let s := Sample.idle in
  map obj_name (pools (exec env c s)) = map obj_name (pools s)
  /\ (forall n, n <> volh_pool vol ->
        virStoragePoolObjFindByName (pools (exec env c s)) n
        = virStoragePoolObjFindByName (pools s) n)
  /\ storageEventState (exec env c s) = storageEventState s
  /\ files (exec env c s) = files s.
Proof.
  intros env c vol s.
  apply (volume_operations_frame env c vol s).
  - reflexivity.
Defined.

(** While the volume v2 is built in the sample pool. *)
Lemma pending_build_blocks_witness :
  let env := Cases.env in
  let pool := Sample.handle "p1" in
  let xmldesc := "v2"%string in
  let flags := 0 in
  let s := Sample.idle in
  let s1 := snd (storageVolCreateXML_locked env pool xmldesc flags s) in
  let job := Cases.pending in
  blocked (storagePoolDestroy env pool) s1
  /\ (forall f, blocked (storagePoolRefresh env pool f) s1)
  /\ blocked (storagePoolUndefine env pool) s1
  /\ (forall f, blocked (storagePoolDelete env pool f) s1)
  /\ (forall vol, volh_pool vol = job_pool job -> volh_name vol = job_vol job ->
        (forall f, blocked (storageVolDelete env vol f) s1)
        /\ (forall c f, blocked (storageVolResize env vol c f) s1)
        /\ (forall a f, blocked (storageVolWipePattern env vol a f) s1)).
Proof.
  intros env pool xmldesc flags s s1 job.
  apply (pending_build_blocks env pool xmldesc flags s s1 job).
  - vm_compute. reflexivity.
  - intros obj H. vm_compute in H. injection H as <-. vm_compute. discriminate.
Defined.

(** While the volume v1 of the sample pool is copied into a new volume v2. *)
Lemma pending_clone_pins_source_witness :
  let env := Cases.env in
  let pool := Sample.handle "p1" in
  let xmldesc := "v2"%string in
  let volsrc := Sample.vol_handle "p1" "v1" in
  let flags := 0 in
  let s := Sample.idle in
  let s1 := snd (storageVolCreateXMLFrom_locked env pool xmldesc volsrc flags s) in
  let job := Cases.cloning in
  (forall f, blocked (storageVolDelete env volsrc f) s1)
  /\ (forall c f, blocked (storageVolResize env volsrc c f) s1)
  /\ (forall a f, blocked (storageVolWipePattern env volsrc a f) s1).
Proof.
  intros env pool xmldesc volsrc flags s s1 job.
  apply (pending_clone_pins_source env pool xmldesc volsrc flags s s1 job).
  - vm_compute. reflexivity.
  - intros o H. vm_compute in H. injection H as <-. reflexivity.
  - intros o v Ho Hv. destruct Ho as [<-|[]]. destruct Hv as [<-|[]]. vm_compute. split; [discriminate | reflexivity].
Defined.

(** Creating a volume in a pool whose backend fails to build it. *)
Lemma storageVolCreateXML_build_failure_witness :
  let env := Cases.env in
  let pool := Sample.handle "p1" in
  let xmldesc := "v2"%string in
  let flags := 0 in
  let s := Cases.running VIR_STORAGE_POOL_NETFS in
  let s' := snd (storageVolCreateXML env pool xmldesc flags s) in
  exists obj obj',
    virStoragePoolObjFindByUUID (pools s) (pool_uuid pool) = Some obj
    /\ virStoragePoolObjFindByName (pools s') (obj_name obj) = Some obj'
    /\ volumes obj' = volumes obj
    /\ asyncjobs obj' = asyncjobs obj
    /\ storageEventState s' = storageEventState s
    /\ files s' = files s.
Proof.
  intros env pool xmldesc flags s s'.
  apply (storageVolCreateXML_build_failure env pool xmldesc flags s s').
  - vm_compute. reflexivity.
Defined.

(** Creating the volume v2 in the sample pool, then looking it up. *)
Lemma storageVolCreateXML_then_lookup_witness :
  let env := Cases.env in
  let q := Cases.queries in
  let pool := Sample.handle "p1" in
  let xmldesc := "v2"%string in
  let flags := 0 in
  let s := Sample.idle in
  let s' := snd (storageVolCreateXML env pool xmldesc flags s) in
  let vol := mkVolHandle 0%nat "p1" "v2" (Some "/data/p1/v2"%string) in
  exists vol',
    storageVolLookupByName q pool (volh_name vol) s' = (inr vol', s')
    /\ volh_name vol' = volh_name vol
    /\ volh_pool vol' = volh_pool vol
    /\ volh_conn vol' = volh_conn vol.
Proof.
  intros env q pool xmldesc flags s s' vol.
  apply (storageVolCreateXML_then_lookup env q pool xmldesc flags s s' vol).
  - vm_compute. reflexivity.
  - intros d v. reflexivity.
Defined.

(** Destroying the busy pool of the sample driver. *)
Lemma refusal_changes_nothing_witness :
  let env := Cases.env in
  let c := PoolDestroy (Sample.handle "p1") in
  let s := Sample.busy in
  let e := Reported VIR_ERR_INTERNAL_ERROR "pool 'p1' has asynchronous jobs running." in
  snd (run env c s) = s.
Proof.
  intros env c s e.
  apply (refusal_changes_nothing env c s e).
  - vm_compute. reflexivity.
  - reflexivity.
  - reflexivity.
Defined.

(** Creating a volume without capacity in a pool that cannot build: the
    state is unchanged.  Creating a volume in a pool whose backend fails
    to refresh it and cannot delete it: the error is that of the cleanup,
    and the volume stays in the pool. *)
Lemma storageVolCreateXML_refusal_witness :
  (let s := Cases.running VIR_STORAGE_POOL_FS in
   let r := storageVolCreateXML Cases.env (Sample.handle "p1") "nocap" 0 s in
   fst r = inl (Reported VIR_ERR_NO_SUPPORT
                  "volume capacity required for this storage pool")
   /\ snd r = s)
  /\ (let s := Cases.running VIR_STORAGE_POOL_SHEEPDOG in
      let r := storageVolCreateXML Cases.env (Sample.handle "p1") "v2" 0 s in
      fst r = inl (Reported VIR_ERR_NO_SUPPORT
                     "storage pool does not support vol deletion")
      /\ exists obj w,
           virStoragePoolObjFindByName (pools (snd r)) "p1" = Some obj
           /\ virStorageVolDefFindByName obj "v2" = Some w).
Proof.
  split.
  - cbv zeta. split; [vm_compute; reflexivity|].
    destruct (storageVolCreateXML_refusal Cases.env (Sample.handle "p1") "nocap" 0
                (Cases.running VIR_STORAGE_POOL_FS)
                (snd (storageVolCreateXML Cases.env (Sample.handle "p1") "nocap" 0
                        (Cases.running VIR_STORAGE_POOL_FS)))
                (Reported VIR_ERR_NO_SUPPORT
                   "volume capacity required for this storage pool"))
      as [H|H].
    + vm_compute. reflexivity.
    + reflexivity.
    + exact H.
    + discriminate H.
  - cbv zeta. split; [vm_compute; reflexivity|].
    eexists. eexists. split; vm_compute; reflexivity.
Defined.

(** Cloning a volume that does not exist: the state is unchanged.
    Cloning a volume in a pool whose backend fails to copy it and cannot
    delete the new volume: the error is that of the cleanup, and the copy
    stays in the pool. *)
Lemma storageVolCreateXMLFrom_refusal_witness :
  (let s := Sample.idle in
   let r := storageVolCreateXMLFrom Cases.env (Sample.handle "p1") "v2"
              (Sample.vol_handle "p1" "nosuch") 0 s in
   fst r = inl (Reported VIR_ERR_NO_STORAGE_VOL
                  "no storage vol with matching name 'nosuch'")
   /\ snd r = s)
  /\ (let s := Cases.running VIR_STORAGE_POOL_ZFS in
      let r := storageVolCreateXMLFrom Cases.env (Sample.handle "p1") "v2"
                 (Sample.vol_handle "p1" "v1") 0 s in
      fst r = inl (Reported VIR_ERR_NO_SUPPORT
                     "storage pool does not support vol deletion")
      /\ exists obj w,
           virStoragePoolObjFindByName (pools (snd r)) "p1" = Some obj
           /\ virStorageVolDefFindByName obj "v2" = Some w).
Proof.
  split.
  - cbv zeta. split; [vm_compute; reflexivity|].
    destruct (storageVolCreateXMLFrom_refusal Cases.env (Sample.handle "p1") "v2"
                (Sample.vol_handle "p1" "nosuch") 0 Sample.idle
                (snd (storageVolCreateXMLFrom Cases.env (Sample.handle "p1") "v2"
                        (Sample.vol_handle "p1" "nosuch") 0 Sample.idle))
                (Reported VIR_ERR_NO_STORAGE_VOL
                   "no storage vol with matching name 'nosuch'"))
      as [H|H].
    + vm_compute. reflexivity.
    + reflexivity.
    + exact H.
    + discriminate H.
  - cbv zeta. split; [vm_compute; reflexivity|].
    eexists. eexists. split; vm_compute; reflexivity.
Defined.

(** Marking the sample pool for autostart. *)
Lemma storagePoolSetAutostart_then_get_witness :
  let q := Cases.queries in
  let pool := Sample.handle "p1" in
  let a := 1 in
  let s := Sample.idle in
  let s' := snd (storagePoolSetAutostart q pool a s) in
  exists obj cf,
    virStoragePoolObjFindByUUID (pools s) (pool_uuid pool) = Some obj
    /\ configFile obj = Some cf
    /\ (autostart obj = negb (a =? 0) -> s' = s)
    /\ (autostart obj <> negb (a =? 0) ->
        virStoragePoolObjFindByUUID (pools s') (pool_uuid pool)
        = Some (set_autostart obj (negb (a =? 0)))
        /\ match autostartLink obj with
           | Some link => file_exists link s' = negb (a =? 0)
           | None => a = 0
           end)
    /\ (QueryACL q AclPoolGetAutostart (pool_conn pool) (def obj) None = true ->
        storagePoolGetAutostart q pool s'
        = (inr (Z_of_bool (negb (a =? 0))), s')).
Proof.
  intros q pool a s s'.
  apply (storagePoolSetAutostart_then_get q pool a s s').
  - vm_compute. reflexivity.
Defined.

(** Three calls that fail: on a transient pool; on a pool whose autostart
    link is in the way, after the autostart directory was made; and on a
    marked pool whose link the file system refuses to remove. *)
Lemma storagePoolSetAutostart_failure_witness :
  let pool := Sample.handle "p1" in
  (let s := Cases.transient in
   let r := storagePoolSetAutostart Cases.queries pool 1 s in
   fst r = inl (Reported VIR_ERR_INTERNAL_ERROR "pool has no config file")
   /\ snd r = s)
  /\ (let s := Cases.stale_link in
      let r := storagePoolSetAutostart Cases.queries pool 1 s in
      fst r = inl (Callee "symlink")
      /\ pools (snd r) = pools s
      /\ file_exists "/etc/autostart" s = false
      /\ file_exists "/etc/autostart" (snd r) = true)
  /\ (let s := Cases.at_boot in
      let r := storagePoolSetAutostart Cases.readonly pool 0 s in
      fst r = inl (Callee "unlink")
      /\ pools (snd r) = pools s
      /\ file_exists "/etc/autostart/p1.xml" (snd r) = true).
Proof.
  intros pool. split; [|split].
  - intros s r.
    assert (Hrun : storagePoolSetAutostart Cases.queries pool 1 s
                   = (inl (Reported VIR_ERR_INTERNAL_ERROR "pool has no config file"),
                      snd r))
      by (vm_compute; reflexivity).
    split; [vm_compute; reflexivity|].
    destruct (storagePoolSetAutostart_failure _ _ _ _ _ _ Hrun) as [_ [_ Hobj]].
    refine (proj2 (proj1 (Hobj _ _ _) _)); vm_compute; reflexivity.
  - intros s r.
    assert (Hrun : storagePoolSetAutostart Cases.queries pool 1 s
                   = (inl (Callee "symlink"), snd r))
      by (vm_compute; reflexivity).
    split; [vm_compute; reflexivity|].
    split; [exact (proj1 (storagePoolSetAutostart_failure _ _ _ _ _ _ Hrun))|].
    split; vm_compute; reflexivity.
  - intros s r.
    assert (Hrun : storagePoolSetAutostart Cases.readonly pool 0 s
                   = (inl (Callee "unlink"), snd r))
      by (vm_compute; reflexivity).
    split; [vm_compute; reflexivity|].
    split; [exact (proj1 (storagePoolSetAutostart_failure _ _ _ _ _ _ Hrun))|].
    vm_compute; reflexivity.
Defined.

(** A driver that starts with a stopped pool marked for autostart, beside a running pool. *)
Lemma storageDriverAutostart_kept_witness :
  let env := Cases.env in
  let s := Cases.at_boot in
  exists s',
    storageDriverAutostart env s = (inr tt, s')
    /\ storageEventState s' = storageEventState s
    /\ Forall2 autostart_kept (pools s) (pools s').
Proof.
  intros env s.
  apply (storageDriverAutostart_kept env s).
  - vm_compute. repeat (constructor; [simpl; intuition discriminate|]). constructor.
Defined.

(** The state of the sample pool at startup. *)
Lemma storagePoolUpdateState_outcome_witness :
  let env := Cases.env in
  let q := Cases.queries in
  let obj := Sample.pool_obj "p1" VIR_STORAGE_POOL_DIR 0 in
  let s := Sample.idle in
  let stateFile := "/run/p1.xml"%string in
  exists s',
    storagePoolUpdateState env q obj s = (inr tt, s')
    /\ storageEventState s' = storageEventState s
    /\ ((virStorageBackendForType env (def_type (def obj)) = None
         /\ pools s' = pools s
         /\ file_exists stateFile s' = false)
        \/ (exists backend entry o',
              virStorageBackendForType env (def_type (def obj)) = Some backend
              /\ checkPool q backend = Some entry
              /\ 0 <= fst (entry obj)
              /\ snd (entry obj) = true
              /\ 0 <= fst (fst (refreshPool backend (set_volumes obj []) 0))
              /\ virStoragePoolObjFindByName (pools s') (obj_name obj) = Some o'
              /\ active o' = true
              /\ files s' = files s
              /\ trace s' = trace s ++ [CallRefreshPool (obj_name obj)])
        \/ (exists backend,
              virStorageBackendForType env (def_type (def obj)) = Some backend
              /\ file_exists stateFile s' = false
              /\ match configFile obj with
                 | None => virStoragePoolObjFindByName (pools s') (obj_name obj) = None
                 | Some _ =>
                     newDef obj = None ->
                     exists o',
                       virStoragePoolObjFindByName (pools s') (obj_name obj) = Some o'
                       /\ active o' = false
                 end)).
Proof.
  intros env q obj s stateFile.
  apply (storagePoolUpdateState_outcome env q obj s stateFile).
  - vm_compute. reflexivity.
  - vm_compute. reflexivity.
Defined.
